(** * Pylontech battery exporter: the line-record parser

    A shallow embedding of [src/parser/parser.go] together with the parts of
    the Go standard library it calls ([strings], [strconv], [unicode/utf8],
    [regexp], [log]), and the properties of the parser stated over it.

    A Go [string] is a sequence of bytes; it is embedded as a Rocq [string]
    (a sequence of 8-bit [ascii]).  The library functions that walk a string
    rune by rune work on its byte list. Go's [int] is taken to be 64 bits
    wide.

    The fetcher ([src/fetcher/fetcher.go]), the updates of the gauges
    ([src/metrics/metrics.go]) and the processing functions of [main], for
    one unit and for several, are embedded after the parser.  What they act
    on is explicit: the environment and the answers of the device are
    parameters, the Prometheus series, the error counters and the logger
    are the fields of a state that the functions pass on. *)

From Stdlib Require Import ZArith Ascii String.
From Stdlib Require SpecFloat.
From stdpp Require Import base decidable option list gmap strings.

Local Open Scope Z_scope.

(* ===================================================================== *)
(** * Bytes and fixed-width integers *)
(* ===================================================================== *)

Definition bytes (s : string) : list ascii := list_ascii_of_string s.
Definition ofBytes (p : list ascii) : string := string_of_list_ascii p.

Definition byteVal (a : ascii) : Z := Z.of_N (N_of_ascii a).

Definition inRange (lo hi b : Z) : bool := (lo <=? b) && (b <=? hi).

(** Conversion to a fixed-width integer type keeps the low bits: [int8(n)]
    is [n] modulo 2^8 read as two's complement. *)
Definition wrapSigned (bits n : Z) : Z :=
  (n + 2 ^ (bits - 1)) mod 2 ^ bits - 2 ^ (bits - 1).

Definition wrapUnsigned (bits n : Z) : Z := n mod 2 ^ bits.

Definition int8 (n : Z) : Z := wrapSigned 8 n.
Definition int64 (n : Z) : Z := wrapSigned 64 n.
Definition uint64 (n : Z) : Z := wrapUnsigned 64 n.

Definition intSize : Z := 64.

(* ===================================================================== *)
(** * Run-time panics *)
(* ===================================================================== *)

(** A Go function either returns or panics (here: an index out of range). *)
Inductive exec (A : Type) : Type :=
| Done (a : A)
| Panic (msg : string).
Arguments Done {A} a.
Arguments Panic {A} msg.

#[global] Instance exec_ret : MRet exec := fun A a => Done a.

#[global] Instance exec_bind : MBind exec := fun A B k m =>
  match m with
  | Done a => k a
  | Panic msg => Panic msg
  end.

(** [s[i]] on a slice. *)
Definition index {A} (s : list A) (i : nat) : exec A :=
  match s !! i with
  | Some a => Done a
  | None => Panic "runtime error: index out of range"
  end.

(* ===================================================================== *)
(** * unicode/utf8 and unicode *)
(* ===================================================================== *)

Module utf8.

Definition RuneError : Z := 0xFFFD.
Definition RuneSelf : Z := 0x80.
Definition locb : Z := 0x80.
Definition hicb : Z := 0xBF.
Definition maskx : Z := 0x3F.
Definition mask2 : Z := 0x1F.
Definition mask3 : Z := 0x0F.
Definition mask4 : Z := 0x07.

(** What the first byte of an encoding announces: an ASCII byte, an invalid
    first byte, or the lead of a sequence of [size] bytes whose second byte
    must lie in [lo, hi]. *)
Inductive firstInfo : Type :=
| AS
| XX
| Lead (size : nat) (lo hi : Z).

Definition first (s0 : Z) : firstInfo :=
  if s0 <? 0x80 then AS
  else if s0 <? 0xC2 then XX
  else if s0 <? 0xE0 then Lead 2 locb hicb
  else if s0 =? 0xE0 then Lead 3 0xA0 hicb
  else if s0 <? 0xED then Lead 3 locb hicb
  else if s0 =? 0xED then Lead 3 locb 0x9F
  else if s0 <? 0xF0 then Lead 3 locb hicb
  else if s0 =? 0xF0 then Lead 4 0x90 hicb
  else if s0 <? 0xF4 then Lead 4 locb hicb
  else if s0 =? 0xF4 then Lead 4 locb 0x8F
  else XX.

Definition byteAt (p : list ascii) (i : nat) : Z :=
  byteVal (nth i p zero).

(** [utf8.DecodeRuneInString]: the first rune of [p] and its width in
    bytes; an invalid encoding is [(RuneError, 1)], the empty string
    [(RuneError, 0)]. *)
Definition DecodeRune (p : list ascii) : Z * nat :=
  match p with
  | [] => (RuneError, 0%nat)
  | a0 :: _ =>
    let s0 := byteVal a0 in
    match first s0 with
    | AS => (s0, 1%nat)
    | XX => (RuneError, 1%nat)
    | Lead sz lo hi =>
      if (length p <? sz)%nat then (RuneError, 1%nat) else
      let s1 := byteAt p 1 in
      if (s1 <? lo) || (hi <? s1) then (RuneError, 1%nat) else
      if (sz <=? 2)%nat then
        (Z.lor (Z.shiftl (Z.land s0 mask2) 6) (Z.land s1 maskx), 2%nat)
      else
      let s2 := byteAt p 2 in
      if (s2 <? locb) || (hicb <? s2) then (RuneError, 1%nat) else
      if (sz <=? 3)%nat then
        (Z.lor (Z.lor (Z.shiftl (Z.land s0 mask3) 12)
                      (Z.shiftl (Z.land s1 maskx) 6))
               (Z.land s2 maskx), 3%nat)
      else
      let s3 := byteAt p 3 in
      if (s3 <? locb) || (hicb <? s3) then (RuneError, 1%nat) else
        (Z.lor (Z.lor (Z.lor (Z.shiftl (Z.land s0 mask4) 18)
                             (Z.shiftl (Z.land s1 maskx) 12))
                      (Z.shiftl (Z.land s2 maskx) 6))
               (Z.land s3 maskx), 4%nat)
    end
  end.

(** The runes of a string in order, each with the bytes that encode it:
    what [for _, r := range s] walks through. *)
Fixpoint runesFuel (fuel : nat) (p : list ascii) : list (Z * list ascii) :=
  match fuel, p with
  | _, [] => []
  | O, _ :: _ => []
  | S fuel', _ :: _ =>
    let '(r, w) := DecodeRune p in
    (r, take w p) :: runesFuel fuel' (drop w p)
  end.

Definition runes (p : list ascii) : list (Z * list ascii) :=
  runesFuel (length p) p.

End utf8.

Module unicode.

Definition MaxLatin1 : Z := 0xFF.

(** [unicode.IsSpace]: the Unicode White_Space property. *)
Definition IsSpace (r : Z) : bool :=
  if r <=? MaxLatin1 then
    inRange 0x09 0x0D r || (r =? 0x20) || (r =? 0x85) || (r =? 0xA0)
  else
    (r =? 0x1680) || inRange 0x2000 0x200A r || inRange 0x2028 0x2029 r
    || (r =? 0x202F) || (r =? 0x205F) || (r =? 0x3000).

End unicode.

(* ===================================================================== *)
(** * strings *)
(* ===================================================================== *)

Module strings.

Definition isSpaceRune (c : Z * list ascii) : bool := unicode.IsSpace (fst c).

Fixpoint dropSpaces (rs : list (Z * list ascii)) : list (Z * list ascii) :=
  match rs with
  | [] => []
  | c :: rs' => if isSpaceRune c then dropSpaces rs' else rs
  end.

Definition joinRunes (rs : list (Z * list ascii)) : list ascii :=
  concat (map snd rs).

(** [strings.TrimSpace]: all leading and trailing white space removed, as
    defined by Unicode. *)
Definition trimSpaceBytes (p : list ascii) : list ascii :=
  joinRunes (rev (dropSpaces (rev (dropSpaces (utf8.runes p))))).

Definition TrimSpace (s : string) : string := ofBytes (trimSpaceBytes (bytes s)).

(** [strings.Fields]: the maximal runs of non-space runes.  [cur] is the
    field being scanned, if one is open. *)
Fixpoint fieldsGo (cur : option (list ascii)) (rs : list (Z * list ascii))
  : list (list ascii) :=
  match rs with
  | [] => match cur with Some w => [w] | None => [] end
  | c :: rs' =>
    if isSpaceRune c then
      match cur with
      | Some w => w :: fieldsGo None rs'
      | None => fieldsGo None rs'
      end
    else fieldsGo (Some (default [] cur ++ snd c)) rs'
  end.

Definition Fields (s : string) : list string :=
  map ofBytes (fieldsGo None (utf8.runes (bytes s))).

Fixpoint hasPrefixBytes (p pre : list ascii) : bool :=
  match pre, p with
  | [], _ => true
  | _ :: _, [] => false
  | b :: pre', a :: p' => bool_decide (a = b) && hasPrefixBytes p' pre'
  end.

Fixpoint containsBytes (p sub : list ascii) : bool :=
  hasPrefixBytes p sub ||
  match p with
  | [] => false
  | _ :: p' => containsBytes p' sub
  end.

Definition HasPrefix (s pre : string) : bool := hasPrefixBytes (bytes s) (bytes pre).

(** [strings.Contains]: [substr] occurs within [s]. *)
Definition Contains (s substr : string) : bool :=
  containsBytes (bytes s) (bytes substr).

Definition HasSuffix (s suffix : string) : bool :=
  hasPrefixBytes (rev (bytes s)) (rev (bytes suffix)).

(** [strings.TrimSuffix]: [s] without the trailing [suffix], or [s] itself
    when it does not end with [suffix]. *)
Definition TrimSuffix (s suffix : string) : string :=
  if HasSuffix s suffix
  then ofBytes (take (length (bytes s) - length (bytes suffix))%nat (bytes s))
  else s.

(** [strings.Count]: the number of non-overlapping instances of [substr]
    in [s]; for an empty [substr], one more than the number of runes of
    [s]. [skip] counts the bytes of an instance just found that are still
    to be passed over. *)
Fixpoint countGo (skip : nat) (sub p : list ascii) : Z :=
  match p with
  | [] => 0
  | _ :: p' =>
    match skip with
    | S k => countGo k sub p'
    | O =>
      if hasPrefixBytes p sub
      then 1 + countGo (length sub - 1) sub p'
      else countGo 0 sub p'
    end
  end.

Definition Count (s substr : string) : Z :=
  if bool_decide (substr = "") then Z.of_nat (length (utf8.runes (bytes s))) + 1
  else countGo 0 (bytes substr) (bytes s).

End strings.

(* ===================================================================== *)
(** * Errors and the standard logger *)
(* ===================================================================== *)

(** Values of the [error] interface that the parser can see, and the
    operands of a formatting call.  An [Errorf] value keeps its format string
    and operands instead of the rendered text. *)
Inductive error : Type :=
| ErrSyntax
| ErrRange
| NumError (Func Num : string) (Err : error)
| Errorf (format : string) (operands : list fmtArg)
with fmtArg : Type :=
| ArgInt (n : Z)
| ArgStr (s : string)
| ArgErr (e : error).

(** One call on the standard logger. *)
Inductive logEntry : Type :=
| Printf (format : string) (operands : list fmtArg)
| Println (msg : string).

(* ===================================================================== *)
(** * strconv *)
(* ===================================================================== *)

Module strconv.

Definition syntaxError (fn str : string) : error := NumError fn str ErrSyntax.
Definition rangeError (fn str : string) : error := NumError fn str ErrRange.

Definition maxUint64 : Z := 2 ^ 64 - 1.

(** The digit loop of [ParseUint] for base 10. A byte that is not a decimal
    digit is a syntax error (a letter is a digit of value 10 or more, which
    base 10 refuses; an underscore is accepted in base 0 only). *)
Fixpoint parseUintLoop (s0 : string) (cutoff maxVal : Z) (p : list ascii) (n : Z)
  : Z * option error :=
  match p with
  | [] => (n, None)
  | c :: p' =>
    let cv := byteVal c in
    if negb (inRange 48 57 cv) then (0, Some (syntaxError "ParseUint" s0)) else
    let d := cv - 48 in
    if cutoff <=? n then (maxVal, Some (rangeError "ParseUint" s0)) else
    let n10 := uint64 (n * 10) in
    let n1 := uint64 (n10 + d) in
    if (n1 <? n10) || (maxVal <? n1) then (maxVal, Some (rangeError "ParseUint" s0))
    else parseUintLoop s0 cutoff maxVal p' n1
  end.

(** [strconv.ParseUint(s, 10, 0)]. *)
Definition ParseUint10 (s : string) : Z * option error :=
  if bool_decide (s = "") then (0, Some (syntaxError "ParseUint" s)) else
  let cutoff := maxUint64 / 10 + 1 in
  let maxVal := uint64 (Z.shiftl 1 intSize - 1) in
  parseUintLoop s cutoff maxVal (bytes s) 0.

(** [strconv.ParseInt(s, 10, 0)]. *)
Definition ParseInt10 (s0 : string) : Z * option error :=
  match bytes s0 with
  | [] => (0, Some (syntaxError "ParseInt" s0))
  | c :: rest =>
    let '(neg, s) :=
      if bool_decide (c = "+"%char) then (false, ofBytes rest)
      else if bool_decide (c = "-"%char) then (true, ofBytes rest)
      else (false, s0) in
    let '(un, err) := ParseUint10 s in
    match err with
    | Some (NumError _ _ ErrSyntax) => (0, Some (NumError "ParseInt" s0 ErrSyntax))
    | _ =>
      let cutoff := uint64 (Z.shiftl 1 (intSize - 1)) in
      if negb neg && (cutoff <=? un) then
        (int64 (cutoff - 1), Some (rangeError "ParseInt" s0))
      else if neg && (cutoff <? un) then
        (int64 (- int64 cutoff), Some (rangeError "ParseInt" s0))
      else
        let n := int64 un in
        (if neg then int64 (- n) else n, None)
    end
  end.

(** The fast path of [Atoi]: the digit loop on a string short enough for
    the sum not to overflow. *)
Fixpoint atoiLoop (p : list ascii) (n : Z) : option Z :=
  match p with
  | [] => Some n
  | c :: p' =>
    let ch := wrapUnsigned 8 (byteVal c - 48) in
    if 9 <? ch then None else atoiLoop p' (n * 10 + ch)
  end.

(** [strconv.Atoi]. *)
Definition Atoi (s0 : string) : Z * option error :=
  let sLen := Z.of_nat (length (bytes s0)) in
  if (0 <? sLen) && (sLen <? 19) then
    match bytes s0 with
    | [] => (0, Some (syntaxError "Atoi" s0))
    | c :: rest =>
      let signed := bool_decide (c = "-"%char) || bool_decide (c = "+"%char) in
      let p := if signed then rest else c :: rest in
      if signed && (length p <? 1)%nat then (0, Some (syntaxError "Atoi" s0)) else
      match atoiLoop p 0 with
      | None => (0, Some (syntaxError "Atoi" s0))
      | Some n => (if bool_decide (c = "-"%char) then - n else n, None)
      end
    end
  else
    let '(i64, err) := ParseInt10 s0 in
    match err with
    | Some (NumError _ num e) => (i64, Some (NumError "Atoi" num e))
    | _ => (i64, err)
    end.

(** The byte of a decimal digit. *)
Definition digitByte (d : Z) : ascii := ascii_of_N (Z.to_N (48 + d)).

(** [smallsString]: the two digits of the numbers below 100. *)
Definition smallsHi (k : Z) : ascii := digitByte (k / 10).
Definition smallsLo (k : Z) : ascii := digitByte (k mod 10).

(** The base-10 loop of [formatBits]: two digits at a time into the buffer
    [a], from its end. A 64-bit number needs the loop body nine times at
    most. *)
Fixpoint formatBitsLoop (fuel : nat) (us : Z) (a : list ascii) : list ascii :=
  if 100 <=? us then
    match fuel with
    | O => a
    | S fuel' =>
      let k := us mod 100 in
      formatBitsLoop fuel' (us / 100) (smallsHi k :: smallsLo k :: a)
    end
  else
    let a := smallsLo us :: a in
    if 10 <=? us then smallsHi us :: a else a.

Definition formatBits (u : Z) (neg : bool) : string :=
  let u := if neg then uint64 (- u) else u in
  let a := formatBitsLoop 10 u [] in
  ofBytes (if neg then "-"%char :: a else a).

(** [strconv.FormatInt(i, 10)]. *)
Definition FormatInt10 (i : Z) : string :=
  if (0 <=? i) && (i <? 100) then
    (if i <? 10 then ofBytes [digitByte i] else ofBytes [smallsHi i; smallsLo i])
  else formatBits (uint64 i) (i <? 0).

(** [strconv.Itoa]. *)
Definition Itoa (i : Z) : string := FormatInt10 (int64 i).

End strconv.

(* ===================================================================== *)
(** * regexp *)
(* ===================================================================== *)

Module regexp.

(** The Perl character classes of RE2: [\d] is [0-9] and [\s] is
    [\t\n\f\r ], both ASCII only. *)
Inductive perlClass : Type := ClassDigit | ClassSpace.

Definition classHas (k : perlClass) (c : ascii) : bool :=
  let v := byteVal c in
  match k with
  | ClassDigit => inRange 48 57 v
  | ClassSpace => (v =? 9) || (v =? 10) || (v =? 12) || (v =? 13) || (v =? 32)
  end.

(** Abstract syntax of the patterns used by the parser. *)
Inductive Regexp : Type :=
| OpNoMatch
| OpEmptyMatch
| OpBeginText
| OpCharClass (k : perlClass)
| OpConcat (r1 r2 : Regexp)
| OpAlternate (r1 r2 : Regexp)
| OpStar (r : Regexp)
| OpPlus (r : Regexp).

(** [bot] tells whether the position is the beginning of the text. *)
Fixpoint nullable (bot : bool) (r : Regexp) : bool :=
  match r with
  | OpNoMatch => false
  | OpEmptyMatch => true
  | OpBeginText => bot
  | OpCharClass _ => false
  | OpConcat r1 r2 => nullable bot r1 && nullable bot r2
  | OpAlternate r1 r2 => nullable bot r1 || nullable bot r2
  | OpStar _ => true
  | OpPlus r1 => nullable bot r1
  end.

(** The residual of [r] after reading [c]. Both classes are ASCII, so a
    byte of a multi-byte rune is in none of them, as the rune is not. *)
Fixpoint deriv (bot : bool) (c : ascii) (r : Regexp) : Regexp :=
  match r with
  | OpNoMatch | OpEmptyMatch | OpBeginText => OpNoMatch
  | OpCharClass k => if classHas k c then OpEmptyMatch else OpNoMatch
  | OpConcat r1 r2 =>
    if nullable bot r1
    then OpAlternate (OpConcat (deriv bot c r1) r2) (deriv bot c r2)
    else OpConcat (deriv bot c r1) r2
  | OpAlternate r1 r2 => OpAlternate (deriv bot c r1) (deriv bot c r2)
  | OpStar r1 => OpConcat (deriv bot c r1) (OpStar r1)
  | OpPlus r1 => OpConcat (deriv bot c r1) (OpStar r1)
  end.

(** Some prefix of [p] matches [r]. *)
Fixpoint matchHere (bot : bool) (r : Regexp) (p : list ascii) : bool :=
  nullable bot r ||
  match p with
  | [] => false
  | c :: p' => matchHere false (deriv bot c r) p'
  end.

(** Some substring of [p] matches [r]. *)
Fixpoint matchFrom (bot : bool) (r : Regexp) (p : list ascii) : bool :=
  matchHere bot r p ||
  match p with
  | [] => false
  | _ :: p' => matchFrom false r p'
  end.

(** [Regexp.MatchString]: the pattern matches somewhere in [s]. *)
Definition MatchString (r : Regexp) (s : string) : bool :=
  matchFrom true r (bytes s).

End regexp.

(* ===================================================================== *)
(** * package parser *)
(* ===================================================================== *)

Module BatteryStatus.
Record t : Type := mk {
  ID : Z;
  Volt : Z;
  Curr : Z;
  Temp : Z;
  BaseState : Z;
  VoltState : string;
  CurrState : string;
  TempState : string;
  SOC : Z;
  Coulomb : Z;
  BAL : string
}.
End BatteryStatus.

Module PowerStatus.
Record t : Type := mk {
  ID : Z;
  Volt : Z;
  Curr : Z;
  Temp : Z;
  BaseState : Z;
  VoltState : string;
  CurrState : string;
  TempState : string;
  Coulomb : Z;
  BVState : string;
  BTState : string;
  MosTemp : string;
  MTState : string
}.
End PowerStatus.

Definition baseStateMap : gmap string Z :=
  <["Charge" := 0]> (<["Dischg" := 1]> (<["Idle" := 2]> (<["Balance" := 3]>
    (<["N/A" := -1]> ∅)))).

Definition parseSOC (s : string) : Z * option error :=
  let s := strings.TrimSuffix s "%" in
  let '(n, err) := strconv.Atoi s in
  match err with
  | Some e => (0, Some (Errorf "failed to parse SOC '%s': %w" [ArgStr s; ArgErr e]))
  | None => (int8 n, None)
  end.

Definition parseCoulomb (s1 s2 : string) : Z * option error :=
  let s := strings.TrimSpace s1 in
  let '(n, err) := strconv.Atoi s in
  match err with
  | Some e => (0, Some (Errorf "failed to parse Coulomb '%s': %w" [ArgStr s; ArgErr e]))
  | None => (n, None)
  end.

Definition parseBaseState (s : string) : Z :=
  match baseStateMap !! s with
  | Some val => val
  | None => -1
  end.

Definition parseInt (s fieldName : string) : Z * option error :=
  let '(n, err) := strconv.Atoi (strings.TrimSpace s) in
  match err with
  | Some e =>
    (0, Some (Errorf "failed to parse %s '%s': %w" [ArgStr fieldName; ArgStr s; ArgErr e]))
  | None => (n, None)
  end.

(** The state a parse loop threads through its iterations: the [results]
    slice and what has been written to the standard logger. *)
Record loopState (A : Type) : Type := mkState {
  results : list A;
  logged : list logEntry
}.
Arguments mkState {A} results logged.
Arguments results {A} _.
Arguments logged {A} _.

Definition logPrintf {A} (st : loopState A) (format : string) (ops : list fmtArg)
  : loopState A :=
  mkState (results st) (logged st ++ [Printf format ops]).

Definition logPrintln {A} (st : loopState A) (msg : string) : loopState A :=
  mkState (results st) (logged st ++ [Println msg]).

Definition appendResult {A} (st : loopState A) (a : A) : loopState A :=
  mkState (results st ++ [a]) (logged st).

(** [for lineIdx, line := range lines { body }]; a [continue] ends the
    body with the state it has reached. *)
Fixpoint forRange {St : Type} (body : nat -> string -> St -> exec St)
    (lineIdx : nat) (lines : list string) (st : St) : exec St :=
  match lines with
  | [] => Done st
  | line :: rest =>
    st' ← body lineIdx line st;
    forRange body (S lineIdx) rest st'
  end.

Definition lineNo (lineIdx : nat) : fmtArg := ArgInt (Z.of_nat lineIdx + 1).

(** [^\s*\d+\s+\d+]: a line that starts with at least two numbers. *)
Definition dataRegexBAT : regexp.Regexp :=
  regexp.OpConcat regexp.OpBeginText
    (regexp.OpConcat (regexp.OpStar (regexp.OpCharClass regexp.ClassSpace))
      (regexp.OpConcat (regexp.OpPlus (regexp.OpCharClass regexp.ClassDigit))
        (regexp.OpConcat (regexp.OpPlus (regexp.OpCharClass regexp.ClassSpace))
          (regexp.OpPlus (regexp.OpCharClass regexp.ClassDigit))))).

(** [^\s*\d+\s+]: a line that starts with a number. *)
Definition dataRegexPWR : regexp.Regexp :=
  regexp.OpConcat regexp.OpBeginText
    (regexp.OpConcat (regexp.OpStar (regexp.OpCharClass regexp.ClassSpace))
      (regexp.OpConcat (regexp.OpPlus (regexp.OpCharClass regexp.ClassDigit))
        (regexp.OpPlus (regexp.OpCharClass regexp.ClassSpace)))).

(** The lines that the loop of [ParseBAT] does not skip as headers or
    noise: the complement of its first [continue] condition. *)
Definition dataLineBAT (line : string) : bool :=
  let line := strings.TrimSpace line in
  negb (negb (regexp.MatchString dataRegexBAT line) || bool_decide (line = "")).

(** The same for the loop of [ParsePWR]. *)
Definition dataLinePWR (line : string) : bool :=
  let line := strings.TrimSpace line in
  negb (negb (regexp.MatchString dataRegexPWR line)
        || strings.Contains line "Absent" || bool_decide (line = "")).

(** The body of the loop of [ParseBAT]. *)
Definition batLine (lineIdx : nat) (line : string)
    (st : loopState BatteryStatus.t) : exec (loopState BatteryStatus.t) :=
  let line := strings.TrimSpace line in
  if negb (regexp.MatchString dataRegexBAT line) || bool_decide (line = "")
  then Done st
  else
  let fields := strings.Fields line in
  if (length fields <? 12)%nat then
    Done (logPrintf st
      "Skipping line %d (BAT) due to insufficient fields (got %d, expected at least 12): '%s'"
      [lineNo lineIdx; ArgInt (Z.of_nat (length fields)); ArgStr line])
  else
  f0 ← index fields 0;
  let '(id, err) := parseInt f0 "BAT ID" in
  match err with
  | Some e =>
    Done (logPrintf st "Error parsing BAT ID on line %d: %v. Line: '%s'"
      [lineNo lineIdx; ArgErr e; ArgStr line])
  | None =>
  f1 ← index fields 1;
  let '(volt, err) := parseInt f1 "BAT Volt" in
  match err with
  | Some e =>
    Done (logPrintf st "Error parsing BAT Volt for ID %d on line %d: %v. Line: '%s'"
      [ArgInt id; lineNo lineIdx; ArgErr e; ArgStr line])
  | None =>
  f2 ← index fields 2;
  let '(curr, err) := parseInt f2 "BAT Curr" in
  match err with
  | Some e =>
    Done (logPrintf st "Error parsing BAT Curr for ID %d on line %d: %v. Line: '%s'"
      [ArgInt id; lineNo lineIdx; ArgErr e; ArgStr line])
  | None =>
  f3 ← index fields 3;
  let '(temp, err) := parseInt f3 "BAT Temp" in
  match err with
  | Some e =>
    Done (logPrintf st "Error parsing BAT Temp for ID %d on line %d: %v. Line: '%s'"
      [ArgInt id; lineNo lineIdx; ArgErr e; ArgStr line])
  | None =>
  f4 ← index fields 4;
  let baseState := parseBaseState f4 in
  voltState ← index fields 5;
  currState ← index fields 6;
  tempState ← index fields 7;
  f8 ← index fields 8;
  let '(soc, err) := parseSOC f8 in
  let '(soc, st) :=
    match err with
    | Some e =>
      (-1, logPrintf st "Warning parsing SOC for BAT ID %d on line %d: %v. Line: '%s'"
             [ArgInt id; lineNo lineIdx; ArgErr e; ArgStr line])
    | None => (soc, st)
    end in
  f9 ← index fields 9;
  f10 ← index fields 10;
  let '(coulomb, err) := parseCoulomb f9 f10 in
  let '(coulomb, st) :=
    match err with
    | Some e =>
      (-1, logPrintf st "Warning parsing Coulomb for BAT ID %d on line %d: %v. Line: '%s'"
             [ArgInt id; lineNo lineIdx; ArgErr e])
    | None => (coulomb, st)
    end in
  bal ← index fields 11;
  Done (appendResult st
    (BatteryStatus.mk id volt curr temp baseState voltState currState tempState
       soc coulomb bal))
  end end end end.

(** [ParseBAT]: the records, the returned error and what was logged. *)
Definition ParseBAT (lines : list string)
  : exec (list BatteryStatus.t * option error * list logEntry) :=
  st ← forRange batLine 0 lines (mkState [] []);
  let st :=
    if (length (results st) =? 0)%nat && (0 <? length lines)%nat then
      let foundDataLikeLine :=
        existsb (fun line => regexp.MatchString dataRegexBAT (strings.TrimSpace line))
                lines in
      if foundDataLikeLine then
        logPrintln st
          "Warning: No BAT data records were successfully parsed, though some lines appeared to be data lines. Check format and parsing logic."
      else st
    else st in
  Done (results st, None, logged st).

(** The body of the loop of [ParsePWR]. *)
Definition pwrLine (lineIdx : nat) (line : string)
    (st : loopState PowerStatus.t) : exec (loopState PowerStatus.t) :=
  let line := strings.TrimSpace line in
  if negb (regexp.MatchString dataRegexPWR line)
     || strings.Contains line "Absent" || bool_decide (line = "")
  then Done st
  else
  let fields := strings.Fields line in
  if (length fields <? 19)%nat then
    Done (logPrintf st
      "Skipping line %d (PWR) due to insufficient fields (got %d, expected at least 19): '%s'"
      [lineNo lineIdx; ArgInt (Z.of_nat (length fields)); ArgStr line])
  else
  f0 ← index fields 0;
  let '(id, err) := parseInt f0 "PWR ID" in
  match err with
  | Some e =>
    Done (logPrintf st "Error parsing PWR ID on line %d: %v. Line: '%s'"
      [lineNo lineIdx; ArgErr e; ArgStr line])
  | None =>
  f1 ← index fields 1;
  let '(volt, err) := parseInt f1 "PWR Volt" in
  match err with
  | Some e =>
    Done (logPrintf st "Error parsing PWR Volt for ID %d on line %d: %v. Line: '%s'"
      [ArgInt id; lineNo lineIdx; ArgErr e; ArgStr line])
  | None =>
  f2 ← index fields 2;
  let '(curr, err) := parseInt f2 "PWR Curr" in
  match err with
  | Some e =>
    Done (logPrintf st "Error parsing PWR Curr for ID %d on line %d: %v. Line: '%s'"
      [ArgInt id; lineNo lineIdx; ArgErr e; ArgStr line])
  | None =>
  f3 ← index fields 3;
  let '(temp, err) := parseInt f3 "PWR Temp (Board)" in
  match err with
  | Some e =>
    Done (logPrintf st "Error parsing PWR Temp for ID %d on line %d: %v. Line: '%s'"
      [ArgInt id; lineNo lineIdx; ArgErr e; ArgStr line])
  | None =>
  f8 ← index fields 8;
  let baseState := parseBaseState f8 in
  voltState ← index fields 9;
  currState ← index fields 10;
  tempState ← index fields 11;
  f12 ← index fields 12;
  let '(socVal, err) := parseSOC f12 in
  let '(coulomb, st) :=
    match err with
    | Some e =>
      (-1, logPrintf st "Warning parsing SOC/Coulomb for PWR ID %d on line %d: %v. Line: '%s'"
             [ArgInt id; lineNo lineIdx; ArgErr e])
    | None => (socVal, st)
    end in
  bvState ← index fields 15;
  btState ← index fields 16;
  mosTemp ← index fields 17;
  mtState ← index fields 18;
  Done (appendResult st
    (PowerStatus.mk id volt curr temp baseState voltState currState tempState
       coulomb bvState btState mosTemp mtState))
  end end end end.

(** [ParsePWR]: the records, the returned error and what was logged. *)
Definition ParsePWR (lines : list string)
  : exec (list PowerStatus.t * option error * list logEntry) :=
  st ← forRange pwrLine 0 lines (mkState [] []);
  let st :=
    if (length (results st) =? 0)%nat && (0 <? length lines)%nat then
      let foundDataLikeLine :=
        existsb (fun line =>
                   regexp.MatchString dataRegexPWR (strings.TrimSpace line)
                   && negb (strings.Contains line "Absent"))
                lines in
      if foundDataLikeLine then
        logPrintln st
          "Warning: No PWR data records were successfully parsed, though some lines appeared to be data lines. Check format and parsing logic."
      else st
    else st in
  Done (results st, None, logged st).

(* ===================================================================== *)
(** * Vocabulary of the statements *)
(* ===================================================================== *)

(** A decoder returns a value and an error; it failed when the error is
    not [nil]. *)
Definition failed (r : Z * option error) : bool :=
  match r.2 with
  | Some _ => true
  | None => false
  end.

(** What a non-critical field holds after decoding: the decoded value, or
    the sentinel -1 when the decoder failed. *)
Definition orSentinel (r : Z * option error) : Z :=
  if failed r then -1 else r.1.

(** The diagnostics of the two loops, as they are logged. *)
Definition structuralSkipBAT (lineIdx : nat) (line : string) : logEntry :=
  Printf
    "Skipping line %d (BAT) due to insufficient fields (got %d, expected at least 12): '%s'"
    [lineNo lineIdx;
     ArgInt (Z.of_nat (length (strings.Fields (strings.TrimSpace line))));
     ArgStr (strings.TrimSpace line)].

Definition structuralSkipPWR (lineIdx : nat) (line : string) : logEntry :=
  Printf
    "Skipping line %d (PWR) due to insufficient fields (got %d, expected at least 19): '%s'"
    [lineNo lineIdx;
     ArgInt (Z.of_nat (length (strings.Fields (strings.TrimSpace line))));
     ArgStr (strings.TrimSpace line)].

Definition socWarningBAT (id : Z) (lineIdx : nat) (line : string)
    (r : Z * option error) : list logEntry :=
  match r.2 with
  | Some e =>
    [Printf "Warning parsing SOC for BAT ID %d on line %d: %v. Line: '%s'"
       [ArgInt id; lineNo lineIdx; ArgErr e; ArgStr (strings.TrimSpace line)]]
  | None => []
  end.

Definition coulombWarningBAT (id : Z) (lineIdx : nat) (r : Z * option error)
  : list logEntry :=
  match r.2 with
  | Some e =>
    [Printf "Warning parsing Coulomb for BAT ID %d on line %d: %v. Line: '%s'"
       [ArgInt id; lineNo lineIdx; ArgErr e]]
  | None => []
  end.

Definition socWarningPWR (id : Z) (lineIdx : nat) (r : Z * option error)
  : list logEntry :=
  match r.2 with
  | Some e =>
    [Printf "Warning parsing SOC/Coulomb for PWR ID %d on line %d: %v. Line: '%s'"
       [ArgInt id; lineNo lineIdx; ArgErr e]]
  | None => []
  end.

Definition emptyWarningBAT : logEntry :=
  Println
    "Warning: No BAT data records were successfully parsed, though some lines appeared to be data lines. Check format and parsing logic.".

Definition emptyWarningPWR : logEntry :=
  Println
    "Warning: No PWR data records were successfully parsed, though some lines appeared to be data lines. Check format and parsing logic.".

(** The entries that a loop body writes are all calls of [Printf]. *)
Definition isPrintf (e : logEntry) : bool :=
  match e with
  | Printf _ _ => true
  | Println _ => false
  end.

(** A byte that can belong to the encoding of a white-space rune: an ASCII
    white-space byte or a byte of a multi-byte encoding. *)
Definition spaceByte (c : ascii) : bool :=
  let v := byteVal c in
  inRange 9 13 v || (v =? 32) || (128 <=? v).

(** Decimal numerals: an optional sign and one digit or more, with the
    number they denote. *)
Fixpoint digitsValue (p : list ascii) (acc : Z) : option Z :=
  match p with
  | [] => Some acc
  | c :: p' =>
    if inRange 48 57 (byteVal c)
    then digitsValue p' (acc * 10 + (byteVal c - 48))
    else None
  end.

Definition decimalValue (s : string) : option Z :=
  match bytes s with
  | [] => None
  | c :: rest =>
    if bool_decide (c = "+"%char) then
      match rest with [] => None | _ :: _ => digitsValue rest 0 end
    else if bool_decide (c = "-"%char) then
      match rest with [] => None | _ :: _ => Z.opp <$> digitsValue rest 0 end
    else digitsValue (c :: rest) 0
  end.

(** What one iteration can do to the state: nothing, one more log entry,
    or one more record with the warnings of its degraded fields. *)
Inductive lineEffect {A} (st : loopState A) : loopState A -> Prop :=
| effectNone : lineEffect st st
| effectLog format ops :
    lineEffect st (mkState (results st) (logged st ++ [Printf format ops]))
| effectRecord a warns :
    Forall (fun e => isPrintf e = true) warns ->
    lineEffect st (mkState (results st ++ [a]) (logged st ++ warns)).

(** The words that a pattern matches when it is read at the beginning of
    the text ([bot]) or further on. In a concatenation the second part is at
    the beginning only when the first part matched the empty word there. *)
Definition isEmpty {A} (w : list A) : bool :=
  match w with
  | [] => true
  | _ :: _ => false
  end.

Inductive accepts : bool -> regexp.Regexp -> list ascii -> Prop :=
| acceptsEmptyMatch bot : accepts bot regexp.OpEmptyMatch []
| acceptsBeginText : accepts true regexp.OpBeginText []
| acceptsCharClass bot k c :
    regexp.classHas k c = true -> accepts bot (regexp.OpCharClass k) [c]
| acceptsConcat bot r1 r2 w1 w2 :
    accepts bot r1 w1 -> accepts (bot && isEmpty w1) r2 w2 ->
    accepts bot (regexp.OpConcat r1 r2) (w1 ++ w2)
| acceptsAlternateL bot r1 r2 w :
    accepts bot r1 w -> accepts bot (regexp.OpAlternate r1 r2) w
| acceptsAlternateR bot r1 r2 w :
    accepts bot r2 w -> accepts bot (regexp.OpAlternate r1 r2) w
| acceptsStarNil bot r : accepts bot (regexp.OpStar r) []
| acceptsStarStep bot r c w1 w2 :
    accepts bot r (c :: w1) -> accepts false (regexp.OpStar r) w2 ->
    accepts bot (regexp.OpStar r) (c :: w1 ++ w2)
| acceptsPlus bot r w1 w2 :
    accepts bot r w1 -> accepts (bot && isEmpty w1) (regexp.OpStar r) w2 ->
    accepts bot (regexp.OpPlus r) (w1 ++ w2).


(* ===================================================================== *)
(** * package fetcher *)
(* ===================================================================== *)

(** What the device answers to one GET: the client fails, or there is a
    response with a status code and a body; reading the body to its end
    meets [io.EOF] ([None]) or another error. *)
Inductive httpResult : Type :=
| GetFailed (err : error)
| Response (StatusCode : Z) (body : string) (readErr : option error).

Definition appendLine (lines : list string) (line : list ascii) : list string :=
  let trimmedLine := strings.TrimSpace (ofBytes line) in
  if bool_decide (trimmedLine <> "") then lines ++ [trimmedLine] else lines.

(** The read loop of [FetchConsoleOutput] over the bytes [p] that are left
    of the body; [cur] is what [ReadString] has read of the current line. A
    newline ends the line, delimiter included, with a nil error; the end of
    the body ends it with the error of the reader. *)
Fixpoint readLoop (readErr : option error) (p cur : list ascii) (lines : list string)
  : list string * option error :=
  match p with
  | [] =>
    let lines := appendLine lines cur in
    match readErr with
    | None => (lines, None)
    | Some err => (lines, Some (Errorf "error reading response body: %w" [ArgErr err]))
    end
  | c :: p' =>
    if bool_decide (c = "010"%char)
    then readLoop readErr p' [] (appendLine lines (cur ++ [c]))
    else readLoop readErr p' (cur ++ [c]) lines
  end.

Section Fetcher.
Variable Getenv : string -> string.
Variable httpGet : string -> httpResult.

(** The address that [FetchConsoleOutput] requests: [DEVICE_PORT] defaults
    to 80. *)
Definition requestURL (command : string) : string :=
  let ip := Getenv "DEVICE_IP" in
  let port := Getenv "DEVICE_PORT" in
  let port := if bool_decide (port = "") then "80" else port in
  "http://" +:+ ip +:+ ":" +:+ port +:+ "/req?code=" +:+ command.

(** [FetchConsoleOutput]. *)
Definition FetchConsoleOutput (command : string) : list string * option error :=
  let ip := Getenv "DEVICE_IP" in
  if bool_decide (ip = "") then
    ([], Some (Errorf "DEVICE_IP not set in environment" []))
  else
  let url := requestURL command in
  match httpGet url with
  | GetFailed err =>
    ([], Some (Errorf "failed to get data from %s: %w" [ArgStr url; ArgErr err]))
  | Response StatusCode body readErr =>
    if negb (StatusCode =? 200) then
      ([], Some (Errorf "received non-200 status code %d from %s"
                        [ArgInt StatusCode; ArgStr url]))
    else readLoop readErr (bytes body) [] []
  end.
End Fetcher.

(** The strings that the successive calls of [ReadString] return on a
    body: its lines, each with the newline that ends it, and what follows
    the last newline. *)
Fixpoint readStrings (p cur : list ascii) : list string :=
  match p with
  | [] => [ofBytes cur]
  | c :: p' =>
    if bool_decide (c = "010"%char)
    then ofBytes (cur ++ [c]) :: readStrings p' []
    else readStrings p' (cur ++ [c])
  end.

(** The lines that survive the read loop: trimmed, and not empty. *)
Definition keptLines (raw : list string) : list string :=
  List.filter (fun s => bool_decide (s <> "")) (map strings.TrimSpace raw).

(** The error of the read loop. *)
Definition readError (readErr : option error) : option error :=
  match readErr with
  | None => None
  | Some err => Some (Errorf "error reading response body: %w" [ArgErr err])
  end.

(** An environment in which [DEVICE_IP] is [ip] and [DEVICE_PORT] is [port]. *)
Definition envOf (ip port : string) (name : string) : string :=
  if bool_decide (name = "DEVICE_IP") then ip
  else if bool_decide (name = "DEVICE_PORT") then port else "".

(* ===================================================================== *)
(** * package metrics *)
(* ===================================================================== *)

(** [float64(n)] for an integer [n], and the division of [float64]:
    IEEE 754 binary64, rounding to nearest even. *)
Definition float64 (n : Z) : SpecFloat.spec_float :=
  SpecFloat.binary_normalize 53 1024 n 0 false.

Definition fdiv (x y : SpecFloat.spec_float) : SpecFloat.spec_float :=
  SpecFloat.SFdiv 53 1024 x y.

(** What the exporter acts on: the series of the gauge vectors, by the
    variable of the vector and the label values; the counters of
    [scrapeErrors], by error type; the standard logger; and the commands
    that [FetchConsoleOutput] has been called with. *)
Record world : Type := mkWorld {
  gauges : gmap (string * list string) SpecFloat.spec_float;
  scrapeErrors : gmap string Z;
  output : list logEntry;
  fetched : list string
}.

Definition emptyWorld : world := mkWorld ∅ ∅ [] [].

(** [vec.WithLabelValues(labels...).Set(v)]. *)
Definition setGauge (vec : string) (labels : list string) (v : SpecFloat.spec_float)
    (w : world) : world :=
  mkWorld (<[(vec, labels) := v]> (gauges w)) (scrapeErrors w) (output w) (fetched w).

Definition logTo (w : world) (entries : list logEntry) : world :=
  mkWorld (gauges w) (scrapeErrors w) (output w ++ entries) (fetched w).

(** The balance channels that [UpdateBatteryMetrics] reports as active. *)
Definition activeBalanceChannels (BAL : string) : Z :=
  if bool_decide (BAL = "Y") then 1
  else if bool_decide (BAL <> "") && bool_decide (BAL <> "N") then strings.Count BAL "1"
  else 0.

(** The number of [1] bytes of a text. *)
Definition onesOf (p : list ascii) : nat :=
  length (List.filter (fun a => bool_decide (a = "1"%char)) p).

(** The seven [Set] calls of [UpdateBatteryMetrics], on the series with the
    label values [labels]. *)
Definition setBatteryGauges (labels : list string) (status : BatteryStatus.t)
    (w : world) : world :=
  let w := setGauge "batteryVolt" labels (float64 (BatteryStatus.Volt status)) w in
  let w := setGauge "batteryCurr" labels (float64 (BatteryStatus.Curr status)) w in
  let w := setGauge "batteryTemp" labels
             (fdiv (float64 (BatteryStatus.Temp status)) (float64 1000)) w in
  let w := setGauge "batteryBaseState" labels
             (float64 (BatteryStatus.BaseState status)) w in
  let w := setGauge "batterySOC" labels (float64 (BatteryStatus.SOC status)) w in
  let w := setGauge "batteryCoulomb" labels (float64 (BatteryStatus.Coulomb status)) w in
  setGauge "batteryBalanceActiveCount" labels
    (float64 (activeBalanceChannels (BatteryStatus.BAL status))) w.

(** What a gauge vector of the batteries shows for a record; [None] for
    the other vectors. *)
Definition batteryValue (vec : string) (status : BatteryStatus.t)
  : option SpecFloat.spec_float :=
  if bool_decide (vec = "batteryVolt") then Some (float64 (BatteryStatus.Volt status))
  else if bool_decide (vec = "batteryCurr") then Some (float64 (BatteryStatus.Curr status))
  else if bool_decide (vec = "batteryTemp")
       then Some (fdiv (float64 (BatteryStatus.Temp status)) (float64 1000))
  else if bool_decide (vec = "batteryBaseState")
       then Some (float64 (BatteryStatus.BaseState status))
  else if bool_decide (vec = "batterySOC") then Some (float64 (BatteryStatus.SOC status))
  else if bool_decide (vec = "batteryCoulomb")
       then Some (float64 (BatteryStatus.Coulomb status))
  else if bool_decide (vec = "batteryBalanceActiveCount")
       then Some (float64 (activeBalanceChannels (BatteryStatus.BAL status)))
  else None.

Module metrics.

(** [UpdateBatteryMetrics] of [metrics.go]: one series per battery
    identity. *)
Definition UpdateBatteryMetrics (status : BatteryStatus.t) (w : world) : world :=
  let idStr := strconv.Itoa (BatteryStatus.ID status) in
  setBatteryGauges [idStr] status w.

(** [UpdateBatteryMetrics] of the exporter for several units: one series
    per unit and battery identity. *)
Definition UpdateUnitBatteryMetrics (unitLabel : string) (status : BatteryStatus.t)
    (w : world) : world :=
  let idStr := strconv.Itoa (BatteryStatus.ID status) in
  setBatteryGauges [unitLabel; idStr] status w.

(** [UpdatePowerMetrics]; [ParseFloat s] is [strconv.ParseFloat(s, 64)]. *)
Definition UpdatePowerMetrics (ParseFloat : string -> SpecFloat.spec_float * option error)
    (status : PowerStatus.t) (w : world) : world :=
  let idStr := strconv.Itoa (PowerStatus.ID status) in
  let w := setGauge "powerVolt" [idStr] (float64 (PowerStatus.Volt status)) w in
  let w := setGauge "powerCurr" [idStr] (float64 (PowerStatus.Curr status)) w in
  let w := setGauge "powerBoardTemp" [idStr]
             (fdiv (float64 (PowerStatus.Temp status)) (float64 1000)) w in
  let w := setGauge "powerBaseState" [idStr] (float64 (PowerStatus.BaseState status)) w in
  let w := setGauge "powerSOC" [idStr] (float64 (PowerStatus.Coulomb status)) w in
  let '(mosTempFloat, err) := ParseFloat (PowerStatus.MosTemp status) in
  match err with
  | None => setGauge "powerMosTemp" [idStr] (fdiv mosTempFloat (float64 10)) w
  | Some err =>
    logTo w [Printf "Could not parse MosTemp string '%s' to float for power_id %s: %v"
               [ArgStr (PowerStatus.MosTemp status); ArgStr idStr; ArgErr err]]
  end.

(** [RecordError]. *)
Definition RecordError (errorType : string) (w : world) : world :=
  mkWorld (gauges w)
          (<[errorType := default 0 (scrapeErrors w !! errorType) + 1]> (scrapeErrors w))
          (output w) (fetched w).

End metrics.

(** A world that has grown out of another: every series is still there,
    no counter has gone down, the log and the commands fetched have only
    been added to. *)
Definition extends (w w' : world) : Prop :=
  (forall key, is_Some (gauges w !! key) -> is_Some (gauges w' !! key))
  /\ (forall errorType,
        default 0 (scrapeErrors w !! errorType) <= default 0 (scrapeErrors w' !! errorType))
  /\ (exists entries, output w' = output w ++ entries)
  /\ (exists commands, fetched w' = fetched w ++ commands).

(* ===================================================================== *)
(** * package main *)
(* ===================================================================== *)

Definition newline : string := String "010" EmptyString.

Section Exporter.
(** The environment of the process, the answer of the device to the
    request of the n-th call of [FetchConsoleOutput], and
    [strconv.ParseFloat]. *)
Variable Getenv : string -> string.
Variable httpGet : nat -> string -> httpResult.
Variable ParseFloat : string -> SpecFloat.spec_float * option error.

(** A call of [fetcher.FetchConsoleOutput]. *)
Definition fetch (command : string) (w : world) : (list string * option error) * world :=
  (FetchConsoleOutput Getenv (httpGet (length (fetched w))) command,
   mkWorld (gauges w) (scrapeErrors w) (output w) (fetched w ++ [command])).

(** [processPWRData]. *)
Definition processPWRData (w : world) : exec (Z * world) :=
  let '((pwrLines, err), w) := fetch "pwr" w in
  match err with
  | Some err =>
    let w := logTo w [Printf "Error fetching PWR data: %v" [ArgErr err]] in
    Done (0, metrics.RecordError "pwr_fetch" w)
  | None =>
    r ← ParsePWR pwrLines;
    let '(pwrData, err, lg) := r in
    let w := logTo w lg in
    match err with
    | Some err =>
      let w := logTo w [Printf "Error parsing PWR data: %v" [ArgErr err]] in
      Done (0, metrics.RecordError "pwr_parse" w)
    | None =>
      if (length pwrData =? 0)%nat then
        Done (0, logTo w [Println "No PWR data parsed."])
      else
        let w := foldl (fun w status => metrics.UpdatePowerMetrics ParseFloat status w)
                       w pwrData in
        let w := logTo w [Printf ("Successfully processed %d PWR records." +:+ newline)
                            [ArgInt (Z.of_nat (length pwrData))]] in
        Done (int8 (Z.of_nat (length pwrData)), w)
    end
  end.

End Exporter.

(** The exporter for one unit. *)
Module exporter.
Section Exporter.
Variable Getenv : string -> string.
Variable httpGet : nat -> string -> httpResult.
Variable ParseFloat : string -> SpecFloat.spec_float * option error.

(** [processBATData]. *)
Definition processBATData (pwrUnitCount : Z) (w : world) : exec world :=
  let '((batLines, err), w) := fetch Getenv httpGet "bat" w in
  match err with
  | Some err =>
    let w := logTo w [Printf "Error fetching BAT data: %v" [ArgErr err]] in
    Done (metrics.RecordError "bat_fetch" w)
  | None =>
    r ← ParseBAT batLines;
    let '(batData, err, lg) := r in
    let w := logTo w lg in
    match err with
    | Some err =>
      let w := logTo w [Printf "Error parsing BAT data: %v" [ArgErr err]] in
      Done (metrics.RecordError "bat_parse" w)
    | None =>
      let w := if (length batData =? 0)%nat
               then logTo w [Println "No BAT data parsed."] else w in
      let w := foldl (fun w status => metrics.UpdateBatteryMetrics status w) w batData in
      Done (logTo w [Printf ("Successfully processed %d BAT records." +:+ newline)
                       [ArgInt (Z.of_nat (length batData))]])
    end
  end.

(** One turn of the loop of [main], after the tick. *)
Definition tick (w : world) : exec world :=
  let w := logTo w [Println "Fetching and processing device data..."] in
  r ← processPWRData Getenv httpGet ParseFloat w;
  let '(pwrUnitCount, w) := r in
  w ← processBATData pwrUnitCount w;
  Done (logTo w [Println "Data processing complete. Waiting for next tick."]).

End Exporter.
End exporter.

(** The exporter for several units. *)
Module unitsExporter.
Section Exporter.
Variable Getenv : string -> string.
Variable httpGet : nat -> string -> httpResult.
Variable ParseFloat : string -> SpecFloat.spec_float * option error.

(** The command and the metric label of a unit. *)
Definition unitCommand (unitNum : Z) : string * string :=
  if unitNum =? 1 then ("bat+1", "bat1")
  else
    let suffix := strconv.Itoa unitNum in
    ("bat+" +:+ suffix, "bat" +:+ suffix).

(** The body of the loop of [processBATData] over the units; [tally] is
    [totalRecordsProcessedOverall] and [unitsSuccessfullyProcessed]. *)
Definition batUnit (unitNum : Z) (tally : Z * Z) (w : world) : exec ((Z * Z) * world) :=
  let '(commandToFetch, unitMetricLabel) := unitCommand unitNum in
  let w := logTo w [Printf "Fetching BAT data for unit %s (command: %s)..."
                      [ArgStr unitMetricLabel; ArgStr commandToFetch]] in
  let '((batLines, err), w) := fetch Getenv httpGet commandToFetch w in
  match err with
  | Some err =>
    let w := logTo w [Printf "Error fetching BAT data for unit %s: %v"
                        [ArgStr unitMetricLabel; ArgErr err]] in
    Done (tally, metrics.RecordError ("bat_fetch_" +:+ unitMetricLabel) w)
  | None =>
    let w := logTo w [Printf "Parsing BAT data for unit %s..." [ArgStr unitMetricLabel]] in
    r ← ParseBAT batLines;
    let '(batDataForUnit, err, lg) := r in
    let w := logTo w lg in
    match err with
    | Some err =>
      let w := logTo w [Printf "Error parsing BAT data for unit %s: %v"
                          [ArgStr unitMetricLabel; ArgErr err]] in
      Done (tally, metrics.RecordError ("bat_parse_" +:+ unitMetricLabel) w)
    | None =>
      let n := Z.of_nat (length batDataForUnit) in
      let w := if n =? 0
               then logTo w [Printf "No BAT data parsed for unit %s." [ArgStr unitMetricLabel]]
               else w in
      let w := foldl (fun w status =>
                        metrics.UpdateUnitBatteryMetrics unitMetricLabel status w)
                     w batDataForUnit in
      let w := if 0 <? n
               then logTo w [Printf "Successfully processed %d BAT records for unit %s."
                               [ArgInt n; ArgStr unitMetricLabel]]
               else w in
      Done ((int64 (tally.1 + n), int64 (tally.2 + 1)), w)
    end
  end.

(** [for unitNum := int8(1); unitNum <= pwrUnitCount; unitNum++]: the
    counter is an [int8], its increment wraps around. [None]: the loop has
    not ended within [fuel] iterations. *)
Fixpoint batUnits (fuel : nat) (pwrUnitCount unitNum : Z) (tally : Z * Z) (w : world)
  : option (exec ((Z * Z) * world)) :=
  if unitNum <=? pwrUnitCount then
    match fuel with
    | O => None
    | S fuel' =>
      match batUnit unitNum tally w with
      | Done (tally', w') => batUnits fuel' pwrUnitCount (int8 (unitNum + 1)) tally' w'
      | Panic msg => Some (Panic msg)
      end
    end
  else Some (Done (tally, w)).

(** [processBATData] of the exporter for several units. *)
Definition processBATData (fuel : nat) (pwrUnitCount : Z) (w : world)
  : option (exec world) :=
  if pwrUnitCount <=? 0 then
    Some (Done (logTo w
      [Println "No power units specified for BAT data processing (pwrUnitCount <= 0)."]))
  else
    match batUnits fuel pwrUnitCount (int8 1) (0, 0) w with
    | None => None
    | Some (Panic msg) => Some (Panic msg)
    | Some (Done (tally, w)) =>
      let '(totalRecordsProcessedOverall, unitsSuccessfullyProcessed) := tally in
      if 0 <? unitsSuccessfullyProcessed then
        Some (Done (logTo w
          [Printf ("Finished processing BAT data for %d unit(s). Total records processed: %d."
                   +:+ newline)
             [ArgInt unitsSuccessfullyProcessed; ArgInt totalRecordsProcessedOverall]]))
      else if 0 <? pwrUnitCount then
        Some (Done (logTo w
          [Println "Attempted to process BAT data, but no units were successfully fetched or parsed."]))
      else Some (Done w)
    end.

(** One turn of the loop of [main], after the tick. *)
Definition tick (fuel : nat) (w : world) : option (exec world) :=
  let w := logTo w [Println "Fetching and processing device data..."] in
  match processPWRData Getenv httpGet ParseFloat w with
  | Panic msg => Some (Panic msg)
  | Done (pwrUnitCount, w) =>
    match processBATData fuel pwrUnitCount w with
    | Some (Done w) =>
      Some (Done (logTo w [Println "Data processing complete. Waiting for next tick."]))
    | r => r
    end
  end.

End Exporter.
End unitsExporter.


(* ===================================================================== *)
(** * Vocabulary of the batch properties *)
(* ===================================================================== *)

(** The records and the log of a batch parse. *)
Definition recordsOf {A} (r : exec (list A * option error * list logEntry)) : list A :=
  match r with
  | Done (recs, _, _) => recs
  | Panic _ => []
  end.

Definition loggedBy {A} (r : exec (list A * option error * list logEntry))
  : list logEntry :=
  match r with
  | Done (_, _, lg) => lg
  | Panic _ => []
  end.

(** The records that one iteration of a loop appends for a line, observed
    on the first iteration from the empty state. *)
Definition lineRecords {A} (body : nat -> string -> loopState A -> exec (loopState A))
    (line : string) : list A :=
  match body 0%nat line (mkState [] []) with
  | Done st => results st
  | Panic _ => []
  end.


(** A line is assembled into a record: it is a data line, it has enough
    fields, its critical fields decode, and the record holds the decoded
    fields, with the sentinel where a non-critical decoder failed. *)
Definition assemblesBAT (line : string) (r : BatteryStatus.t) : Prop :=
  dataLineBAT line = true
  /\ exists f0 f1 f2 f3 f4 f5 f6 f7 f8 f9 f10 f11 rest,
       strings.Fields line
       = f0 :: f1 :: f2 :: f3 :: f4 :: f5 :: f6 :: f7 :: f8 :: f9 :: f10 :: f11 :: rest
       /\ parseInt f0 "BAT ID" = (BatteryStatus.ID r, None)
       /\ parseInt f1 "BAT Volt" = (BatteryStatus.Volt r, None)
       /\ parseInt f2 "BAT Curr" = (BatteryStatus.Curr r, None)
       /\ parseInt f3 "BAT Temp" = (BatteryStatus.Temp r, None)
       /\ r = BatteryStatus.mk
                (BatteryStatus.ID r) (BatteryStatus.Volt r) (BatteryStatus.Curr r)
                (BatteryStatus.Temp r) (parseBaseState f4) f5 f6 f7
                (orSentinel (parseSOC f8)) (orSentinel (parseCoulomb f9 f10)) f11.

Definition assemblesPWR (line : string) (r : PowerStatus.t) : Prop :=
  dataLinePWR line = true
  /\ exists f0 f1 f2 f3 f4 f5 f6 f7 f8 f9 f10 f11 f12 f13 f14 f15 f16 f17 f18 rest,
       strings.Fields line
       = f0 :: f1 :: f2 :: f3 :: f4 :: f5 :: f6 :: f7 :: f8 :: f9 :: f10 :: f11
         :: f12 :: f13 :: f14 :: f15 :: f16 :: f17 :: f18 :: rest
       /\ parseInt f0 "PWR ID" = (PowerStatus.ID r, None)
       /\ parseInt f1 "PWR Volt" = (PowerStatus.Volt r, None)
       /\ parseInt f2 "PWR Curr" = (PowerStatus.Curr r, None)
       /\ parseInt f3 "PWR Temp (Board)" = (PowerStatus.Temp r, None)
       /\ r = PowerStatus.mk
                (PowerStatus.ID r) (PowerStatus.Volt r) (PowerStatus.Curr r)
                (PowerStatus.Temp r) (parseBaseState f8) f9 f10 f11
                (orSentinel (parseSOC f12)) f15 f16 f17 f18.

(** The number of units that [processPWRData] reports for the answer of
    the device to [pwr]: the number of power records, as an [int8]; none
    if the fetch has failed. *)
Definition unitsReported (answer : list string * option error) : Z :=
  match answer with
  | (pwrLines, None) => int8 (Z.of_nat (length (recordsOf (ParsePWR pwrLines))))
  | (_, Some _) => 0
  end.

(* ===================================================================== *)
(** * Properties *)
(* ===================================================================== *)

(** ** Slices and panics *)

Lemma index_lookup {A} (s : list A) (i : nat) (a : A) :
  s !! i = Some a -> index s i = Done a.
Proof. intros H. unfold index. now rewrite H. Qed.

Lemma index_in_bounds {A} (s : list A) (i : nat) :
  (i < length s)%nat -> exists a, s !! i = Some a /\ index s i = Done a.
Proof.
  intros H. destruct (lookup_lt_is_Some_2 s i H) as [a Ha].
  exists a. split; [exact Ha | now apply index_lookup].
Qed.

Lemma index_out_of_bounds {A} (s : list A) (i : nat) :
  (length s <= i)%nat -> exists msg, index s i = Panic msg.
Proof.
  intros H. unfold index. rewrite (lookup_ge_None_2 s i H). eauto.
Qed.

(** ** White space, runes and substrings *)

Ltac bool_to_prop :=
  repeat match goal with
  | H : _ || _ = true |- _ => apply orb_true_iff in H
  | H : _ || _ = false |- _ => apply orb_false_iff in H; destruct H
  | H : _ && _ = true |- _ => apply andb_true_iff in H; destruct H
  | H : _ && _ = false |- _ => apply andb_false_iff in H
  | H : (_ <? _) = true |- _ => apply Z.ltb_lt in H
  | H : (_ <? _) = false |- _ => apply Z.ltb_ge in H
  | H : (_ <=? _) = true |- _ => apply Z.leb_le in H
  | H : (_ <=? _) = false |- _ => apply Z.leb_gt in H
  | H : (_ =? _) = true |- _ => apply Z.eqb_eq in H
  | H : (_ =? _) = false |- _ => apply Z.eqb_neq in H
  | H : (_ <? _)%nat = true |- _ => apply Nat.ltb_lt in H
  | H : (_ <? _)%nat = false |- _ => apply Nat.ltb_ge in H
  | H : (_ <=? _)%nat = true |- _ => apply Nat.leb_le in H
  | H : (_ <=? _)%nat = false |- _ => apply Nat.leb_gt in H
  end.

Lemma spaceByte_high c : 128 <= byteVal c -> spaceByte c = true.
Proof.
  intros H. unfold spaceByte. apply orb_true_iff. right. now apply Z.leb_le.
Qed.

Lemma first_Lead s0 sz lo hi :
  utf8.first s0 = utf8.Lead sz lo hi ->
  (sz = 2 \/ sz = 3 \/ sz = 4)%nat /\ 128 <= lo /\ 194 <= s0.
Proof.
  unfold utf8.first, utf8.locb.
  repeat match goal with
         | |- context [if ?b then _ else _] => destruct b eqn:?
         end; intros [= <- <- <-] || discriminate; bool_to_prop;
    (split; [auto | split; lia]).
Qed.

Lemma first_AS s0 : utf8.first s0 = utf8.AS -> s0 < 128.
Proof.
  unfold utf8.first.
  repeat match goal with
         | |- context [if ?b then _ else _] => destruct b eqn:?
         end; intros [=]; bool_to_prop; lia.
Qed.

Lemma IsSpace_ascii r :
  r < 128 -> unicode.IsSpace r = true -> inRange 9 13 r || (r =? 32) = true.
Proof.
  unfold unicode.IsSpace, unicode.MaxLatin1. intros Hr.
  destruct (r <=? 255) eqn:E; [|bool_to_prop; lia].
  intros H. repeat (apply orb_true_iff in H; destruct H as [H|H]);
    try (apply Z.eqb_eq in H; lia).
  now rewrite H.
Qed.

(** A decoded rune is at least one byte wide, and no wider than the string. *)
Lemma DecodeRune_width a p r w :
  utf8.DecodeRune (a :: p) = (r, w) -> (1 <= w <= length (a :: p))%nat.
Proof.
  unfold utf8.DecodeRune.
  destruct (utf8.first (byteVal a)) as [| |sz lo hi] eqn:F.
  - intros [= <- <-]. cbn. lia.
  - intros [= <- <-]. cbn. lia.
  - destruct (first_Lead _ _ _ _ F) as (Hsz & _ & _).
    repeat match goal with
           | |- context [if ?b then _ else _] => destruct b eqn:?
           end; intros [= <- <-]; bool_to_prop; cbn in *; lia.
Qed.

(** The bytes of a white-space rune are ASCII white space or bytes of a
    multi-byte encoding. *)
Lemma DecodeRune_space_bytes p r w :
  utf8.DecodeRune p = (r, w) -> unicode.IsSpace r = true ->
  Forall (fun c => spaceByte c = true) (take w p).
Proof.
  destruct p as [|a0 p]; [intros _ _; rewrite take_nil; constructor|].
  unfold utf8.DecodeRune.
  destruct (utf8.first (byteVal a0)) as [| |sz lo hi] eqn:F.
  - intros [= <- <-] Hsp. cbn. repeat constructor.
    apply first_AS in F. unfold spaceByte.
    rewrite (IsSpace_ascii _ F Hsp). reflexivity.
  - intros [= <- <-] Hsp. vm_compute in Hsp. discriminate.
  - destruct (first_Lead _ _ _ _ F) as (Hsz & Hlo & Hs0).
    assert (Herr : unicode.IsSpace utf8.RuneError = false) by (vm_compute; reflexivity).
    unfold utf8.locb, utf8.byteAt.
    repeat match goal with
           | |- context [if ?b then _ else _] => destruct b eqn:?
           end; intros [= <- <-] Hsp; try congruence; bool_to_prop.
    + destruct p as [|a1 p]; [cbn in *; lia|]. cbn in *.
      repeat constructor; apply spaceByte_high; lia.
    + destruct p as [|a1 [|a2 p]]; try (cbn in *; lia). cbn in *.
      repeat constructor; apply spaceByte_high; lia.
    + destruct p as [|a1 [|a2 [|a3 p]]]; try (cbn in *; lia). cbn in *.
      assert (sz = 4%nat) as -> by lia. cbn.
      repeat constructor; apply spaceByte_high; lia.
Qed.

(** Joining the runes of a string gives the string back. *)
Lemma runesFuel_join fuel :
  forall p, (length p <= fuel)%nat -> strings.joinRunes (utf8.runesFuel fuel p) = p.
Proof.
  induction fuel as [|fuel IH]; intros p Hlen.
  - destruct p; [reflexivity | cbn in Hlen; lia].
  - destruct p as [|a p]; [reflexivity|].
    cbn [utf8.runesFuel].
    destruct (utf8.DecodeRune (a :: p)) as [r w] eqn:E.
    pose proof (DecodeRune_width _ _ _ _ E) as Hw.
    unfold strings.joinRunes in *. cbn [map concat snd].
    rewrite IH; [apply take_drop|].
    rewrite length_drop. cbn [length] in *. lia.
Qed.

Lemma runesFuel_space fuel :
  forall p,
    Forall (fun c => strings.isSpaceRune c = true ->
                     Forall (fun b => spaceByte b = true) c.2)
           (utf8.runesFuel fuel p).
Proof.
  induction fuel as [|fuel IH]; intros p.
  - destruct p; constructor.
  - destruct p as [|a p]; [constructor|].
    cbn [utf8.runesFuel].
    destruct (utf8.DecodeRune (a :: p)) as [r w] eqn:E.
    constructor; [|apply IH].
    unfold strings.isSpaceRune. cbn [fst snd]. intros Hsp.
    eapply DecodeRune_space_bytes; eauto.
Qed.

Lemma dropSpaces_split rs :
  exists sp, rs = sp ++ strings.dropSpaces rs
             /\ Forall (fun c => strings.isSpaceRune c = true) sp.
Proof.
  induction rs as [|c rs (sp & E & Hsp)]; [exists []; split; [reflexivity | constructor]|].
  cbn [strings.dropSpaces]. destruct (strings.isSpaceRune c) eqn:Hc.
  - exists (c :: sp). cbn. split; [now rewrite <- E | now constructor].
  - exists []. split; [reflexivity | constructor].
Qed.

Lemma joinRunes_app rs1 rs2 :
  strings.joinRunes (rs1 ++ rs2) = strings.joinRunes rs1 ++ strings.joinRunes rs2.
Proof. unfold strings.joinRunes. now rewrite map_app, concat_app. Qed.

Lemma joinRunes_space rs :
  Forall (fun c => strings.isSpaceRune c = true ->
                   Forall (fun b => spaceByte b = true) c.2) rs ->
  Forall (fun c => strings.isSpaceRune c = true) rs ->
  Forall (fun b => spaceByte b = true) (strings.joinRunes rs).
Proof.
  induction rs as [|c rs IH]; intros Hb Hs; [constructor|].
  inversion Hb; inversion Hs; subst.
  unfold strings.joinRunes. cbn [map concat]. apply Forall_app. split; auto.
Qed.

(** [TrimSpace] cuts a prefix and a suffix off the string, and all it cuts
    off are bytes of white-space runes. *)
Lemma trimSpaceBytes_split p :
  exists pre post,
    p = pre ++ strings.trimSpaceBytes p ++ post
    /\ Forall (fun b => spaceByte b = true) pre
    /\ Forall (fun b => spaceByte b = true) post.
Proof.
  unfold strings.trimSpaceBytes, utf8.runes.
  pose proof (runesFuel_join (length p) p (Nat.le_refl _)) as Hjoin.
  pose proof (runesFuel_space (length p) p) as Hbytes.
  set (rs := utf8.runesFuel (length p) p) in *. clearbody rs.
  destruct (dropSpaces_split rs) as (sp1 & E1 & Hsp1).
  set (mid := strings.dropSpaces rs) in *.
  destruct (dropSpaces_split (rev mid)) as (sp2 & E2 & Hsp2).
  set (core := strings.dropSpaces (rev mid)) in *.
  assert (Hmid : mid = rev core ++ rev sp2).
  { rewrite <- rev_app_distr, <- E2. now rewrite rev_involutive. }
  exists (strings.joinRunes sp1), (strings.joinRunes (rev sp2)).
  split; [|split].
  - rewrite <- Hjoin, E1, Hmid. now rewrite !joinRunes_app.
  - apply joinRunes_space; [|exact Hsp1].
    rewrite E1 in Hbytes. now apply Forall_app in Hbytes as [? _].
  - apply joinRunes_space.
    + rewrite E1, Hmid in Hbytes. apply Forall_app in Hbytes as [_ Hbytes].
      now apply Forall_app in Hbytes as [_ ?].
    + rewrite rev_alt. apply Forall_rev in Hsp2. now rewrite <- rev_alt. 
Qed.

Lemma bytes_ofBytes p : bytes (ofBytes p) = p.
Proof. apply list_ascii_of_string_of_list_ascii. Qed.

Lemma ofBytes_bytes s : ofBytes (bytes s) = s.
Proof. apply string_of_list_ascii_of_string. Qed.

(** Substrings made of bytes that no white-space rune contains. *)

Lemma hasPrefixBytes_pad_r sub post :
  Forall (fun b => spaceByte b = false) sub ->
  Forall (fun b => spaceByte b = true) post ->
  forall mid, strings.hasPrefixBytes (mid ++ post) sub = strings.hasPrefixBytes mid sub.
Proof.
  intros Hsub Hpost. induction Hsub as [|b sub' Hb Hsub IH]; intros mid.
  - now destruct (mid ++ post), mid.
  - destruct mid as [|a mid]; cbn.
    + destruct Hpost as [|c post Hc _]; [reflexivity|].
      cbn. rewrite bool_decide_eq_false_2; [reflexivity | congruence].
    + now rewrite IH.
Qed.

Lemma hasPrefixBytes_pad_l sub c p :
  Forall (fun b => spaceByte b = false) sub -> sub <> [] ->
  spaceByte c = true -> strings.hasPrefixBytes (c :: p) sub = false.
Proof.
  intros Hsub Hne Hc. destruct Hsub as [|b sub' Hb _]; [congruence|].
  cbn. rewrite bool_decide_eq_false_2; [reflexivity | congruence].
Qed.

Lemma containsBytes_pad_l sub pre p :
  Forall (fun b => spaceByte b = false) sub -> sub <> [] ->
  Forall (fun b => spaceByte b = true) pre ->
  strings.containsBytes (pre ++ p) sub = strings.containsBytes p sub.
Proof.
  intros Hsub Hne. induction 1 as [|c pre Hc _ IH]; [reflexivity|].
  cbn [app strings.containsBytes]. now rewrite hasPrefixBytes_pad_l.
Qed.

Lemma containsBytes_pad_r sub post :
  Forall (fun b => spaceByte b = false) sub -> sub <> [] ->
  Forall (fun b => spaceByte b = true) post ->
  forall mid, strings.containsBytes (mid ++ post) sub = strings.containsBytes mid sub.
Proof.
  intros Hsub Hne Hpost. induction mid as [|a mid IH].
  - rewrite app_nil_l, <- (app_nil_r post), containsBytes_pad_l by assumption.
    reflexivity.
  - cbn [app strings.containsBytes].
    rewrite IH. f_equal.
    apply (hasPrefixBytes_pad_r sub post Hsub Hpost (a :: mid)).
Qed.

(** Trimming white space neither removes nor creates an occurrence. *)
Lemma containsBytes_trimSpace sub p :
  Forall (fun b => spaceByte b = false) sub -> sub <> [] ->
  strings.containsBytes (strings.trimSpaceBytes p) sub = strings.containsBytes p sub.
Proof.
  intros Hsub Hne.
  destruct (trimSpaceBytes_split p) as (pre & post & E & Hpre & Hpost).
  rewrite E at 2. rewrite containsBytes_pad_l, containsBytes_pad_r by assumption.
  reflexivity.
Qed.

Lemma Contains_TrimSpace_Absent line :
  strings.Contains (strings.TrimSpace line) "Absent" = strings.Contains line "Absent".
Proof.
  unfold strings.Contains, strings.TrimSpace. rewrite bytes_ofBytes.
  apply containsBytes_trimSpace; [|discriminate].
  repeat constructor.
Qed.

(** The second loop of [ParseBAT] looks for the lines the first one took
    for data lines. *)
Lemma dataLineBAT_match line :
  dataLineBAT line = regexp.MatchString dataRegexBAT (strings.TrimSpace line).
Proof.
  unfold dataLineBAT. case_bool_decide as E.
  - rewrite E. reflexivity.
  - rewrite orb_false_r. apply negb_involutive.
Qed.

Lemma dataLinePWR_match line :
  dataLinePWR line =
  regexp.MatchString dataRegexPWR (strings.TrimSpace line)
  && negb (strings.Contains line "Absent").
Proof.
  unfold dataLinePWR. rewrite Contains_TrimSpace_Absent. case_bool_decide as E.
  - rewrite E. rewrite orb_true_r. reflexivity.
  - rewrite orb_false_r, negb_orb, negb_involutive. reflexivity.
Qed.

(** *** The fields of a trimmed line *)

Lemma runesFuel_irrelevant fuel1 :
  forall fuel2 p, (length p <= fuel1)%nat -> (length p <= fuel2)%nat ->
                  utf8.runesFuel fuel1 p = utf8.runesFuel fuel2 p.
Proof.
  induction fuel1 as [|fuel1 IH]; intros fuel2 p H1 H2.
  - destruct p; [now destruct fuel2 | cbn in H1; lia].
  - destruct p as [|a p]; [now destruct fuel2|].
    destruct fuel2 as [|fuel2]; [cbn in H2; lia|].
    cbn [utf8.runesFuel].
    destruct (utf8.DecodeRune (a :: p)) as [r w] eqn:E.
    pose proof (DecodeRune_width _ _ _ _ E) as Hw. cbn [length] in *.
    f_equal. apply IH; rewrite length_drop; cbn [length]; lia.
Qed.

Lemma runesFuel_enough fuel p :
  (length p <= fuel)%nat -> utf8.runesFuel fuel p = utf8.runes p.
Proof. intros H. now apply runesFuel_irrelevant. Qed.

Lemma runes_nonempty p :
  p <> [] ->
  exists r w,
    utf8.DecodeRune p = (r, w) /\ (1 <= w <= length p)%nat
    /\ utf8.runes p = (r, take w p) :: utf8.runes (drop w p).
Proof.
  destruct p as [|a p]; [congruence|]. intros _.
  unfold utf8.runes at 1. cbn [length utf8.runesFuel].
  destruct (utf8.DecodeRune (a :: p)) as [r w] eqn:E.
  pose proof (DecodeRune_width _ _ _ _ E) as Hw.
  exists r, w. split; [reflexivity|]. split; [exact Hw|].
  rewrite runesFuel_enough; [reflexivity|]. rewrite length_drop.
  cbn [length] in *. lia.
Qed.

(** Decoding looks at the bytes of the rune only: bytes that follow do not
    change what a complete or an invalid encoding decodes to. *)
Lemma DecodeRune_app x y r w :
  utf8.DecodeRune (x ++ y) = (r, w) -> (1 <= w <= length x)%nat ->
  utf8.DecodeRune x = (r, w).
Proof.
  intros H Hw. revert H.
  destruct x as [|a0 x]; [cbn in Hw; lia|].
  cbn [app]. unfold utf8.DecodeRune.
  destruct (utf8.first (byteVal a0)) as [| |sz lo hi] eqn:F; try (intros; assumption).
  destruct (first_Lead _ _ _ _ F) as (Hsz & _ & _).
  unfold utf8.byteAt.
  destruct x as [|a1 [|a2 [|a3 x]]]; cbn [app length nth] in *;
    destruct Hsz as [->|[->| ->]];
    repeat match goal with
           | |- context [if ?b then _ else _] => destruct b eqn:?
           end;
    intros [= <- <-]; try reflexivity; bool_to_prop; try lia.
Qed.

(** The rune list of a string, cut at rune boundaries, is the rune list of
    each piece. *)
Lemma runes_first_chunk c cs rest :
  utf8.runes (c.2 ++ rest) = c :: cs ->
  utf8.DecodeRune (c.2 ++ rest) = (c.1, length c.2)
  /\ (1 <= length c.2)%nat /\ utf8.runes rest = cs.
Proof.
  intros H.
  destruct (runes_nonempty (c.2 ++ rest)) as (r & w & E & Hw & Hr).
  { intros E. rewrite E in H. discriminate H. }
  rewrite Hr in H. injection H as Hc Hcs. destruct c as [r' bs]. cbn [fst snd] in *.
  injection Hc as -> Hbs.
  assert (Hlen : length bs = w).
  { rewrite <- Hbs at 1. rewrite length_take, length_app in *. lia. }
  subst w. rewrite drop_app_length in Hcs.
  split; [exact E | split; [lia | exact Hcs]].
Qed.

Lemma runes_drop_prefix a :
  forall b, utf8.runes (strings.joinRunes (a ++ b)) = a ++ b ->
            utf8.runes (strings.joinRunes b) = b.
Proof.
  induction a as [|c a IH]; intros b H; [exact H|].
  apply IH. change (strings.joinRunes ((c :: a) ++ b))
    with (c.2 ++ strings.joinRunes (a ++ b)) in H.
  now apply runes_first_chunk in H as (_ & _ & H).
Qed.

Lemma runes_drop_suffix a :
  forall b, utf8.runes (strings.joinRunes (a ++ b)) = a ++ b ->
            utf8.runes (strings.joinRunes a) = a.
Proof.
  induction a as [|c a IH]; intros b H; [reflexivity|].
  change (strings.joinRunes ((c :: a) ++ b))
    with (c.2 ++ strings.joinRunes (a ++ b)) in H.
  apply runes_first_chunk in H as (Hdec & Hlen & Hrest).
  change (strings.joinRunes (c :: a)) with (c.2 ++ strings.joinRunes a).
  destruct (runes_nonempty (c.2 ++ strings.joinRunes a)) as (r & w & E & Hw & Hr).
  { destruct c.2; [cbn in Hlen; lia | discriminate]. }
  rewrite joinRunes_app, app_assoc in Hdec.
  apply DecodeRune_app in Hdec; [|rewrite length_app; lia].
  rewrite Hdec in E. injection E as <- <-.
  rewrite Hr, take_app_length, drop_app_length.
  rewrite (IH b Hrest). now destruct c.
Qed.

Lemma fieldsGo_leading_space sp rs :
  Forall (fun c => strings.isSpaceRune c = true) sp ->
  strings.fieldsGo None (sp ++ rs) = strings.fieldsGo None rs.
Proof.
  induction 1 as [|c sp Hc _ IH]; [reflexivity|].
  cbn [app strings.fieldsGo]. now rewrite Hc.
Qed.

Lemma fieldsGo_only_space sp :
  Forall (fun c => strings.isSpaceRune c = true) sp ->
  forall cur, strings.fieldsGo cur sp = strings.fieldsGo cur [].
Proof.
  induction 1 as [|c sp Hc _ IH]; intros cur; [reflexivity|].
  cbn [strings.fieldsGo]. rewrite Hc. rewrite (IH None). now destruct cur.
Qed.

Lemma fieldsGo_trailing_space sp rs :
  Forall (fun c => strings.isSpaceRune c = true) sp ->
  forall cur, strings.fieldsGo cur (rs ++ sp) = strings.fieldsGo cur rs.
Proof.
  intros Hsp. induction rs as [|c rs IH]; intros cur.
  - now apply fieldsGo_only_space.
  - cbn [app strings.fieldsGo]. destruct (strings.isSpaceRune c).
    + rewrite (IH None). reflexivity.
    + apply IH.
Qed.

(** What [TrimSpace] keeps is a run of the runes of the string, between
    white-space runes. *)
Lemma trimSpaceBytes_runes p :
  exists sp1 core sp2,
    utf8.runes p = sp1 ++ core ++ sp2
    /\ Forall (fun c => strings.isSpaceRune c = true) sp1
    /\ Forall (fun c => strings.isSpaceRune c = true) sp2
    /\ strings.trimSpaceBytes p = strings.joinRunes core.
Proof.
  unfold strings.trimSpaceBytes.
  destruct (dropSpaces_split (utf8.runes p)) as (sp1 & E1 & Hsp1).
  set (mid := strings.dropSpaces (utf8.runes p)) in *.
  destruct (dropSpaces_split (rev mid)) as (sp2 & E2 & Hsp2).
  set (core := strings.dropSpaces (rev mid)) in *.
  exists sp1, (rev core), (rev sp2). split; [|split; [exact Hsp1 | split; [|reflexivity]]].
  - rewrite E1 at 1. f_equal.
    rewrite <- rev_app_distr, <- E2. now rewrite rev_involutive.
  - rewrite rev_alt. apply Forall_rev in Hsp2. now rewrite <- rev_alt.
Qed.

(** The fields of a line are the fields of the trimmed line. *)
Lemma Fields_TrimSpace s :
  strings.Fields (strings.TrimSpace s) = strings.Fields s.
Proof.
  unfold strings.Fields, strings.TrimSpace. rewrite bytes_ofBytes. f_equal.
  destruct (trimSpaceBytes_runes (bytes s)) as (sp1 & core & sp2 & E & Hsp1 & Hsp2 & ->).
  assert (Hall : utf8.runes (strings.joinRunes (sp1 ++ core ++ sp2)) = sp1 ++ core ++ sp2).
  { rewrite <- E. unfold utf8.runes at 2. now rewrite runesFuel_join. }
  apply runes_drop_prefix, runes_drop_suffix in Hall.
  rewrite Hall, E, fieldsGo_leading_space, fieldsGo_trailing_space by assumption.
  reflexivity.
Qed.

(** ** Decimal numerals and [Atoi] *)

Lemma byteVal_range c : 0 <= byteVal c < 256.
Proof.
  unfold byteVal. pose proof (N_ascii_bounded c) as H. lia.
Qed.

Lemma digitsValue_ge p : forall acc v, 0 <= acc -> digitsValue p acc = Some v -> acc <= v.
Proof.
  induction p as [|c p IH]; intros acc v Hacc; cbn.
  - intros [= <-]. lia.
  - destruct (inRange 48 57 (byteVal c)) eqn:Hd; [|discriminate].
    unfold inRange in Hd. intros Hv. apply IH in Hv; lia.
Qed.

Lemma digitsValue_lt p :
  forall acc v, 0 <= acc -> digitsValue p acc = Some v ->
                v < (acc + 1) * 10 ^ Z.of_nat (length p).
Proof.
  induction p as [|c p IH]; intros acc v Hacc; cbn [digitsValue length].
  - intros [= <-]. cbn. lia.
  - destruct (inRange 48 57 (byteVal c)) eqn:Hd; [|discriminate].
    unfold inRange in Hd. intros Hv. apply IH in Hv; [|lia].
    rewrite Nat2Z.inj_succ, Z.pow_succ_r by lia.
    assert (0 < 10 ^ Z.of_nat (length p)) by (apply Z.pow_pos_nonneg; lia).
    nia.
Qed.

(** The digit loop of the fast path computes the value of the digits. *)
Lemma atoiLoop_digitsValue p : forall n, strconv.atoiLoop p n = digitsValue p n.
Proof.
  induction p as [|c p IH]; intros n; cbn; [reflexivity|].
  pose proof (byteVal_range c) as Hc.
  unfold wrapUnsigned, inRange. change (2 ^ 8) with 256.
  destruct (Z_lt_ge_dec (byteVal c) 48) as [Hlo|Hlo].
  - replace ((byteVal c - 48) mod 256) with (byteVal c - 48 + 256)
      by (apply Z.mod_unique with (q := -1); lia).
    replace (9 <? byteVal c - 48 + 256) with true by lia.
    replace (48 <=? byteVal c) with false by lia. reflexivity.
  - rewrite Z.mod_small by lia.
    destruct (9 <? byteVal c - 48) eqn:Hhi.
    + replace (byteVal c <=? 57) with false by lia. now rewrite andb_false_r.
    + replace (48 <=? byteVal c) with true by lia.
      replace (byteVal c <=? 57) with true by lia. cbn. apply IH.
Qed.

(** The digit loop of [ParseUint], against the value of the digits. *)
Lemma parseUintLoop_spec s0 p :
  forall n, 0 <= n <= strconv.maxUint64 ->
    match digitsValue p n with
    | Some v =>
      if v <=? strconv.maxUint64
      then strconv.parseUintLoop s0 (strconv.maxUint64 / 10 + 1) strconv.maxUint64 p n
           = (v, None)
      else strconv.parseUintLoop s0 (strconv.maxUint64 / 10 + 1) strconv.maxUint64 p n
           = (strconv.maxUint64, Some (strconv.rangeError "ParseUint" s0))
    | None =>
      strconv.parseUintLoop s0 (strconv.maxUint64 / 10 + 1) strconv.maxUint64 p n
      = (0, Some (strconv.syntaxError "ParseUint" s0))
      \/ strconv.parseUintLoop s0 (strconv.maxUint64 / 10 + 1) strconv.maxUint64 p n
         = (strconv.maxUint64, Some (strconv.rangeError "ParseUint" s0))
    end.
Proof.
  change strconv.maxUint64 with 18446744073709551615.
  change (18446744073709551615 / 10 + 1) with 1844674407370955162.
  induction p as [|c p IH]; intros n Hn; cbn [digitsValue strconv.parseUintLoop].
  - replace (n <=? 18446744073709551615) with true by lia. reflexivity.
  - destruct (inRange 48 57 (byteVal c)) eqn:Hd; cbn [negb]; [|now left].
    unfold inRange in Hd. apply andb_true_iff in Hd as [Hd1%Z.leb_le Hd2%Z.leb_le].
    destruct (1844674407370955162 <=? n) eqn:Hcut.
    + apply Z.leb_le in Hcut.
      destruct (digitsValue p (n * 10 + (byteVal c - 48))) as [v|] eqn:Hv; [|now right].
      apply digitsValue_ge in Hv; [|lia].
      replace (v <=? 18446744073709551615) with false by lia. reflexivity.
    + apply Z.leb_gt in Hcut.
      unfold uint64, wrapUnsigned. change (2 ^ 64) with 18446744073709551616.
      rewrite (Z.mod_small (n * 10)) by lia.
      destruct (Z_le_gt_dec (n * 10 + (byteVal c - 48)) 18446744073709551615) as [Hfit|Hover].
      * rewrite Z.mod_small by lia.
        replace (n * 10 + (byteVal c - 48) <? n * 10) with false by lia.
        replace (18446744073709551615 <? n * 10 + (byteVal c - 48)) with false by lia.
        cbn [orb]. apply IH. lia.
      * replace ((n * 10 + (byteVal c - 48)) mod 18446744073709551616)
          with (n * 10 + (byteVal c - 48) - 18446744073709551616)
          by (apply Z.mod_unique with (q := 1); lia).
        replace (n * 10 + (byteVal c - 48) - 18446744073709551616 <? n * 10)
          with true by lia.
        cbn [orb].
        destruct (digitsValue p (n * 10 + (byteVal c - 48))) as [v|] eqn:Hv; [|now right].
        apply digitsValue_ge in Hv; [|lia].
        replace (v <=? 18446744073709551615) with false by lia. reflexivity.
Qed.

Lemma ofBytes_empty p : ofBytes p = "" <-> p = [].
Proof. destruct p; cbn; split; congruence. Qed.

Lemma ParseUint10_spec s :
  match (if bool_decide (s = "") then None else digitsValue (bytes s) 0) with
  | Some v =>
    if v <=? strconv.maxUint64
    then strconv.ParseUint10 s = (v, None)
    else strconv.ParseUint10 s
         = (strconv.maxUint64, Some (strconv.rangeError "ParseUint" s))
  | None =>
    strconv.ParseUint10 s = (0, Some (strconv.syntaxError "ParseUint" s))
    \/ strconv.ParseUint10 s
       = (strconv.maxUint64, Some (strconv.rangeError "ParseUint" s))
  end.
Proof.
  unfold strconv.ParseUint10. case_bool_decide as E; [now left|].
  change (uint64 (Z.shiftl 1 intSize - 1)) with strconv.maxUint64.
  apply (parseUintLoop_spec s (bytes s) 0). cbv. split; discriminate.
Qed.

(** The sign and range handling of [ParseInt] on an unsigned result. *)
Lemma ParseInt10_signed s0 c rest (neg : bool) s :
  bytes s0 = c :: rest ->
  (if bool_decide (c = "+"%char) then (false, ofBytes rest)
   else if bool_decide (c = "-"%char) then (true, ofBytes rest)
   else (false, s0)) = (neg, s) ->
  match (if bool_decide (s = "") then None else digitsValue (bytes s) 0) with
  | Some v =>
    let n := if neg then - v else v in
    if (- 2 ^ 63 <=? n) && (n <? 2 ^ 63)
    then strconv.ParseInt10 s0 = (n, None)
    else failed (strconv.ParseInt10 s0) = true
  | None => failed (strconv.ParseInt10 s0) = true
  end.
Proof.
  intros Hb Hsign. unfold strconv.ParseInt10. rewrite Hb, Hsign.
  pose proof (ParseUint10_spec s) as Hu.
  change (uint64 (Z.shiftl 1 (intSize - 1))) with 9223372036854775808.
  change strconv.maxUint64 with 18446744073709551615 in *.
  change (2 ^ 63) with 9223372036854775808.
  revert Hu.
  destruct (if bool_decide (s = "") then None else digitsValue (bytes s) 0) as [v|] eqn:Hv;
    intros Hu.
  - assert (0 <= v).
    { case_bool_decide; [discriminate|]. apply digitsValue_ge in Hv; lia. }
    cbv zeta. unfold int64, wrapSigned, strconv.rangeError.
    change (2 ^ (64 - 1)) with 9223372036854775808.
    change (2 ^ 64) with 18446744073709551616.
    revert Hu. destruct (v <=? 18446744073709551615) eqn:Hmax; intros Hu;
      destruct neg;
      match goal with
      | |- context [if ?b then _ = _ else _ = _] => destruct b eqn:Hr
      end; rewrite Hu; cbn [negb andb]; try (cbn [failed snd]);
      bool_to_prop.
    + replace (9223372036854775808 <? v) with false by lia.
      f_equal.
      destruct (Z.eq_dec v 9223372036854775808) as [->|Hne]; [reflexivity|].
      rewrite (Z.mod_small (v + 9223372036854775808)) by lia.
      replace (- (v + 9223372036854775808 - 9223372036854775808) + 9223372036854775808)
        with (9223372036854775808 - v) by lia.
      rewrite Z.mod_small by lia. lia.
    + replace (9223372036854775808 <? v) with true by lia. reflexivity.
    + replace (9223372036854775808 <=? v) with false by lia.
      f_equal. rewrite Z.mod_small by lia. lia.
    + replace (9223372036854775808 <=? v) with true by lia. reflexivity.
    + lia.
    + reflexivity.
    + lia.
    + reflexivity.
  - destruct Hu as [Hu|Hu]; rewrite Hu; [reflexivity|].
    cbn [strconv.rangeError]. destruct neg; reflexivity.
Qed.

Lemma decimalValue_signed s0 c rest :
  bytes s0 = c :: rest ->
  exists (neg : bool) s,
    (if bool_decide (c = "+"%char) then (false, ofBytes rest)
     else if bool_decide (c = "-"%char) then (true, ofBytes rest)
     else (false, s0)) = (neg, s)
    /\ decimalValue s0
       = (fun v => if neg then - v else v)
           <$> (if bool_decide (s = "") then None else digitsValue (bytes s) 0).
Proof.
  intros Hb. unfold decimalValue. rewrite Hb.
  case_bool_decide as Hplus; [|case_bool_decide as Hminus].
  - exists false, (ofBytes rest). split; [reflexivity|].
    rewrite bytes_ofBytes. case_bool_decide as E; rewrite ofBytes_empty in E.
    + now subst rest.
    + destruct rest; [congruence|]. now destruct (digitsValue _ _).
  - exists true, (ofBytes rest). split; [reflexivity|].
    rewrite bytes_ofBytes. case_bool_decide as E; rewrite ofBytes_empty in E.
    + now subst rest.
    + destruct rest; [congruence|]. reflexivity.
  - exists false, s0. split; [reflexivity|].
    rewrite bool_decide_eq_false_2 by (intros ->; discriminate Hb).
    rewrite Hb. now destruct (digitsValue _ _).
Qed.

Lemma ParseInt10_spec s0 :
  match decimalValue s0 with
  | Some n =>
    if (- 2 ^ 63 <=? n) && (n <? 2 ^ 63)
    then strconv.ParseInt10 s0 = (n, None)
    else failed (strconv.ParseInt10 s0) = true
  | None => failed (strconv.ParseInt10 s0) = true
  end.
Proof.
  destruct (bytes s0) as [|c rest] eqn:Hb.
  - unfold decimalValue, strconv.ParseInt10. rewrite Hb. reflexivity.
  - destruct (decimalValue_signed s0 c rest Hb) as (neg & s & Hsign & ->).
    pose proof (ParseInt10_signed s0 c rest neg s Hb Hsign) as H.
    destruct (if bool_decide (s = "") then None else digitsValue (bytes s) 0);
      exact H.
Qed.

Lemma failed_rename (r : Z * option error) :
  failed (let '(i64, err) := r in
          match err with
          | Some (NumError _ num e) => (i64, Some (NumError "Atoi" num e))
          | _ => (i64, err)
          end) = failed r.
Proof. destruct r as [v [[| |? ? ?|? ?]|]]; reflexivity. Qed.

(** [Atoi] accepts the decimal numerals whose value fits in an [int], and
    returns their value. *)
Lemma Atoi_spec s0 :
  match decimalValue s0 with
  | Some n =>
    if (- 2 ^ 63 <=? n) && (n <? 2 ^ 63)
    then strconv.Atoi s0 = (n, None)
    else failed (strconv.Atoi s0) = true
  | None => failed (strconv.Atoi s0) = true
  end.
Proof.
  unfold strconv.Atoi.
  destruct ((0 <? Z.of_nat (length (bytes s0))) && (Z.of_nat (length (bytes s0)) <? 19))
    eqn:Hfast.
  - apply andb_true_iff in Hfast as [_ Hlen%Z.ltb_lt].
    unfold decimalValue.
    destruct (bytes s0) as [|c rest] eqn:Hb; [reflexivity|].
    cbn [length] in Hlen.
    assert (Hsmall : forall p v, (length p <= length rest + 1)%nat ->
                                 digitsValue p 0 = Some v -> 0 <= v < 2 ^ 63).
    { intros p v Hp Hv. split; [apply digitsValue_ge in Hv; lia|].
      apply digitsValue_lt in Hv; [|lia].
      assert (10 ^ Z.of_nat (length p) <= 10 ^ 18)
        by (apply Z.pow_le_mono_r; lia).
      change (10 ^ 18) with 1000000000000000000 in *.
      change (2 ^ 63) with 9223372036854775808. lia. }
    change (2 ^ 63) with 9223372036854775808 in *.
    rewrite !atoiLoop_digitsValue.
    case_bool_decide as Hplus; [|case_bool_decide as Hminus].
    + subst c. change (bool_decide ("+"%char = "-"%char)) with false.
      cbn [orb andb].
      destruct rest as [|c' rest']; [reflexivity|].
      cbn [length Nat.ltb Nat.leb andb].
      destruct (digitsValue (c' :: rest') 0) as [v|] eqn:Hv; [|reflexivity].
      apply Hsmall in Hv; [|cbn; lia].
      match goal with |- if ?b then _ else _ => destruct b eqn:Hr end;
        [reflexivity | lia].
    + cbn [orb andb].
      destruct rest as [|c' rest']; [reflexivity|].
      cbn [length Nat.ltb Nat.leb andb].
      destruct (digitsValue (c' :: rest') 0) as [v|] eqn:Hv; [|reflexivity].
      apply Hsmall in Hv; [|cbn; lia]. cbn [fmap option_fmap option_map].
      match goal with |- if ?b then _ else _ => destruct b eqn:Hr end;
        [reflexivity | lia].
    + cbn [orb andb].
      destruct (digitsValue (c :: rest) 0) as [v|] eqn:Hv; [|reflexivity].
      apply Hsmall in Hv; [|cbn; lia].
      match goal with |- if ?b then _ else _ => destruct b eqn:Hr end;
        [reflexivity | lia].
  - pose proof (ParseInt10_spec s0) as H.
    rewrite failed_rename.
    destruct (decimalValue s0) as [n|]; [|exact H].
    destruct ((- 2 ^ 63 <=? n) && (n <? 2 ^ 63)); [|exact H].
    rewrite H. reflexivity.
Qed.

Lemma Atoi_ok_iff s n :
  strconv.Atoi s = (n, None)
  <-> decimalValue s = Some n /\ - 2 ^ 63 <= n < 2 ^ 63.
Proof.
  pose proof (Atoi_spec s) as H.
  destruct (decimalValue s) as [m|].
  - destruct ((- 2 ^ 63 <=? m) && (m <? 2 ^ 63)) eqn:Hr.
    + rewrite H. split.
      * intros [= <-]. split; [reflexivity | lia].
      * intros [[= <-] _]. reflexivity.
    + split.
      * intros E. rewrite E in H. discriminate H.
      * intros [[= <-] ?]. lia.
  - split.
    + intros E. rewrite E in H. discriminate H.
    + intros [[=] _].
Qed.

Lemma Atoi_failed_iff s :
  failed (strconv.Atoi s) = true
  <-> forall n, decimalValue s = Some n -> ~ (- 2 ^ 63 <= n < 2 ^ 63).
Proof.
  pose proof (Atoi_spec s) as H.
  destruct (decimalValue s) as [m|].
  - destruct ((- 2 ^ 63 <=? m) && (m <? 2 ^ 63)) eqn:Hr.
    + rewrite H. split; [discriminate|].
      intros Hn. exfalso. apply (Hn m eq_refl). lia.
    + split; [|auto]. intros _ n [= <-]. lia.
  - split; [|auto]. intros _ n [=].
Qed.

(** ** Narrowing to [int8] *)

Lemma int8_range n : -128 <= int8 n <= 127.
Proof.
  unfold int8, wrapSigned. change (2 ^ (8 - 1)) with 128. change (2 ^ 8) with 256.
  pose proof (Z.mod_pos_bound (n + 128) 256). lia.
Qed.

Lemma int8_congruent n : (int8 n - n) mod 256 = 0.
Proof.
  unfold int8, wrapSigned. change (2 ^ (8 - 1)) with 128. change (2 ^ 8) with 256.
  rewrite (Z.mod_eq (n + 128) 256) by lia.
  replace (n + 128 - 256 * ((n + 128) / 256) - 128 - n)
    with ((- ((n + 128) / 256)) * 256) by lia.
  apply Z.mod_mul. lia.
Qed.

Lemma int8_small n : -128 <= n <= 127 -> int8 n = n.
Proof.
  intros H. unfold int8, wrapSigned. change (2 ^ (8 - 1)) with 128.
  change (2 ^ 8) with 256. rewrite Z.mod_small; lia.
Qed.

Lemma int8_sentinel n : int8 n = -1 <-> n mod 2 ^ 8 = 255.
Proof.
  unfold int8, wrapSigned. change (2 ^ (8 - 1)) with 128. change (2 ^ 8) with 256.
  pose proof (Z.mod_pos_bound (n + 128) 256).
  pose proof (Z.mod_pos_bound n 256).
  rewrite (Z.mod_eq (n + 128) 256), (Z.mod_eq n 256) in * by lia.
  split; intros E; lia.
Qed.

Lemma int8_wraps n : n < -128 \/ 127 < n -> int8 n <> n.
Proof. pose proof (int8_range n). lia. Qed.

(** ** [TrimSuffix] with the suffix "%" *)

Lemma bytes_append s1 s2 : bytes (s1 +:+ s2) = bytes s1 ++ bytes s2.
Proof.
  induction s1 as [|a s1 IH]; [reflexivity|].
  change (bytes (String a (s1 +:+ s2)) = a :: (bytes s1 ++ bytes s2)).
  rewrite <- IH. reflexivity.
Qed.

Lemma bytes_inj s1 s2 : bytes s1 = bytes s2 -> s1 = s2.
Proof. intros H. rewrite <- (ofBytes_bytes s1), <- (ofBytes_bytes s2). now rewrite H. Qed.

Lemma HasSuffix_percent s :
  strings.HasSuffix s "%" = true <-> exists t, s = t +:+ "%".
Proof.
  unfold strings.HasSuffix. change (rev (bytes "%")) with ["%"%char]. split.
  - destruct (rev (bytes s)) as [|c q] eqn:E; [discriminate|].
    cbn. intros [->%bool_decide_eq_true _]%andb_true_iff.
    exists (ofBytes (rev q)). apply bytes_inj.
    rewrite bytes_append, bytes_ofBytes.
    rewrite <- (rev_involutive (bytes s)), E. reflexivity.
  - intros [t ->]. rewrite bytes_append, rev_app_distr. cbn.
    rewrite bool_decide_eq_true_2 by reflexivity. now destruct (rev (bytes t)).
Qed.

Lemma TrimSuffix_percent t : strings.TrimSuffix (t +:+ "%") "%" = t.
Proof.
  unfold strings.TrimSuffix.
  rewrite (proj2 (HasSuffix_percent (t +:+ "%"))) by eauto.
  rewrite bytes_append, length_app.
  replace (length (bytes t) + length (bytes "%") - length (bytes "%"))%nat
    with (length (bytes t)) by lia.
  rewrite take_app_length. apply ofBytes_bytes.
Qed.

Lemma TrimSuffix_no_percent s :
  (forall t, s <> t +:+ "%") -> strings.TrimSuffix s "%" = s.
Proof.
  intros H. unfold strings.TrimSuffix.
  destruct (strings.HasSuffix s "%") eqn:E; [|reflexivity].
  apply HasSuffix_percent in E as [t ->]. now destruct (H t).
Qed.

(** ** The patterns of the two parsers *)

Lemma nullable_accepts r : forall bot, regexp.nullable bot r = true -> accepts bot r [].
Proof.
  induction r as [| | |k|r1 IH1 r2 IH2|r1 IH1 r2 IH2|r IH|r IH]; intros bot; cbn;
    try discriminate.
  - intros _. constructor.
  - intros ->. constructor.
  - intros [H1 H2]%andb_true_iff.
    apply (acceptsConcat bot r1 r2 [] []); [now apply IH1|].
    cbn. rewrite andb_true_r. now apply IH2.
  - intros [H|H]%orb_true_iff.
    + apply acceptsAlternateL. now apply IH1.
    + apply acceptsAlternateR. now apply IH2.
  - intros _. constructor.
  - intros H. apply (acceptsPlus bot r [] []); [now apply IH | constructor].
Qed.

Lemma accepts_nullable bot r w :
  accepts bot r w -> w = [] -> regexp.nullable bot r = true.
Proof.
  induction 1 as [bot| |bot k c Hc|bot r1 r2 w1 w2 H1 IH1 H2 IH2
                 |bot r1 r2 w H IH|bot r1 r2 w H IH|bot r
                 |bot r c w1 w2 H1 IH1 H2 IH2|bot r w1 w2 H1 IH1 H2 IH2];
    intros E; cbn; try reflexivity; try discriminate.
  - apply app_eq_nil in E as [-> ->]. cbn in IH2. rewrite andb_true_r in IH2.
    rewrite IH1, IH2; reflexivity.
  - rewrite IH by assumption. reflexivity.
  - rewrite IH by assumption. apply orb_true_r.
  - apply app_eq_nil in E as [-> ->]. now apply IH1.
Qed.

Lemma accepts_deriv bot r w0 :
  accepts bot r w0 ->
  forall c w, w0 = c :: w -> accepts false (regexp.deriv bot c r) w.
Proof.
  induction 1 as [bot| |bot k c' Hc|bot r1 r2 w1 w2 H1 IH1 H2 IH2
                 |bot r1 r2 w' H IH|bot r1 r2 w' H IH|bot r
                 |bot r c' w1 w2 H1 IH1 H2 IH2|bot r w1 w2 H1 IH1 H2 IH2];
    intros c w E; cbn [regexp.deriv]; try discriminate.
  - injection E as -> <-. rewrite Hc. constructor.
  - destruct w1 as [|c1 w1].
    + cbn in E, H2, IH2. rewrite andb_true_r in *.
      rewrite (accepts_nullable _ _ _ H1 eq_refl).
      apply acceptsAlternateR. now apply IH2.
    + cbn in E. injection E as -> <-.
      cbn in H2. rewrite andb_false_r in H2.
      assert (Hcat : accepts false (regexp.OpConcat (regexp.deriv bot c r1) r2) (w1 ++ w2)).
      { apply acceptsConcat; [now apply IH1 | exact H2]. }
      destruct (regexp.nullable bot r1); [now apply acceptsAlternateL | exact Hcat].
  - apply acceptsAlternateL. now apply IH.
  - apply acceptsAlternateR. now apply IH.
  - injection E as -> <-. apply acceptsConcat; [now apply IH1 | exact H2].
  - destruct w1 as [|c1 w1].
    + cbn in E, H2, IH2. rewrite andb_true_r in *. now apply IH2.
    + cbn in E. injection E as -> <-.
      cbn in H2. rewrite andb_false_r in H2.
      apply acceptsConcat; [now apply IH1 | exact H2].
Qed.

Lemma accepts_NoMatch bot w : ~ accepts bot regexp.OpNoMatch w.
Proof. intros H. inversion H. Qed.

Lemma deriv_accepts r :
  forall bot c w, accepts false (regexp.deriv bot c r) w -> accepts bot r (c :: w).
Proof.
  induction r as [| | |k|r1 IH1 r2 IH2|r1 IH1 r2 IH2|r IH|r IH]; intros bot c w;
    cbn [regexp.deriv]; intros H; try now apply accepts_NoMatch in H.
  - destruct (regexp.classHas k c) eqn:Hc; [|now apply accepts_NoMatch in H].
    inversion H; subst. now constructor.
  - assert (Hcat : forall w', accepts false (regexp.OpConcat (regexp.deriv bot c r1) r2) w' ->
                              accepts bot (regexp.OpConcat r1 r2) (c :: w')).
    { intros w' Hw'. inversion Hw' as [| | |? ? ? w1 w2 Hd H2| | | | |]; subst.
      apply (acceptsConcat bot r1 r2 (c :: w1) w2); [now apply IH1|].
      cbn. rewrite andb_false_r. exact H2. }
    destruct (regexp.nullable bot r1) eqn:Hn; [|now apply Hcat].
    inversion H; subst; [now apply Hcat|].
    apply (acceptsConcat bot r1 r2 [] (c :: w)); [now apply nullable_accepts|].
    cbn. rewrite andb_true_r. now apply IH2.
  - inversion H; subst.
    + apply acceptsAlternateL. now apply IH1.
    + apply acceptsAlternateR. now apply IH2.
  - inversion H as [| | |? ? ? w1 w2 Hd H2| | | | |]; subst.
    apply acceptsStarStep; [now apply IH | exact H2].
  - inversion H as [| | |? ? ? w1 w2 Hd H2| | | | |]; subst.
    apply (acceptsPlus bot r (c :: w1) w2); [now apply IH|].
    cbn. rewrite andb_false_r. exact H2.
Qed.

(** [matchHere] finds the prefixes that the pattern accepts. *)
Lemma matchHere_accepts p :
  forall bot r,
    regexp.matchHere bot r p = true
    <-> exists w tl, p = w ++ tl /\ accepts bot r w.
Proof.
  induction p as [|c p IH]; intros bot r; cbn [regexp.matchHere].
  - rewrite orb_false_r. split.
    + intros H. exists [], []. split; [reflexivity | now apply nullable_accepts].
    + intros (w & tl & E & H). symmetry in E. apply app_eq_nil in E as [-> ->].
      now apply (accepts_nullable _ _ _ H).
  - rewrite orb_true_iff, IH. split.
    + intros [H|(w & tl & -> & H)].
      * exists [], (c :: p). split; [reflexivity | now apply nullable_accepts].
      * exists (c :: w), tl. split; [reflexivity | now apply deriv_accepts].
    + intros (w & tl & E & H). destruct w as [|c' w].
      * left. now apply (accepts_nullable _ _ _ H).
      * cbn in E. injection E as <- ->. right.
        exists w, tl. split; [reflexivity | now apply (accepts_deriv _ _ _ H)].
Qed.

Lemma accepts_class_star k w :
  forall bot,
    accepts bot (regexp.OpStar (regexp.OpCharClass k)) w
    <-> Forall (fun c => regexp.classHas k c = true) w.
Proof.
  induction w as [|c w IH]; intros bot.
  - split; constructor.
  - split.
    + intros H. inversion H as [| | | | | | |? ? ? w1 w2 H1 H2|]; subst.
      inversion H1; subst. cbn. constructor; [assumption | now apply (IH false)].
    + intros H. inversion H as [|? ? Hc Hw]; subst.
      apply (acceptsStarStep bot _ c [] w); [now constructor | now apply IH].
Qed.

Lemma accepts_class_plus k w bot :
  accepts bot (regexp.OpPlus (regexp.OpCharClass k)) w
  <-> w <> [] /\ Forall (fun c => regexp.classHas k c = true) w.
Proof.
  split.
  - intros H. inversion H as [| | | | | | | |? ? w1 w2 H1 H2]; subst.
    inversion H1; subst. cbn. split; [discriminate|].
    constructor; [assumption | now apply accepts_class_star in H2].
  - intros [Hne H]. destruct H as [|c w Hc Hw]; [congruence|].
    apply (acceptsPlus bot _ [c] w); [now constructor | now apply accepts_class_star].
Qed.

(** A pattern that starts with [^] matches at the beginning of the text
    or nowhere. *)
Lemma matchFrom_anchored r p :
  regexp.matchFrom true (regexp.OpConcat regexp.OpBeginText r) p = true
  <-> exists w tl, p = w ++ tl /\ accepts true r w.
Proof.
  assert (Hlater : forall q,
             regexp.matchHere false (regexp.OpConcat regexp.OpBeginText r) q = false).
  { intros q. destruct (regexp.matchHere false _ q) eqn:E; [|reflexivity].
    apply matchHere_accepts in E as (w & tl & _ & H).
    inversion H as [| | |? ? ? w1 w2 H1 H2| | | | |]; subst. inversion H1. }
  assert (Hfalse : forall q,
             regexp.matchFrom false (regexp.OpConcat regexp.OpBeginText r) q = false).
  { induction q as [|c q IH]; cbn [regexp.matchFrom]; rewrite Hlater; [reflexivity|].
    rewrite IH. reflexivity. }
  assert (Hhere : regexp.matchFrom true (regexp.OpConcat regexp.OpBeginText r) p
                  = regexp.matchHere true (regexp.OpConcat regexp.OpBeginText r) p).
  { destruct p as [|c p]; cbn [regexp.matchFrom];
      [apply orb_false_r | rewrite Hfalse; apply orb_false_r]. }
  rewrite Hhere, matchHere_accepts. split.
  - intros (w & tl & -> & H).
    inversion H as [| | |? ? ? w1 w2 H1 H2| | | | |]; subst.
    inversion H1; subst. cbn in H2. eauto.
  - intros (w & tl & -> & H). exists w, tl. split; [reflexivity|].
    apply (acceptsConcat true _ _ [] w); [constructor | exact H].
Qed.

(** [^\s*\d+\s+\d+] matches the strings that start with optional white
    space, a number, white space and a number. *)
Lemma dataRegexBAT_spec s :
  regexp.MatchString dataRegexBAT s = true
  <-> exists ws d1 sp d2 tl,
        bytes s = ws ++ d1 ++ sp ++ d2 ++ tl
        /\ Forall (fun c => regexp.classHas regexp.ClassSpace c = true) ws
        /\ d1 <> [] /\ Forall (fun c => regexp.classHas regexp.ClassDigit c = true) d1
        /\ sp <> [] /\ Forall (fun c => regexp.classHas regexp.ClassSpace c = true) sp
        /\ d2 <> [] /\ Forall (fun c => regexp.classHas regexp.ClassDigit c = true) d2.
Proof.
  unfold regexp.MatchString, dataRegexBAT. rewrite matchFrom_anchored. split.
  - intros (w & tl & E & H).
    inversion H as [| | |? ? ? ws w1 Hws H1| | | | |]; subst.
    inversion H1 as [| | |? ? ? d1 w2 Hd1 H2| | | | |]; subst.
    inversion H2 as [| | |? ? ? sp d2 Hsp Hd2| | | | |]; subst.
    apply accepts_class_star in Hws.
    apply accepts_class_plus in Hd1 as [? ?], Hsp as [? ?], Hd2 as [? ?].
    exists ws, d1, sp, d2, tl. rewrite E, <- !app_assoc. auto 10.
  - intros (ws & d1 & sp & d2 & tl & E & Hws & Hn1 & Hd1 & Hns & Hsp & Hn2 & Hd2).
    exists (ws ++ d1 ++ sp ++ d2), tl. split; [now rewrite E, <- !app_assoc|].
    repeat apply acceptsConcat;
      first [now apply accepts_class_star | now apply accepts_class_plus].
Qed.

(** [^\s*\d+\s+] matches the strings that start with optional white space,
    a number and white space. *)
Lemma dataRegexPWR_spec s :
  regexp.MatchString dataRegexPWR s = true
  <-> exists ws d1 sp tl,
        bytes s = ws ++ d1 ++ sp ++ tl
        /\ Forall (fun c => regexp.classHas regexp.ClassSpace c = true) ws
        /\ d1 <> [] /\ Forall (fun c => regexp.classHas regexp.ClassDigit c = true) d1
        /\ sp <> [] /\ Forall (fun c => regexp.classHas regexp.ClassSpace c = true) sp.
Proof.
  unfold regexp.MatchString, dataRegexPWR. rewrite matchFrom_anchored. split.
  - intros (w & tl & E & H).
    inversion H as [| | |? ? ? ws w1 Hws H1| | | | |]; subst.
    inversion H1 as [| | |? ? ? d1 sp Hd1 Hsp| | | | |]; subst.
    apply accepts_class_star in Hws.
    apply accepts_class_plus in Hd1 as [? ?], Hsp as [? ?].
    exists ws, d1, sp, tl. rewrite E, <- !app_assoc. auto 10.
  - intros (ws & d1 & sp & tl & E & Hws & Hn1 & Hd1 & Hns & Hsp).
    exists (ws ++ d1 ++ sp), tl. split; [now rewrite E, <- !app_assoc|].
    repeat apply acceptsConcat;
      first [now apply accepts_class_star | now apply accepts_class_plus].
Qed.

(** ** The loop bodies, case by case *)

Lemma dataLineBAT_true line :
  dataLineBAT line = true ->
  negb (regexp.MatchString dataRegexBAT (strings.TrimSpace line))
  || bool_decide (strings.TrimSpace line = "") = false.
Proof. unfold dataLineBAT. intros H. now apply negb_true_iff in H. Qed.

Lemma dataLineBAT_false line :
  dataLineBAT line = false ->
  negb (regexp.MatchString dataRegexBAT (strings.TrimSpace line))
  || bool_decide (strings.TrimSpace line = "") = true.
Proof. unfold dataLineBAT. intros H. now apply negb_false_iff in H. Qed.

Lemma dataLinePWR_true line :
  dataLinePWR line = true ->
  negb (regexp.MatchString dataRegexPWR (strings.TrimSpace line))
  || strings.Contains (strings.TrimSpace line) "Absent"
  || bool_decide (strings.TrimSpace line = "") = false.
Proof. unfold dataLinePWR. intros H. now apply negb_true_iff in H. Qed.

Lemma dataLinePWR_false line :
  dataLinePWR line = false ->
  negb (regexp.MatchString dataRegexPWR (strings.TrimSpace line))
  || strings.Contains (strings.TrimSpace line) "Absent"
  || bool_decide (strings.TrimSpace line = "") = true.
Proof. unfold dataLinePWR. intros H. now apply negb_false_iff in H. Qed.

Lemma batLine_noise lineIdx line st :
  dataLineBAT line = false -> batLine lineIdx line st = Done st.
Proof. intros H. unfold batLine. now rewrite (dataLineBAT_false _ H). Qed.

Lemma pwrLine_noise lineIdx line st :
  dataLinePWR line = false -> pwrLine lineIdx line st = Done st.
Proof. intros H. unfold pwrLine. now rewrite (dataLinePWR_false _ H). Qed.

Lemma batLine_short lineIdx line st :
  dataLineBAT line = true ->
  (length (strings.Fields (strings.TrimSpace line)) < 12)%nat ->
  batLine lineIdx line st =
  Done (mkState (results st) (logged st ++ [structuralSkipBAT lineIdx line])).
Proof.
  intros H Hlen. unfold batLine. rewrite (dataLineBAT_true _ H).
  apply Nat.ltb_lt in Hlen. now rewrite Hlen.
Qed.

Lemma pwrLine_short lineIdx line st :
  dataLinePWR line = true ->
  (length (strings.Fields (strings.TrimSpace line)) < 19)%nat ->
  pwrLine lineIdx line st =
  Done (mkState (results st) (logged st ++ [structuralSkipPWR lineIdx line])).
Proof.
  intros H Hlen. unfold pwrLine. rewrite (dataLinePWR_true _ H).
  apply Nat.ltb_lt in Hlen. now rewrite Hlen.
Qed.

(** Opens a loop body on a data line whose fields are known. *)
Ltac open_body Hdata Hfields :=
  first [ unfold batLine; rewrite (dataLineBAT_true _ Hdata)
        | unfold pwrLine; rewrite (dataLinePWR_true _ Hdata) ];
  rewrite Hfields;
  cbn [length Nat.ltb Nat.leb index lookup list_lookup mbind exec_bind].

Lemma failed_false_iff (r : Z * option error) : failed r = false <-> r.2 = None.
Proof. unfold failed. destruct r as [v [e|]]; cbn; split; congruence. Qed.

(** A data line of twelve fields or more whose four critical fields decode
    is assembled into one record; SOC and capacity hold the sentinel when
    their decoder failed, and each such failure is logged once. *)
Lemma batLine_record lineIdx line st f0 f1 f2 f3 f4 f5 f6 f7 f8 f9 f10 f11 rest
    id volt curr temp :
  dataLineBAT line = true ->
  strings.Fields (strings.TrimSpace line)
  = f0 :: f1 :: f2 :: f3 :: f4 :: f5 :: f6 :: f7 :: f8 :: f9 :: f10 :: f11 :: rest ->
  parseInt f0 "BAT ID" = (id, None) ->
  parseInt f1 "BAT Volt" = (volt, None) ->
  parseInt f2 "BAT Curr" = (curr, None) ->
  parseInt f3 "BAT Temp" = (temp, None) ->
  batLine lineIdx line st =
  Done (mkState
          (results st ++
             [BatteryStatus.mk id volt curr temp (parseBaseState f4) f5 f6 f7
                (orSentinel (parseSOC f8)) (orSentinel (parseCoulomb f9 f10)) f11])
          (logged st ++ socWarningBAT id lineIdx line (parseSOC f8)
                     ++ coulombWarningBAT id lineIdx (parseCoulomb f9 f10))).
Proof.
  intros Hdata Hfields H0 H1 H2 H3.
  open_body Hdata Hfields.
  rewrite H0, H1, H2, H3.
  unfold orSentinel, failed, socWarningBAT, coulombWarningBAT.
  destruct (parseSOC f8) as [soc [e8|]], (parseCoulomb f9 f10) as [cl [e9|]];
    cbn; unfold appendResult, logPrintf; cbn;
    rewrite <- ?app_assoc, ?app_nil_r; reflexivity.
Qed.

(** A data line of twelve fields or more one of whose critical fields does
    not decode leaves the records as they are and logs once. *)
Lemma batLine_critical lineIdx line st f0 f1 f2 f3 rest :
  dataLineBAT line = true ->
  strings.Fields (strings.TrimSpace line) = f0 :: f1 :: f2 :: f3 :: rest ->
  (12 <= length (strings.Fields (strings.TrimSpace line)))%nat ->
  failed (parseInt f0 "BAT ID") || failed (parseInt f1 "BAT Volt")
  || failed (parseInt f2 "BAT Curr") || failed (parseInt f3 "BAT Temp") = true ->
  exists format ops,
    batLine lineIdx line st =
    Done (mkState (results st) (logged st ++ [Printf format ops])).
Proof.
  intros Hdata Hfields Hlen Hfail.
  rewrite Hfields in Hlen.
  do 8 (destruct rest as [|? rest]; [cbn in Hlen; lia|]).
  open_body Hdata Hfields.
  unfold failed in Hfail.
  destruct (parseInt f0 "BAT ID") as [id [e0|]]; [unfold logPrintf; eauto|].
  destruct (parseInt f1 "BAT Volt") as [volt [e1|]]; [unfold logPrintf; eauto|].
  destruct (parseInt f2 "BAT Curr") as [curr [e2|]]; [unfold logPrintf; eauto|].
  destruct (parseInt f3 "BAT Temp") as [temp [e3|]]; [unfold logPrintf; eauto|].
  discriminate Hfail.
Qed.

Lemma pwrLine_record lineIdx line st
    f0 f1 f2 f3 f4 f5 f6 f7 f8 f9 f10 f11 f12 f13 f14 f15 f16 f17 f18 rest
    id volt curr temp :
  dataLinePWR line = true ->
  strings.Fields (strings.TrimSpace line)
  = f0 :: f1 :: f2 :: f3 :: f4 :: f5 :: f6 :: f7 :: f8 :: f9 :: f10 :: f11
    :: f12 :: f13 :: f14 :: f15 :: f16 :: f17 :: f18 :: rest ->
  parseInt f0 "PWR ID" = (id, None) ->
  parseInt f1 "PWR Volt" = (volt, None) ->
  parseInt f2 "PWR Curr" = (curr, None) ->
  parseInt f3 "PWR Temp (Board)" = (temp, None) ->
  pwrLine lineIdx line st =
  Done (mkState
          (results st ++
             [PowerStatus.mk id volt curr temp (parseBaseState f8) f9 f10 f11
                (orSentinel (parseSOC f12)) f15 f16 f17 f18])
          (logged st ++ socWarningPWR id lineIdx (parseSOC f12))).
Proof.
  intros Hdata Hfields H0 H1 H2 H3.
  open_body Hdata Hfields.
  rewrite H0, H1, H2, H3.
  unfold orSentinel, failed, socWarningPWR.
  destruct (parseSOC f12) as [soc [e|]];
    cbn; unfold appendResult, logPrintf; cbn;
    rewrite ?app_nil_r; reflexivity.
Qed.

Lemma pwrLine_critical lineIdx line st f0 f1 f2 f3 rest :
  dataLinePWR line = true ->
  strings.Fields (strings.TrimSpace line) = f0 :: f1 :: f2 :: f3 :: rest ->
  (19 <= length (strings.Fields (strings.TrimSpace line)))%nat ->
  failed (parseInt f0 "PWR ID") || failed (parseInt f1 "PWR Volt")
  || failed (parseInt f2 "PWR Curr") || failed (parseInt f3 "PWR Temp (Board)") = true ->
  exists format ops,
    pwrLine lineIdx line st =
    Done (mkState (results st) (logged st ++ [Printf format ops])).
Proof.
  intros Hdata Hfields Hlen Hfail.
  rewrite Hfields in Hlen.
  do 15 (destruct rest as [|? rest]; [cbn in Hlen; lia|]).
  open_body Hdata Hfields.
  unfold failed in Hfail.
  destruct (parseInt f0 "PWR ID") as [id [e0|]]; [unfold logPrintf; eauto|].
  destruct (parseInt f1 "PWR Volt") as [volt [e1|]]; [unfold logPrintf; eauto|].
  destruct (parseInt f2 "PWR Curr") as [curr [e2|]]; [unfold logPrintf; eauto|].
  destruct (parseInt f3 "PWR Temp (Board)") as [temp [e3|]]; [unfold logPrintf; eauto|].
  discriminate Hfail.
Qed.

Lemma batLine_effect lineIdx line st :
  exists st', batLine lineIdx line st = Done st' /\ lineEffect st st'.
Proof.
  destruct (dataLineBAT line) eqn:Hdata.
  2:{ exists st. split; [now apply batLine_noise | destruct st; constructor]. }
  destruct (Nat.lt_ge_cases (length (strings.Fields (strings.TrimSpace line))) 12)
    as [Hlen|Hlen].
  { eexists. split; [now apply batLine_short | apply effectLog]. }
  destruct (strings.Fields (strings.TrimSpace line)) as [|f0 fields] eqn:Hfields;
    [cbn in Hlen; lia|].
  do 11 (destruct fields as [|? fields]; [cbn in Hlen; lia|]).
  destruct (failed (parseInt f0 "BAT ID") || failed (parseInt s "BAT Volt")
            || failed (parseInt s0 "BAT Curr") || failed (parseInt s1 "BAT Temp"))
    eqn:Hfail.
  - destruct (batLine_critical lineIdx line st _ _ _ _ _ Hdata Hfields) as (fm & ops & E);
      [rewrite Hfields; exact Hlen | exact Hfail |].
    eexists. split; [exact E | apply effectLog].
  - apply orb_false_iff in Hfail as [Hfail H3].
    apply orb_false_iff in Hfail as [Hfail H2].
    apply orb_false_iff in Hfail as [H0 H1].
    apply failed_false_iff in H0, H1, H2, H3.
    destruct (parseInt f0 "BAT ID") as [id e0] eqn:E0.
    destruct (parseInt s "BAT Volt") as [volt e1] eqn:E1.
    destruct (parseInt s0 "BAT Curr") as [curr e2] eqn:E2.
    destruct (parseInt s1 "BAT Temp") as [temp e3] eqn:E3.
    cbn in H0, H1, H2, H3. subst.
    eexists. split.
    + eapply batLine_record; eauto.
    + apply effectRecord.
      apply Forall_app. split.
      * unfold socWarningBAT. destruct (parseSOC _).2; repeat constructor.
      * unfold coulombWarningBAT. destruct (parseCoulomb _ _).2; repeat constructor.
Qed.

Lemma pwrLine_effect lineIdx line st :
  exists st', pwrLine lineIdx line st = Done st' /\ lineEffect st st'.
Proof.
  destruct (dataLinePWR line) eqn:Hdata.
  2:{ exists st. split; [now apply pwrLine_noise | destruct st; constructor]. }
  destruct (Nat.lt_ge_cases (length (strings.Fields (strings.TrimSpace line))) 19)
    as [Hlen|Hlen].
  { eexists. split; [now apply pwrLine_short | apply effectLog]. }
  destruct (strings.Fields (strings.TrimSpace line)) as [|f0 fields] eqn:Hfields;
    [cbn in Hlen; lia|].
  do 18 (destruct fields as [|? fields]; [cbn in Hlen; lia|]).
  destruct (failed (parseInt f0 "PWR ID") || failed (parseInt s "PWR Volt")
            || failed (parseInt s0 "PWR Curr") || failed (parseInt s1 "PWR Temp (Board)"))
    eqn:Hfail.
  - destruct (pwrLine_critical lineIdx line st _ _ _ _ _ Hdata Hfields) as (fm & ops & E);
      [rewrite Hfields; exact Hlen | exact Hfail |].
    eexists. split; [exact E | apply effectLog].
  - apply orb_false_iff in Hfail as [Hfail H3].
    apply orb_false_iff in Hfail as [Hfail H2].
    apply orb_false_iff in Hfail as [H0 H1].
    apply failed_false_iff in H0, H1, H2, H3.
    destruct (parseInt f0 "PWR ID") as [id e0] eqn:E0.
    destruct (parseInt s "PWR Volt") as [volt e1] eqn:E1.
    destruct (parseInt s0 "PWR Curr") as [curr e2] eqn:E2.
    destruct (parseInt s1 "PWR Temp (Board)") as [temp e3] eqn:E3.
    cbn in H0, H1, H2, H3. subst.
    eexists. split.
    + eapply pwrLine_record; eauto.
    + apply effectRecord.
      unfold socWarningPWR. destruct (parseSOC _).2; repeat constructor.
Qed.

(** ** The loops *)

Section Loop.
Context {A : Type} (body : nat -> string -> loopState A -> exec (loopState A)).
Hypothesis body_effect :
  forall lineIdx line st,
    exists st', body lineIdx line st = Done st' /\ lineEffect st st'.

Lemma forRange_step lineIdx line later st st' :
  body lineIdx line st = Done st' ->
  forRange body lineIdx (line :: later) st = forRange body (S lineIdx) later st'.
Proof. intros H. cbn. now rewrite H. Qed.

(** The loop runs to its end; it only appends to the records and to the
    log, and what it logs are calls of [Printf]. *)
Lemma forRange_effect lines :
  forall lineIdx st,
    exists recs lg,
      forRange body lineIdx lines st
      = Done (mkState (results st ++ recs) (logged st ++ lg))
      /\ Forall (fun e => isPrintf e = true) lg.
Proof.
  induction lines as [|line later IH]; intros lineIdx st.
  - exists [], []. cbn. rewrite !app_nil_r. destruct st; split; [reflexivity | constructor].
  - destruct (body_effect lineIdx line st) as (st' & E & Heff).
    rewrite (forRange_step _ _ _ _ _ E).
    destruct (IH (S lineIdx) st') as (recs & lg & E' & Hlg).
    rewrite E'. destruct Heff as [|format ops|a warns Hw]; cbn.
    + eauto.
    + exists recs, (Printf format ops :: lg). rewrite <- app_assoc. cbn.
      split; [reflexivity | now constructor].
    + exists (a :: recs), (warns ++ lg). rewrite <- !app_assoc. cbn.
      split; [reflexivity | now apply Forall_app].
Qed.
End Loop.

Lemma ParseBAT_unfold lines :
  exists recs lg,
    forRange batLine 0 lines (mkState [] []) = Done (mkState recs lg)
    /\ Forall (fun e => isPrintf e = true) lg
    /\ ParseBAT lines =
       Done (recs, None,
             lg ++ if (length recs =? 0)%nat && (0 <? length lines)%nat
                      && existsb (fun line =>
                           regexp.MatchString dataRegexBAT (strings.TrimSpace line)) lines
                   then [emptyWarningBAT] else []).
Proof.
  destruct (forRange_effect batLine batLine_effect lines 0%nat (mkState [] []))
    as (recs & lg & E & Hlg).
  cbn [results logged app] in E.
  exists recs, lg. split; [exact E|]. split; [exact Hlg|].
  unfold ParseBAT. rewrite E. cbn [mbind exec_bind results logged].
  destruct ((length recs =? 0)%nat && (0 <? length lines)%nat); cbn [andb].
  - destruct (existsb _ lines); cbn; rewrite ?app_nil_r; reflexivity.
  - cbn. rewrite app_nil_r. reflexivity.
Qed.

Lemma ParsePWR_unfold lines :
  exists recs lg,
    forRange pwrLine 0 lines (mkState [] []) = Done (mkState recs lg)
    /\ Forall (fun e => isPrintf e = true) lg
    /\ ParsePWR lines =
       Done (recs, None,
             lg ++ if (length recs =? 0)%nat && (0 <? length lines)%nat
                      && existsb (fun line =>
                           regexp.MatchString dataRegexPWR (strings.TrimSpace line)
                           && negb (strings.Contains line "Absent")) lines
                   then [emptyWarningPWR] else []).
Proof.
  destruct (forRange_effect pwrLine pwrLine_effect lines 0%nat (mkState [] []))
    as (recs & lg & E & Hlg).
  cbn [results logged app] in E.
  exists recs, lg. split; [exact E|]. split; [exact Hlg|].
  unfold ParsePWR. rewrite E. cbn [mbind exec_bind results logged].
  destruct ((length recs =? 0)%nat && (0 <? length lines)%nat); cbn [andb].
  - destruct (existsb _ lines); cbn; rewrite ?app_nil_r; reflexivity.
  - cbn. rewrite app_nil_r. reflexivity.
Qed.

(** ** Critical and non-critical fields *)

(** C1. On a data line with enough fields, a decoding failure of the
    identity, voltage, current or temperature field discards the line: no
    record is appended, one diagnostic is logged, and the loop goes on with
    the next line.  When the four decode, one record is appended whatever
    the SOC and capacity fields are; a field of these whose decoder failed
    holds the sentinel -1, the other fields hold what was decoded. *)
Theorem critical_discard_noncritical_sentinel :
  (forall lineIdx line st f0 f1 f2 f3 f4 f5 f6 f7 f8 f9 f10 f11 rest,
      dataLineBAT line = true ->
      strings.Fields (strings.TrimSpace line)
      = f0 :: f1 :: f2 :: f3 :: f4 :: f5 :: f6 :: f7 :: f8 :: f9 :: f10 :: f11 :: rest ->
      (failed (parseInt f0 "BAT ID") || failed (parseInt f1 "BAT Volt")
       || failed (parseInt f2 "BAT Curr") || failed (parseInt f3 "BAT Temp") = true ->
       exists diag,
         batLine lineIdx line st = Done (mkState (results st) (logged st ++ [diag]))
         /\ forall later,
              forRange batLine lineIdx (line :: later) st
              = forRange batLine (S lineIdx) later
                         (mkState (results st) (logged st ++ [diag])))
      /\ (failed (parseInt f0 "BAT ID") || failed (parseInt f1 "BAT Volt")
          || failed (parseInt f2 "BAT Curr") || failed (parseInt f3 "BAT Temp") = false ->
          exists r warns,
            batLine lineIdx line st
            = Done (mkState (results st ++ [r]) (logged st ++ warns))
            /\ r = BatteryStatus.mk
                     (parseInt f0 "BAT ID").1 (parseInt f1 "BAT Volt").1
                     (parseInt f2 "BAT Curr").1 (parseInt f3 "BAT Temp").1
                     (parseBaseState f4) f5 f6 f7
                     (if failed (parseSOC f8) then -1 else (parseSOC f8).1)
                     (if failed (parseCoulomb f9 f10) then -1
                      else (parseCoulomb f9 f10).1)
                     f11))
  /\
  (forall lineIdx line st
          f0 f1 f2 f3 f4 f5 f6 f7 f8 f9 f10 f11 f12 f13 f14 f15 f16 f17 f18 rest,
      dataLinePWR line = true ->
      strings.Fields (strings.TrimSpace line)
      = f0 :: f1 :: f2 :: f3 :: f4 :: f5 :: f6 :: f7 :: f8 :: f9 :: f10 :: f11
        :: f12 :: f13 :: f14 :: f15 :: f16 :: f17 :: f18 :: rest ->
      (failed (parseInt f0 "PWR ID") || failed (parseInt f1 "PWR Volt")
       || failed (parseInt f2 "PWR Curr") || failed (parseInt f3 "PWR Temp (Board)")
       = true ->
       exists diag,
         pwrLine lineIdx line st = Done (mkState (results st) (logged st ++ [diag]))
         /\ forall later,
              forRange pwrLine lineIdx (line :: later) st
              = forRange pwrLine (S lineIdx) later
                         (mkState (results st) (logged st ++ [diag])))
      /\ (failed (parseInt f0 "PWR ID") || failed (parseInt f1 "PWR Volt")
          || failed (parseInt f2 "PWR Curr") || failed (parseInt f3 "PWR Temp (Board)")
          = false ->
          exists r warns,
            pwrLine lineIdx line st
            = Done (mkState (results st ++ [r]) (logged st ++ warns))
            /\ r = PowerStatus.mk
                     (parseInt f0 "PWR ID").1 (parseInt f1 "PWR Volt").1
                     (parseInt f2 "PWR Curr").1 (parseInt f3 "PWR Temp (Board)").1
                     (parseBaseState f8) f9 f10 f11
                     (if failed (parseSOC f12) then -1 else (parseSOC f12).1)
                     f15 f16 f17 f18)).
Proof.
  split.
  - intros lineIdx line st f0 f1 f2 f3 f4 f5 f6 f7 f8 f9 f10 f11 rest Hdata Hfields.
    split.
    + intros Hfail.
      destruct (batLine_critical lineIdx line st _ _ _ _ _ Hdata Hfields)
        as (fm & ops & E); [rewrite Hfields; cbn; lia | exact Hfail |].
      exists (Printf fm ops). split; [exact E|].
      intros later. now apply forRange_step.
    + intros Hok.
      apply orb_false_iff in Hok as [Hok H3].
      apply orb_false_iff in Hok as [Hok H2].
      apply orb_false_iff in Hok as [H0 H1].
      apply failed_false_iff in H0, H1, H2, H3.
      destruct (parseInt f0 "BAT ID") as [id e0] eqn:E0.
      destruct (parseInt f1 "BAT Volt") as [volt e1] eqn:E1.
      destruct (parseInt f2 "BAT Curr") as [curr e2] eqn:E2.
      destruct (parseInt f3 "BAT Temp") as [temp e3] eqn:E3.
      cbn in H0, H1, H2, H3. subst. cbn [fst].
      eexists _, _. split; [eapply batLine_record; eauto | reflexivity].
  - intros lineIdx line st f0 f1 f2 f3 f4 f5 f6 f7 f8 f9 f10 f11 f12 f13 f14 f15 f16
           f17 f18 rest Hdata Hfields.
    split.
    + intros Hfail.
      destruct (pwrLine_critical lineIdx line st _ _ _ _ _ Hdata Hfields)
        as (fm & ops & E); [rewrite Hfields; cbn; lia | exact Hfail |].
      exists (Printf fm ops). split; [exact E|].
      intros later. now apply forRange_step.
    + intros Hok.
      apply orb_false_iff in Hok as [Hok H3].
      apply orb_false_iff in Hok as [Hok H2].
      apply orb_false_iff in Hok as [H0 H1].
      apply failed_false_iff in H0, H1, H2, H3.
      destruct (parseInt f0 "PWR ID") as [id e0] eqn:E0.
      destruct (parseInt f1 "PWR Volt") as [volt e1] eqn:E1.
      destruct (parseInt f2 "PWR Curr") as [curr e2] eqn:E2.
      destruct (parseInt f3 "PWR Temp (Board)") as [temp e3] eqn:E3.
      cbn in H0, H1, H2, H3. subst. cbn [fst].
      eexists _, _. split; [eapply pwrLine_record; eauto | reflexivity].
Qed.

Lemma critical_discard_noncritical_sentinel_witness :
  (exists diag,
      batLine 0 "1 3750 x 301 Charge Normal Normal Normal 85% 3450 mAH 0000"
              (mkState [] [])
      = Done (mkState [] [diag]))
  /\ (exists r warns,
      batLine 0 "1 3750 0 301 Charge Normal Normal Normal n/a 34x mAH 0000"
              (mkState [] [])
      = Done (mkState [r] warns)
      /\ r = BatteryStatus.mk 1 3750 0 301 0 "Normal" "Normal" "Normal" (-1) (-1) "0000")
  /\ (exists diag,
      pwrLine 0 "1 49000 0 25.0 251 252 253 254 Idle Normal Normal Normal 85% d t Normal Normal 260 Normal"
              (mkState [] [])
      = Done (mkState [] [diag]))
  /\ (exists r warns,
      pwrLine 0 "1 49000 0 250 251 252 253 254 Idle Normal Normal Normal - d t Normal Normal 260 Normal"
              (mkState [] [])
      = Done (mkState [r] warns)
      /\ r = PowerStatus.mk 1 49000 0 250 2 "Normal" "Normal" "Normal" (-1)
                            "Normal" "Normal" "260" "Normal").
Proof.
  destruct critical_discard_noncritical_sentinel as [Hb Hp].
  split.
  { destruct (Hb 0%nat "1 3750 x 301 Charge Normal Normal Normal 85% 3450 mAH 0000"
                 (mkState [] [])
                 "1" "3750" "x" "301" "Charge" "Normal" "Normal" "Normal" "85%" "3450"
                 "mAH" "0000" [])
      as [Hfail _]; [vm_compute; reflexivity | vm_compute; reflexivity |].
    destruct Hfail as (diag & E & _); [vm_compute; reflexivity|].
    exists diag. exact E. }
  split.
  { destruct (Hb 0%nat "1 3750 0 301 Charge Normal Normal Normal n/a 34x mAH 0000"
                 (mkState [] [])
                 "1" "3750" "0" "301" "Charge" "Normal" "Normal" "Normal" "n/a" "34x"
                 "mAH" "0000" [])
      as [_ Hok]; [vm_compute; reflexivity | vm_compute; reflexivity |].
    destruct Hok as (r & warns & E & Hr); [vm_compute; reflexivity|].
    exists r, warns. split; [exact E | rewrite Hr; vm_compute; reflexivity]. }
  split.
  { destruct (Hp 0%nat
                 "1 49000 0 25.0 251 252 253 254 Idle Normal Normal Normal 85% d t Normal Normal 260 Normal"
                 (mkState [] [])
                 "1" "49000" "0" "25.0" "251" "252" "253" "254" "Idle" "Normal" "Normal"
                 "Normal" "85%" "d" "t" "Normal" "Normal" "260" "Normal" [])
      as [Hfail _]; [vm_compute; reflexivity | vm_compute; reflexivity |].
    destruct Hfail as (diag & E & _); [vm_compute; reflexivity|].
    exists diag. exact E. }
  { destruct (Hp 0%nat
                 "1 49000 0 250 251 252 253 254 Idle Normal Normal Normal - d t Normal Normal 260 Normal"
                 (mkState [] [])
                 "1" "49000" "0" "250" "251" "252" "253" "254" "Idle" "Normal" "Normal"
                 "Normal" "-" "d" "t" "Normal" "Normal" "260" "Normal" [])
      as [_ Hok]; [vm_compute; reflexivity | vm_compute; reflexivity |].
    destruct Hok as (r & warns & E & Hr); [vm_compute; reflexivity|].
    exists r, warns. split; [exact E | rewrite Hr; vm_compute; reflexivity]. }
Defined.

(** ** Lines that contain "Absent" *)

(** C2. In power parsing a line that contains "Absent" is
    noise whatever its prefix: the iteration changes neither the records nor
    the log and the loop goes on.  Battery parsing has no such rule: there a
    line is a data line exactly when it has the numeric prefix. *)
Theorem absent_line_is_power_noise :
  forall line : string,
    strings.Contains line "Absent" = true ->
    dataLinePWR line = false
    /\ (forall lineIdx st, pwrLine lineIdx line st = Done st)
    /\ (forall lineIdx later st,
           forRange pwrLine lineIdx (line :: later) st
           = forRange pwrLine (S lineIdx) later st)
    /\ dataLineBAT line = regexp.MatchString dataRegexBAT (strings.TrimSpace line).
Proof.
  intros line Habs.
  assert (Hnoise : dataLinePWR line = false).
  { rewrite dataLinePWR_match, Habs. apply andb_false_r. }
  split; [exact Hnoise|]. split; [|split].
  - intros lineIdx st. now apply pwrLine_noise.
  - intros lineIdx later st. apply forRange_step. now apply pwrLine_noise.
  - apply dataLineBAT_match.
Qed.

Lemma absent_line_is_power_noise_witness :
  dataLinePWR "2 52000 0 250 Absent" = false
  /\ pwrLine 0 "2 52000 0 250 Absent" (mkState [] []) = Done (mkState [] []).
Proof.
  destruct (absent_line_is_power_noise "2 52000 0 250 Absent") as (Hn & Hl & _);
    [vm_compute; reflexivity|].
  split; [exact Hn | apply Hl].
Defined.

(** In battery parsing a line with the numeric prefix that contains
    "Absent" is a data line and yields a record: "Absent" does not make a
    line noise there. *)
Lemma absent_line_bat_yields_record :
  strings.Contains
    "1 3750 0 301 Charge Normal Normal Normal 85% 3450 mAH Absent" "Absent" = true
  /\ dataLineBAT "1 3750 0 301 Charge Normal Normal Normal 85% 3450 mAH Absent" = true
  /\ ParseBAT ["1 3750 0 301 Charge Normal Normal Normal 85% 3450 mAH Absent"]
     = Done ([BatteryStatus.mk 1 3750 0 301 0 "Normal" "Normal" "Normal" 85 3450 "Absent"],
             None, [])
  /\ ~ (forall line : string,
          strings.Contains line "Absent" = true ->
          dataLineBAT line = false
          /\ forall lineIdx st, batLine lineIdx line st = Done st).
Proof.
  split; [vm_compute; reflexivity|].
  split; [vm_compute; reflexivity|].
  split; [vm_compute; reflexivity|].
  intros H.
  destruct (H "1 3750 0 301 Charge Normal Normal Normal 85% 3450 mAH Absent")
    as [Hnoise _]; [vm_compute; reflexivity|].
  vm_compute in Hnoise. discriminate Hnoise.
Qed.

(** ** The batch parsers return a nil error *)

(** C3. Whatever the lines are, [ParseBAT] and [ParsePWR] return (they do
    not panic), and the error they return is [nil]. *)
Theorem batch_parse_returns_nil_error :
  forall lines : list string,
    (exists recs lg, ParseBAT lines = Done (recs, None, lg))
    /\ (exists recs lg, ParsePWR lines = Done (recs, None, lg)).
Proof.
  intros lines. split.
  - destruct (ParseBAT_unfold lines) as (recs & lg & _ & _ & E). rewrite E. eauto.
  - destruct (ParsePWR_unfold lines) as (recs & lg & _ & _ & E). rewrite E. eauto.
Qed.

(** ** Structural rejection and slice bounds *)

(** C4. A battery data line of fewer than 12 fields, and a power data line
    of fewer than 19, adds no record and logs the structural skip, once.  A
    line that is not a data line is left before its fields are counted: it
    adds no record and logs nothing, however few its fields are.  So a line
    of too few fields never adds a record, and it logs the structural skip
    exactly when it is a data line.  No iteration of either loop panics:
    every [fields[i]] it evaluates, up to [fields[11]] and [fields[18]], is
    within the slice.  The fields that the loops count, those of the trimmed
    line, are the fields of the line. *)
Theorem short_line_structural_skip :
  (forall lineIdx line st,
      dataLineBAT line = true ->
      (length (strings.Fields (strings.TrimSpace line)) < 12)%nat ->
      batLine lineIdx line st =
      Done (mkState (results st) (logged st ++ [structuralSkipBAT lineIdx line])))
  /\ (forall lineIdx line st,
      dataLinePWR line = true ->
      (length (strings.Fields (strings.TrimSpace line)) < 19)%nat ->
      pwrLine lineIdx line st =
      Done (mkState (results st) (logged st ++ [structuralSkipPWR lineIdx line])))
  /\ (forall lineIdx line st,
      (length (strings.Fields (strings.TrimSpace line)) < 12)%nat ->
      exists st', batLine lineIdx line st = Done st' /\ results st' = results st)
  /\ (forall lineIdx line st,
      (length (strings.Fields (strings.TrimSpace line)) < 19)%nat ->
      exists st', pwrLine lineIdx line st = Done st' /\ results st' = results st)
  /\ (forall lineIdx line st, exists st', batLine lineIdx line st = Done st')
  /\ (forall lineIdx line st, exists st', pwrLine lineIdx line st = Done st')
  /\ (forall (fields : list string) i,
      (12 <= length fields)%nat -> (i <= 11)%nat -> exists f, index fields i = Done f)
  /\ (forall (fields : list string) i,
      (19 <= length fields)%nat -> (i <= 18)%nat -> exists f, index fields i = Done f)
  /\ (forall (fields : list string) i,
      (length fields <= i)%nat -> exists msg, index fields i = Panic msg)
  /\ (forall line, strings.Fields (strings.TrimSpace line) = strings.Fields line)
  /\ (forall lineIdx line st,
      dataLineBAT line = false -> batLine lineIdx line st = Done st)
  /\ (forall lineIdx line st,
      dataLinePWR line = false -> pwrLine lineIdx line st = Done st)
  /\ (forall lineIdx line st,
      (length (strings.Fields line) < 12)%nat ->
      batLine lineIdx line st =
      Done (if dataLineBAT line
            then mkState (results st) (logged st ++ [structuralSkipBAT lineIdx line])
            else st))
  /\ (forall lineIdx line st,
      (length (strings.Fields line) < 19)%nat ->
      pwrLine lineIdx line st =
      Done (if dataLinePWR line
            then mkState (results st) (logged st ++ [structuralSkipPWR lineIdx line])
            else st)).
Proof.
  split; [exact batLine_short|]. split; [exact pwrLine_short|].
  split.
  { intros lineIdx line st Hlen. destruct (dataLineBAT line) eqn:Hdata.
    - rewrite (batLine_short _ _ _ Hdata Hlen). eauto.
    - rewrite (batLine_noise _ _ _ Hdata). eauto. }
  split.
  { intros lineIdx line st Hlen. destruct (dataLinePWR line) eqn:Hdata.
    - rewrite (pwrLine_short _ _ _ Hdata Hlen). eauto.
    - rewrite (pwrLine_noise _ _ _ Hdata). eauto. }
  split.
  { intros lineIdx line st. destruct (batLine_effect lineIdx line st) as (st' & E & _). eauto. }
  split.
  { intros lineIdx line st. destruct (pwrLine_effect lineIdx line st) as (st' & E & _). eauto. }
  split.
  { intros fields i Hlen Hi. destruct (index_in_bounds fields i) as (f & _ & E); [lia | eauto]. }
  split.
  { intros fields i Hlen Hi. destruct (index_in_bounds fields i) as (f & _ & E); [lia | eauto]. }
  split; [intros fields i Hlen; now apply index_out_of_bounds|].
  split; [exact Fields_TrimSpace|].
  split; [intros lineIdx line st Hdata; now apply batLine_noise|].
  split; [intros lineIdx line st Hdata; now apply pwrLine_noise|].
  split.
  - intros lineIdx line st Hlen. rewrite <- Fields_TrimSpace in Hlen.
    destruct (dataLineBAT line) eqn:Hdata.
    + now apply batLine_short.
    + now apply batLine_noise.
  - intros lineIdx line st Hlen. rewrite <- Fields_TrimSpace in Hlen.
    destruct (dataLinePWR line) eqn:Hdata.
    + now apply pwrLine_short.
    + now apply pwrLine_noise.
Qed.

Lemma short_line_structural_skip_witness :
  batLine 3 "3 4" (mkState [] []) = Done (mkState [] [structuralSkipBAT 3 "3 4"])
  /\ pwrLine 0 " 7 52000 1" (mkState [] [])
     = Done (mkState [] [structuralSkipPWR 0 " 7 52000 1"])
  /\ (exists st', batLine 0 "Battery Volt" (mkState [] []) = Done st' /\ results st' = [])
  /\ (exists st', pwrLine 0 "Power Volt" (mkState [] []) = Done st' /\ results st' = [])
  /\ (exists f, index (replicate 12 "x") 11 = Done f)
  /\ (exists f, index (replicate 19 "x") 18 = Done f)
  /\ (exists msg, index (replicate 11 "x") 11 = Panic msg)
  /\ batLine 0 "Battery Volt" (mkState [] []) = Done (mkState [] [])
  /\ pwrLine 0 "7" (mkState [] []) = Done (mkState [] []).
Proof.
  destruct short_line_structural_skip
    as (Hb & Hp & Hb' & Hp' & _ & _ & Hi12 & Hi19 & Hpanic & _ & Hnb & Hnp & _).
  split; [apply (Hb 3%nat "3 4" (mkState [] [])); [vm_compute; reflexivity | vm_compute; lia]|].
  split; [apply (Hp 0%nat " 7 52000 1" (mkState [] [])); [vm_compute; reflexivity | vm_compute; lia]|].
  split; [apply (Hb' 0%nat "Battery Volt" (mkState [] [])); vm_compute; lia|].
  split; [apply (Hp' 0%nat "Power Volt" (mkState [] [])); vm_compute; lia|].
  split; [apply (Hi12 (replicate 12 "x") 11%nat); vm_compute; lia|].
  split; [apply (Hi19 (replicate 19 "x") 18%nat); vm_compute; lia|].
  split; [apply (Hpanic (replicate 11 "x") 11%nat); vm_compute; lia|].
  split; [apply (Hnb 0%nat "Battery Volt" (mkState [] [])); vm_compute; reflexivity|].
  apply (Hnp 0%nat "7" (mkState [] [])); vm_compute; reflexivity.
Defined.

(** Lines of too few fields that log nothing: a power line of one number
    has no white space after it once trimmed, a battery line of one number
    has no second one, and neither has a battery line whose second field
    starts with a sign or whose first field is not a number throughout.
    None is a data line; each is left silently.  So it does not hold of
    every line of too few fields that the structural skip is logged. *)
Lemma short_line_without_diagnostic :
  (length (strings.Fields "7") < 19)%nat
  /\ dataLinePWR "7" = false
  /\ ParsePWR ["7"] = Done ([], None, [])
  /\ (length (strings.Fields "5") < 12)%nat
  /\ dataLineBAT "5" = false
  /\ ParseBAT ["5"] = Done ([], None, [])
  /\ (length (strings.Fields "12abc 3") < 12)%nat
  /\ ParseBAT ["12abc 3"] = Done ([], None, [])
  /\ (length (strings.Fields "1 -3750 0 301") < 12)%nat
  /\ ParseBAT ["1 -3750 0 301"] = Done ([], None, [])
  /\ ~ (forall lineIdx line st,
          (length (strings.Fields line) < 12)%nat ->
          exists st', batLine lineIdx line st = Done st'
                      /\ results st' = results st
                      /\ structuralSkipBAT lineIdx line ∈ logged st')
  /\ ~ (forall lineIdx line st,
          (length (strings.Fields line) < 19)%nat ->
          exists st', pwrLine lineIdx line st = Done st'
                      /\ results st' = results st
                      /\ structuralSkipPWR lineIdx line ∈ logged st').
Proof.
  split; [vm_compute; lia|]. split; [vm_compute; reflexivity|].
  split; [vm_compute; reflexivity|].
  split; [vm_compute; lia|]. split; [vm_compute; reflexivity|].
  split; [vm_compute; reflexivity|].
  split; [vm_compute; lia|]. split; [vm_compute; reflexivity|].
  split; [vm_compute; lia|]. split; [vm_compute; reflexivity|].
  split.
  - intros H. destruct (H 0%nat "5" (mkState [] [])) as (st' & E & _ & Hin);
      [vm_compute; lia|].
    vm_compute in E. injection E as <-. cbn in Hin. now apply elem_of_nil in Hin.
  - intros H. destruct (H 0%nat "7" (mkState [] [])) as (st' & E & _ & Hin);
      [vm_compute; lia|].
    vm_compute in E. injection E as <-. cbn in Hin. now apply elem_of_nil in Hin.
Qed.

(** ** The state decoder *)

(** C5. [parseBaseState] is a total function of the token: the four state
    names map to 0, 1, 2 and 3, every other token, "N/A" among them, maps
    to -1; the function returns a plain [int8], with no error result. *)
Theorem parseBaseState_total :
  parseBaseState "Charge" = 0 /\ parseBaseState "Dischg" = 1
  /\ parseBaseState "Idle" = 2 /\ parseBaseState "Balance" = 3
  /\ parseBaseState "N/A" = -1
  /\ forall s : string,
      parseBaseState s =
      if bool_decide (s = "Charge") then 0
      else if bool_decide (s = "Dischg") then 1
      else if bool_decide (s = "Idle") then 2
      else if bool_decide (s = "Balance") then 3
      else -1.
Proof.
  do 5 (split; [vm_compute; reflexivity|]).
  intros s. unfold parseBaseState, baseStateMap.
  repeat case_bool_decide; subst; try reflexivity.
  rewrite !lookup_insert_ne by congruence.
  destruct (decide (s = "N/A")) as [->|Hne]; [reflexivity|].
  rewrite lookup_insert_ne by congruence. now rewrite lookup_empty.
Qed.

(** ** The percentage decoder *)

Lemma parseSOC_ok s n :
  strconv.Atoi (strings.TrimSuffix s "%") = (n, None) -> parseSOC s = (int8 n, None).
Proof. intros H. unfold parseSOC. now rewrite H. Qed.

Lemma parseSOC_failed s :
  failed (parseSOC s) = failed (strconv.Atoi (strings.TrimSuffix s "%")).
Proof.
  unfold parseSOC. now destruct (strconv.Atoi _) as [n [e|]].
Qed.

Lemma parseSOC_ok_iff s v :
  parseSOC s = (v, None)
  <-> exists n, decimalValue (strings.TrimSuffix s "%") = Some n
                /\ - 2 ^ 63 <= n < 2 ^ 63 /\ v = int8 n.
Proof.
  unfold parseSOC. split.
  - destruct (strconv.Atoi _) as [n [e|]] eqn:E; [discriminate|].
    intros [= <-]. apply Atoi_ok_iff in E as [? ?]. eauto.
  - intros (n & Hd & Hr & ->).
    rewrite (proj2 (Atoi_ok_iff _ n)) by auto. reflexivity.
Qed.

(** C6. [parseSOC] strips one trailing '%' when there is one, parses what
    is left with [Atoi], that is as a decimal numeral that fits in an [int],
    and narrows the number to [int8]; it fails exactly when [Atoi] fails.
    "85%" and "85" decode to 85 and "abc" fails; a battery line whose SOC
    field fails is still assembled, with -1 as its SOC. *)
Theorem parseSOC_percent_decoder :
  (forall t, strings.TrimSuffix (t +:+ "%") "%" = t)
  /\ (forall s, (forall t, s <> t +:+ "%") -> strings.TrimSuffix s "%" = s)
  /\ (forall s n,
        strconv.Atoi (strings.TrimSuffix s "%") = (n, None) ->
        parseSOC s = (int8 n, None))
  /\ (forall s, failed (parseSOC s) = failed (strconv.Atoi (strings.TrimSuffix s "%")))
  /\ (forall s v,
        parseSOC s = (v, None)
        <-> exists n, decimalValue (strings.TrimSuffix s "%") = Some n
                      /\ - 2 ^ 63 <= n < 2 ^ 63 /\ v = int8 n)
  /\ (forall n, -128 <= int8 n <= 127 /\ (int8 n - n) mod 256 = 0)
  /\ (forall n, -128 <= n <= 127 -> int8 n = n)
  /\ parseSOC "85%" = (85, None)
  /\ parseSOC "85" = (85, None)
  /\ failed (parseSOC "abc") = true
  /\ (forall lineIdx line st f0 f1 f2 f3 f4 f5 f6 f7 f8 f9 f10 f11 rest
             id volt curr temp,
        dataLineBAT line = true ->
        strings.Fields (strings.TrimSpace line)
        = f0 :: f1 :: f2 :: f3 :: f4 :: f5 :: f6 :: f7 :: f8 :: f9 :: f10 :: f11 :: rest ->
        parseInt f0 "BAT ID" = (id, None) ->
        parseInt f1 "BAT Volt" = (volt, None) ->
        parseInt f2 "BAT Curr" = (curr, None) ->
        parseInt f3 "BAT Temp" = (temp, None) ->
        failed (parseSOC f8) = true ->
        exists r warns,
          batLine lineIdx line st
          = Done (mkState (results st ++ [r]) (logged st ++ warns))
          /\ BatteryStatus.SOC r = -1
          /\ BatteryStatus.ID r = id /\ BatteryStatus.Volt r = volt
          /\ BatteryStatus.Curr r = curr /\ BatteryStatus.Temp r = temp
          /\ BatteryStatus.Coulomb r = orSentinel (parseCoulomb f9 f10)
          /\ BatteryStatus.BAL r = f11)
  /\ exists warning,
       ParseBAT ["1 3750 0 301 Charge Normal Normal Normal abc 3450 mAH 0000000000000000"]
       = Done ([BatteryStatus.mk 1 3750 0 301 0 "Normal" "Normal" "Normal" (-1) 3450
                  "0000000000000000"],
               None, [warning]).
Proof.
  split; [exact TrimSuffix_percent|].
  split; [exact TrimSuffix_no_percent|].
  split; [exact parseSOC_ok|].
  split; [exact parseSOC_failed|].
  split; [exact parseSOC_ok_iff|].
  split; [intros n; split; [apply int8_range | apply int8_congruent]|].
  split; [exact int8_small|].
  split; [vm_compute; reflexivity|].
  split; [vm_compute; reflexivity|].
  split; [vm_compute; reflexivity|].
  split.
  - intros lineIdx line st f0 f1 f2 f3 f4 f5 f6 f7 f8 f9 f10 f11 rest id volt curr temp
           Hdata Hfields H0 H1 H2 H3 Hsoc.
    eexists _, _. split; [eapply batLine_record; eauto|].
    cbn. unfold orSentinel at 1. rewrite Hsoc. repeat split; reflexivity.
  - eexists. vm_compute. reflexivity.
Qed.

Lemma parseSOC_percent_decoder_witness :
  strings.TrimSuffix "85" "%" = "85"
  /\ parseSOC "-7%" = (-7, None)
  /\ (exists n, decimalValue (strings.TrimSuffix "85%" "%") = Some n
                /\ - 2 ^ 63 <= n < 2 ^ 63 /\ 85 = int8 n)
  /\ int8 127 = 127
  /\ exists r warns,
       batLine 0 "1 3750 0 301 Charge Normal Normal Normal abc 3450 mAH 0000"
               (mkState [] [])
       = Done (mkState [r] warns)
       /\ BatteryStatus.SOC r = -1.
Proof.
  destruct parseSOC_percent_decoder
    as (_ & Hno & Hok & _ & Hiff & _ & Hsmall & _ & _ & _ & Hrec & _).
  split.
  { apply (Hno "85"). intros t E. apply (f_equal bytes) in E.
    rewrite bytes_append in E. apply (f_equal (@rev ascii)) in E.
    rewrite rev_app_distr in E. cbn in E. discriminate E. }
  split; [apply (Hok "-7%" (-7)); vm_compute; reflexivity|].
  split; [apply (Hiff "85%" 85); vm_compute; reflexivity|].
  split; [apply (Hsmall 127); lia|].
  destruct (Hrec 0%nat "1 3750 0 301 Charge Normal Normal Normal abc 3450 mAH 0000"
                 (mkState [] [])
                 "1" "3750" "0" "301" "Charge" "Normal" "Normal" "Normal" "abc" "3450"
                 "mAH" "0000" [] 1 3750 0 301)
    as (r & warns & E & Hsoc & _); try (vm_compute; reflexivity).
  exists r, warns. split; [exact E | exact Hsoc].
Defined.

(** ** The sample battery line *)

(** C7. The sample line of the specification is assembled into exactly one
    record with the stated fields, and nothing is logged. *)
Theorem ParseBAT_sample_line :
  ParseBAT ["1 3750 0 301 Charge Normal Normal Normal 85% 3450 mAH 0000000000000000"]
  = Done ([BatteryStatus.mk 1 3750 0 301 0 "Normal" "Normal" "Normal" 85 3450
             "0000000000000000"],
          None, []).
Proof. vm_compute. reflexivity. Qed.

(** ** Token positions of a power record *)

Lemma results_grow_neq {A} (l : list A) a : l <> l ++ [a].
Proof.
  intros E. apply (f_equal length) in E. rewrite length_app in E. cbn in E. lia.
Qed.

(** C8. When an iteration of the loop of [ParsePWR] on a line of 19 fields
    or more appends a record, the state of the record is the state decoder
    applied to field 8 ("Idle" gives 2) and its Coulomb field holds what the
    percentage decoder returns for field 12 (-1 when that decoder fails). *)
Theorem pwr_state_and_coulomb_positions :
  forall lineIdx line st st' r,
    (19 <= length (strings.Fields line))%nat ->
    pwrLine lineIdx line st = Done st' ->
    results st' = results st ++ [r] ->
    exists f8 f12,
      strings.Fields line !! 8%nat = Some f8
      /\ strings.Fields line !! 12%nat = Some f12
      /\ PowerStatus.BaseState r = parseBaseState f8
      /\ (f8 = "Idle" -> PowerStatus.BaseState r = 2)
      /\ (forall v, parseSOC f12 = (v, None) -> PowerStatus.Coulomb r = v)
      /\ (failed (parseSOC f12) = true -> PowerStatus.Coulomb r = -1).
Proof.
  intros lineIdx line st st' r Hlen Hrun Hres.
  rewrite <- (Fields_TrimSpace line) in *.
  destruct (dataLinePWR line) eqn:Hdata.
  2:{ rewrite (pwrLine_noise _ _ _ Hdata) in Hrun. injection Hrun as <-.
      now apply results_grow_neq in Hres. }
  destruct (strings.Fields (strings.TrimSpace line)) as [|f0 fields] eqn:Hfields;
    [cbn in Hlen; lia|].
  do 18 (destruct fields as [|? fields]; [cbn in Hlen; lia|]).
  destruct (failed (parseInt f0 "PWR ID") || failed (parseInt s "PWR Volt")
            || failed (parseInt s0 "PWR Curr") || failed (parseInt s1 "PWR Temp (Board)"))
    eqn:Hfail.
  { destruct (pwrLine_critical lineIdx line st _ _ _ _ _ Hdata Hfields) as (fm & ops & E);
      [rewrite Hfields; exact Hlen | exact Hfail |].
    rewrite E in Hrun. injection Hrun as <-. cbn in Hres.
    now apply results_grow_neq in Hres. }
  apply orb_false_iff in Hfail as [Hfail H3].
  apply orb_false_iff in Hfail as [Hfail H2].
  apply orb_false_iff in Hfail as [H0 H1].
  apply failed_false_iff in H0, H1, H2, H3.
  destruct (parseInt f0 "PWR ID") as [id e0] eqn:E0.
  destruct (parseInt s "PWR Volt") as [volt e1] eqn:E1.
  destruct (parseInt s0 "PWR Curr") as [curr e2] eqn:E2.
  destruct (parseInt s1 "PWR Temp (Board)") as [temp e3] eqn:E3.
  cbn in H0, H1, H2, H3. subst.
  rewrite (pwrLine_record lineIdx line st _ _ _ _ _ _ _ _ _ _ _ _ _ _ _ _ _ _ _ _
             id volt curr temp Hdata Hfields E0 E1 E2 E3) in Hrun.
  injection Hrun as <-. cbn [results] in Hres.
  apply app_inv_head in Hres. injection Hres as <-.
  exists s6, s10. cbn [PowerStatus.BaseState PowerStatus.Coulomb].
  split; [reflexivity|]. split; [reflexivity|]. split; [reflexivity|].
  split; [intros ->; reflexivity|].
  unfold orSentinel. split.
  - intros v Hv. rewrite Hv. reflexivity.
  - intros Hf. rewrite Hf. reflexivity.
Qed.

Lemma pwr_state_and_coulomb_positions_witness :
  exists st' r,
    pwrLine 0 "1 49000 0 250 251 252 253 254 Idle Normal Normal Normal 85% d t Normal Normal 260 Normal"
            (mkState [] [])
    = Done st'
    /\ results st' = [r]
    /\ PowerStatus.BaseState r = 2
    /\ PowerStatus.Coulomb r = 85.
Proof.
  eexists (mkState [_] _), _. split; [vm_compute; reflexivity|].
  split; [reflexivity|].
  edestruct (pwr_state_and_coulomb_positions 0%nat
    "1 49000 0 250 251 252 253 254 Idle Normal Normal Normal 85% d t Normal Normal 260 Normal"
    (mkState [] []))
    as (f8 & f12 & H8 & H12 & _ & Hidle & Hsoc & _);
    [vm_compute; lia | vm_compute; reflexivity | reflexivity |].
  vm_compute in H8, H12. injection H8 as <-. injection H12 as <-.
  split; [apply Hidle; reflexivity | apply Hsoc; vm_compute; reflexivity].
Defined.

(** ** The batch-level warning *)

Lemma existsb_elem_of {A} (f : A -> bool) (l : list A) :
  existsb f l = true <-> exists x, x ∈ l /\ f x = true.
Proof.
  rewrite existsb_exists. split; intros (x & Hx & Hf); exists x; split; auto;
    now apply list_elem_of_In.
Qed.

Lemma existsb_pointwise {A} (f g : A -> bool) (l : list A) :
  (forall x, f x = g x) -> existsb f l = existsb g l.
Proof. intros H. induction l as [|x l IH]; cbn; [reflexivity | now rewrite H, IH]. Qed.

Lemma existsb_nonempty {A} (f : A -> bool) (l : list A) :
  existsb f l = true -> (0 <? length l)%nat = true.
Proof. destruct l; [discriminate | reflexivity]. Qed.

Lemma length_zero_nil {A} (l : list A) : (length l =? 0)%nat = true <-> l = [].
Proof. destruct l; cbn; split; congruence. Qed.

Lemma Println_not_logged msg lg :
  Forall (fun e => isPrintf e = true) lg -> Println msg ∉ lg.
Proof.
  intros Hlg Hin. rewrite Forall_forall in Hlg. apply Hlg in Hin. discriminate Hin.
Qed.

(** C9. The log of a batch parse is what the lines logged, none of which
    is the batch-level warning, followed by that warning when, and only
    when, some line is a data line and no record was assembled.  On the
    empty input nothing is returned and nothing is logged. *)
Theorem empty_data_warning_iff :
  (forall lines recs err lg,
      ParseBAT lines = Done (recs, err, lg) ->
      ((emptyWarningBAT ∈ lg)
       <-> (exists line, line ∈ lines /\ dataLineBAT line = true) /\ recs = [])
      /\ exists perLine,
           forRange batLine 0 lines (mkState [] []) = Done (mkState recs perLine)
           /\ (emptyWarningBAT ∉ perLine)
           /\ (lg = perLine ++ [emptyWarningBAT] \/ lg = perLine))
  /\ (forall lines recs err lg,
      ParsePWR lines = Done (recs, err, lg) ->
      ((emptyWarningPWR ∈ lg)
       <-> (exists line, line ∈ lines /\ dataLinePWR line = true) /\ recs = [])
      /\ exists perLine,
           forRange pwrLine 0 lines (mkState [] []) = Done (mkState recs perLine)
           /\ (emptyWarningPWR ∉ perLine)
           /\ (lg = perLine ++ [emptyWarningPWR] \/ lg = perLine))
  /\ ParseBAT [] = Done ([], None, [])
  /\ ParsePWR [] = Done ([], None, []).
Proof.
  split; [|split; [|split; reflexivity]].
  - intros lines recs err lg E.
    destruct (ParseBAT_unfold lines) as (recs' & perLine & Eloop & Hlg & E').
    rewrite E' in E. injection E as <- <- <-.
    pose proof (Println_not_logged _ _ Hlg : emptyWarningBAT ∉ perLine) as Hnot.
    rewrite (existsb_pointwise _ dataLineBAT) by (intros; now rewrite dataLineBAT_match).
    split.
    + destruct (existsb dataLineBAT lines) eqn:Hex.
      * rewrite (existsb_nonempty _ _ Hex), andb_true_r.
        apply existsb_elem_of in Hex.
        destruct (length recs' =? 0)%nat eqn:Hrecs.
        -- apply length_zero_nil in Hrecs. split; [auto|].
           intros _. apply elem_of_app. right. apply list_elem_of_singleton. reflexivity.
        -- rewrite app_nil_r. split; [contradiction|].
           intros [_ ->]. discriminate Hrecs.
      * rewrite andb_false_r, app_nil_r. split; [contradiction|].
        intros [Hex' _]. apply existsb_elem_of in Hex'. congruence.
    + exists perLine. split; [exact Eloop|]. split; [exact Hnot|].
      match goal with |- context [if ?b then _ else _] => destruct b end;
        [left; reflexivity | right; apply app_nil_r].
  - intros lines recs err lg E.
    destruct (ParsePWR_unfold lines) as (recs' & perLine & Eloop & Hlg & E').
    rewrite E' in E. injection E as <- <- <-.
    pose proof (Println_not_logged _ _ Hlg : emptyWarningPWR ∉ perLine) as Hnot.
    rewrite (existsb_pointwise _ dataLinePWR) by (intros; now rewrite dataLinePWR_match).
    split.
    + destruct (existsb dataLinePWR lines) eqn:Hex.
      * rewrite (existsb_nonempty _ _ Hex), andb_true_r.
        apply existsb_elem_of in Hex.
        destruct (length recs' =? 0)%nat eqn:Hrecs.
        -- apply length_zero_nil in Hrecs. split; [auto|].
           intros _. apply elem_of_app. right. apply list_elem_of_singleton. reflexivity.
        -- rewrite app_nil_r. split; [contradiction|].
           intros [_ ->]. discriminate Hrecs.
      * rewrite andb_false_r, app_nil_r. split; [contradiction|].
        intros [Hex' _]. apply existsb_elem_of in Hex'. congruence.
    + exists perLine. split; [exact Eloop|]. split; [exact Hnot|].
      match goal with |- context [if ?b then _ else _] => destruct b end;
        [left; reflexivity | right; apply app_nil_r].
Qed.

Lemma empty_data_warning_iff_witness :
  ((emptyWarningBAT ∈ [structuralSkipBAT 0 "1 2"; emptyWarningBAT])
   <-> (exists line, line ∈ ["1 2"] /\ dataLineBAT line = true)
       /\ @nil BatteryStatus.t = [])
  /\ ((emptyWarningPWR ∈ @nil logEntry)
      <-> (exists line, line ∈ ["Power Volt"; "2 - Absent"] /\ dataLinePWR line = true)
          /\ @nil PowerStatus.t = []).
Proof.
  destruct empty_data_warning_iff as (Hb & Hp & _).
  split.
  - destruct (Hb ["1 2"] [] None [structuralSkipBAT 0 "1 2"; emptyWarningBAT])
      as [Hiff _]; [vm_compute; reflexivity | exact Hiff].
  - destruct (Hp ["Power Volt"; "2 - Absent"] [] None [])
      as [Hiff _]; [vm_compute; reflexivity | exact Hiff].
Defined.

(** ** Values outside the [int8] range *)

(** C10. When the token without its '%' is a numeral that [Atoi] accepts
    and whose value [n] is outside [-128, 127], [parseSOC] does not fail: it
    returns the number in [-128, 127] congruent to [n] modulo 2^8, which is
    not [n], and is -1 only for [n] congruent to 255.  "200%" gives -56.
    The record of such a battery line holds the wrapped value as its SOC,
    and no SOC warning is logged. *)
Theorem parseSOC_wraps_out_of_range :
  (forall tok n,
      strconv.Atoi (strings.TrimSuffix tok "%") = (n, None) ->
      n < -128 \/ 127 < n ->
      parseSOC tok = (int8 n, None)
      /\ failed (parseSOC tok) = false
      /\ -128 <= int8 n <= 127
      /\ (int8 n - n) mod 2 ^ 8 = 0
      /\ int8 n <> n
      /\ (int8 n = -1 <-> n mod 2 ^ 8 = 255))
  /\ parseSOC "200%" = (-56, None)
  /\ (forall lineIdx line st f0 f1 f2 f3 f4 f5 f6 f7 f8 f9 f10 f11 rest
             id volt curr temp n,
        dataLineBAT line = true ->
        strings.Fields (strings.TrimSpace line)
        = f0 :: f1 :: f2 :: f3 :: f4 :: f5 :: f6 :: f7 :: f8 :: f9 :: f10 :: f11 :: rest ->
        parseInt f0 "BAT ID" = (id, None) ->
        parseInt f1 "BAT Volt" = (volt, None) ->
        parseInt f2 "BAT Curr" = (curr, None) ->
        parseInt f3 "BAT Temp" = (temp, None) ->
        strconv.Atoi (strings.TrimSuffix f8 "%") = (n, None) ->
        n < -128 \/ 127 < n ->
        batLine lineIdx line st
        = Done (mkState
                  (results st ++
                     [BatteryStatus.mk id volt curr temp (parseBaseState f4) f5 f6 f7
                        (int8 n) (orSentinel (parseCoulomb f9 f10)) f11])
                  (logged st ++ coulombWarningBAT id lineIdx (parseCoulomb f9 f10)))).
Proof.
  split; [|split; [vm_compute; reflexivity|]].
  - intros tok n Hatoi Hout.
    pose proof (parseSOC_ok _ _ Hatoi) as E.
    split; [exact E|]. split; [rewrite E; reflexivity|].
    split; [apply int8_range|]. split; [apply int8_congruent|].
    split; [now apply int8_wraps | apply int8_sentinel].
  - intros lineIdx line st f0 f1 f2 f3 f4 f5 f6 f7 f8 f9 f10 f11 rest id volt curr temp n
           Hdata Hfields H0 H1 H2 H3 Hatoi Hout.
    rewrite (batLine_record lineIdx line st f0 f1 f2 f3 f4 f5 f6 f7 f8 f9 f10 f11 rest
               id volt curr temp Hdata Hfields H0 H1 H2 H3).
    rewrite (parseSOC_ok _ _ Hatoi). reflexivity.
Qed.

Lemma parseSOC_wraps_out_of_range_witness :
  (parseSOC "-129" = (int8 (-129), None) /\ int8 (-129) = 127)
  /\ batLine 0 "1 3750 0 301 Charge Normal Normal Normal 200% 3450 mAH 0000"
             (mkState [] [])
     = Done (mkState
               [BatteryStatus.mk 1 3750 0 301 0 "Normal" "Normal" "Normal" (-56) 3450
                  "0000"]
               []).
Proof.
  destruct parseSOC_wraps_out_of_range as (Hdec & _ & Hrec).
  split.
  - destruct (Hdec "-129" (-129)) as (E & _); [vm_compute; reflexivity | lia |].
    split; [exact E | vm_compute; reflexivity].
  - apply (Hrec 0%nat "1 3750 0 301 Charge Normal Normal Normal 200% 3450 mAH 0000"
                (mkState [] [])
                "1" "3750" "0" "301" "Charge" "Normal" "Normal" "Normal" "200%" "3450"
                "mAH" "0000" [] 1 3750 0 301 200);
      try (vm_compute; reflexivity). lia.
Defined.

(* ===================================================================== *)
(** * Properties of the batch parsers as a whole *)
(* ===================================================================== *)

(** ** Records do not depend on the position of a line *)

Lemma batLine_uniform lineIdx line st :
  (length (lineRecords batLine line) <= 1)%nat
  /\ (dataLineBAT line = false -> lineRecords batLine line = [])
  /\ exists lg,
       batLine lineIdx line st
       = Done (mkState (results st ++ lineRecords batLine line) (logged st ++ lg))
       /\ (length lg <= 2)%nat
       /\ (dataLineBAT line = false -> lg = []).
Proof.
  unfold lineRecords.
  destruct (dataLineBAT line) eqn:Hdata.
  2:{ rewrite !(batLine_noise _ _ _ Hdata). cbn. split; [lia|]. split; [reflexivity|].
      exists []. rewrite !app_nil_r. destruct st. auto. }
  destruct (Nat.lt_ge_cases (length (strings.Fields (strings.TrimSpace line))) 12)
    as [Hlen|Hlen].
  { rewrite !(batLine_short _ _ _ Hdata Hlen). cbn. split; [lia|].
    split; [discriminate|]. eexists. rewrite app_nil_r.
    split; [reflexivity|]. split; [cbn; lia | discriminate]. }
  destruct (strings.Fields (strings.TrimSpace line)) as [|f0 fields] eqn:Hfields;
    [cbn in Hlen; lia|].
  do 11 (destruct fields as [|? fields]; [cbn in Hlen; lia|]).
  destruct (failed (parseInt f0 "BAT ID") || failed (parseInt s "BAT Volt")
            || failed (parseInt s0 "BAT Curr") || failed (parseInt s1 "BAT Temp"))
    eqn:Hfail.
  - destruct (batLine_critical 0%nat line (mkState [] []) _ _ _ _ _ Hdata Hfields)
      as (fm0 & ops0 & E0); [rewrite Hfields; exact Hlen | exact Hfail |].
    destruct (batLine_critical lineIdx line st _ _ _ _ _ Hdata Hfields)
      as (fm & ops & E); [rewrite Hfields; exact Hlen | exact Hfail |].
    rewrite E0, E. cbn. split; [lia|]. split; [discriminate|].
    eexists. rewrite app_nil_r. split; [reflexivity|]. split; [cbn; lia | discriminate].
  - apply orb_false_iff in Hfail as [Hfail H3].
    apply orb_false_iff in Hfail as [Hfail H2].
    apply orb_false_iff in Hfail as [H0 H1].
    apply failed_false_iff in H0, H1, H2, H3.
    destruct (parseInt f0 "BAT ID") as [id e0] eqn:E0.
    destruct (parseInt s "BAT Volt") as [volt e1] eqn:E1.
    destruct (parseInt s0 "BAT Curr") as [curr e2] eqn:E2.
    destruct (parseInt s1 "BAT Temp") as [temp e3] eqn:E3.
    cbn in H0, H1, H2, H3. subst.
    rewrite !(batLine_record _ line _ _ _ _ _ _ _ _ _ _ _ _ _ _ id volt curr temp
                Hdata Hfields E0 E1 E2 E3).
    cbn. split; [lia|]. split; [discriminate|].
    eexists. split; [reflexivity|]. split; [|discriminate].
    rewrite length_app. unfold socWarningBAT, coulombWarningBAT.
    destruct (parseSOC _).2, (parseCoulomb _ _).2; cbn; lia.
Qed.

Lemma pwrLine_uniform lineIdx line st :
  (length (lineRecords pwrLine line) <= 1)%nat
  /\ (dataLinePWR line = false -> lineRecords pwrLine line = [])
  /\ exists lg,
       pwrLine lineIdx line st
       = Done (mkState (results st ++ lineRecords pwrLine line) (logged st ++ lg))
       /\ (length lg <= 1)%nat
       /\ (dataLinePWR line = false -> lg = []).
Proof.
  unfold lineRecords.
  destruct (dataLinePWR line) eqn:Hdata.
  2:{ rewrite !(pwrLine_noise _ _ _ Hdata). cbn. split; [lia|]. split; [reflexivity|].
      exists []. rewrite !app_nil_r. destruct st. auto. }
  destruct (Nat.lt_ge_cases (length (strings.Fields (strings.TrimSpace line))) 19)
    as [Hlen|Hlen].
  { rewrite !(pwrLine_short _ _ _ Hdata Hlen). cbn. split; [lia|].
    split; [discriminate|]. eexists. rewrite app_nil_r.
    split; [reflexivity|]. split; [cbn; lia | discriminate]. }
  destruct (strings.Fields (strings.TrimSpace line)) as [|f0 fields] eqn:Hfields;
    [cbn in Hlen; lia|].
  do 18 (destruct fields as [|? fields]; [cbn in Hlen; lia|]).
  destruct (failed (parseInt f0 "PWR ID") || failed (parseInt s "PWR Volt")
            || failed (parseInt s0 "PWR Curr") || failed (parseInt s1 "PWR Temp (Board)"))
    eqn:Hfail.
  - destruct (pwrLine_critical 0%nat line (mkState [] []) _ _ _ _ _ Hdata Hfields)
      as (fm0 & ops0 & E0); [rewrite Hfields; exact Hlen | exact Hfail |].
    destruct (pwrLine_critical lineIdx line st _ _ _ _ _ Hdata Hfields)
      as (fm & ops & E); [rewrite Hfields; exact Hlen | exact Hfail |].
    rewrite E0, E. cbn. split; [lia|]. split; [discriminate|].
    eexists. rewrite app_nil_r. split; [reflexivity|]. split; [cbn; lia | discriminate].
  - apply orb_false_iff in Hfail as [Hfail H3].
    apply orb_false_iff in Hfail as [Hfail H2].
    apply orb_false_iff in Hfail as [H0 H1].
    apply failed_false_iff in H0, H1, H2, H3.
    destruct (parseInt f0 "PWR ID") as [id e0] eqn:E0.
    destruct (parseInt s "PWR Volt") as [volt e1] eqn:E1.
    destruct (parseInt s0 "PWR Curr") as [curr e2] eqn:E2.
    destruct (parseInt s1 "PWR Temp (Board)") as [temp e3] eqn:E3.
    cbn in H0, H1, H2, H3. subst.
    rewrite !(pwrLine_record _ line _ _ _ _ _ _ _ _ _ _ _ _ _ _ _ _ _ _ _ _ _
                id volt curr temp Hdata Hfields E0 E1 E2 E3).
    cbn. split; [lia|]. split; [discriminate|].
    eexists. split; [reflexivity|]. split; [|discriminate].
    unfold socWarningPWR. destruct (parseSOC _).2; cbn; lia.
Qed.

Section LoopRecords.
Context {A : Type} (body : nat -> string -> loopState A -> exec (loopState A)).
Context (isData : string -> bool) (perLine : nat).
Hypothesis body_uniform :
  forall lineIdx line st,
    (length (lineRecords body line) <= 1)%nat
    /\ (isData line = false -> lineRecords body line = [])
    /\ exists lg,
         body lineIdx line st
         = Done (mkState (results st ++ lineRecords body line) (logged st ++ lg))
         /\ (length lg <= perLine)%nat
         /\ (isData line = false -> lg = []).

Lemma forRange_records lines :
  forall lineIdx st,
    exists lg,
      forRange body lineIdx lines st
      = Done (mkState (results st ++ concat (map (lineRecords body) lines))
                      (logged st ++ lg))
      /\ (length lg <= perLine * length lines)%nat
      /\ (Forall (fun line => isData line = false) lines -> lg = []).
Proof.
  induction lines as [|line later IH]; intros lineIdx st.
  - exists []. cbn. rewrite !app_nil_r. destruct st. split; [reflexivity|].
    split; [lia | reflexivity].
  - destruct (body_uniform lineIdx line st) as (_ & _ & lg1 & E & Hlen1 & Hnoise1).
    cbn [forRange]. rewrite E. cbn [mbind exec_bind].
    destruct (IH (S lineIdx) (mkState (results st ++ lineRecords body line)
                                      (logged st ++ lg1)))
      as (lg2 & E2 & Hlen2 & Hnoise2).
    rewrite E2. cbn [results logged map concat].
    exists (lg1 ++ lg2). rewrite <- !app_assoc. split; [reflexivity|].
    split.
    + rewrite length_app. cbn [length]. lia.
    + intros Hall. inversion Hall; subst.
      rewrite Hnoise1, Hnoise2 by assumption. reflexivity.
Qed.

Lemma concat_lineRecords_length lines :
  (length (concat (map (lineRecords body) lines))
   <= length (List.filter isData lines))%nat.
Proof.
  induction lines as [|line later IH]; [cbn; lia|].
  cbn [map concat List.filter]. rewrite length_app.
  destruct (body_uniform 0%nat line (mkState [] [])) as (Hone & Hnoise & _).
  destruct (isData line); [cbn [length]; lia|].
  rewrite Hnoise by reflexivity. cbn. lia.
Qed.

Lemma concat_lineRecords_filter lines :
  concat (map (lineRecords body) (List.filter isData lines))
  = concat (map (lineRecords body) lines).
Proof.
  induction lines as [|line later IH]; [reflexivity|].
  cbn [map concat List.filter].
  destruct (body_uniform 0%nat line (mkState [] [])) as (_ & Hnoise & _).
  destruct (isData line); [cbn [map concat]; now rewrite IH|].
  rewrite Hnoise by reflexivity. exact IH.
Qed.
End LoopRecords.

Lemma ParseBAT_records lines :
  exists lg,
    ParseBAT lines = Done (concat (map (lineRecords batLine) lines), None, lg)
    /\ (length lg <= 2 * length lines + 1)%nat
    /\ (Forall (fun line => dataLineBAT line = false) lines -> lg = []).
Proof.
  destruct (forRange_records batLine dataLineBAT 2 batLine_uniform lines 0%nat
              (mkState [] [])) as (lg & E & Hlen & Hnoise).
  cbn [results logged app] in E. unfold ParseBAT. rewrite E.
  cbn [mbind exec_bind results logged].
  destruct (existsb (fun line => regexp.MatchString dataRegexBAT (strings.TrimSpace line))
                    lines) eqn:Hex.
  - destruct ((length _ =? 0)%nat && (0 <? length lines)%nat); cbn [logPrintln results logged].
    + eexists. split; [reflexivity|]. split; [rewrite length_app; cbn; lia|].
      intros Hall. exfalso. apply existsb_exists in Hex as (line & Hin & Hm).
      rewrite Forall_forall in Hall. apply list_elem_of_In, Hall in Hin.
      rewrite dataLineBAT_match in Hin. congruence.
    + exists lg. split; [reflexivity|]. split; [lia | exact Hnoise].
  - exists lg. split; [|split; [lia | exact Hnoise]].
    destruct ((length _ =? 0)%nat && (0 <? length lines)%nat); reflexivity.
Qed.

Lemma ParsePWR_records lines :
  exists lg,
    ParsePWR lines = Done (concat (map (lineRecords pwrLine) lines), None, lg)
    /\ (length lg <= length lines + 1)%nat
    /\ (Forall (fun line => dataLinePWR line = false) lines -> lg = []).
Proof.
  destruct (forRange_records pwrLine dataLinePWR 1 pwrLine_uniform lines 0%nat
              (mkState [] [])) as (lg & E & Hlen & Hnoise).
  cbn [results logged app] in E. unfold ParsePWR. rewrite E.
  cbn [mbind exec_bind results logged].
  destruct (existsb (fun line =>
                       regexp.MatchString dataRegexPWR (strings.TrimSpace line)
                       && negb (strings.Contains line "Absent")) lines) eqn:Hex.
  - destruct ((length _ =? 0)%nat && (0 <? length lines)%nat); cbn [logPrintln results logged].
    + eexists. split; [reflexivity|]. split; [rewrite length_app; cbn; lia|].
      intros Hall. exfalso. apply existsb_exists in Hex as (line & Hin & Hm).
      rewrite Forall_forall in Hall. apply list_elem_of_In, Hall in Hin.
      rewrite dataLinePWR_match in Hin. congruence.
    + exists lg. split; [reflexivity|]. split; [lia | exact Hnoise].
  - exists lg. split; [|split; [lia | exact Hnoise]].
    destruct ((length _ =? 0)%nat && (0 <? length lines)%nat); reflexivity.
Qed.

Lemma recordsOf_ParseBAT lines :
  recordsOf (ParseBAT lines) = concat (map (lineRecords batLine) lines).
Proof. destruct (ParseBAT_records lines) as (lg & -> & _). reflexivity. Qed.

Lemma recordsOf_ParsePWR lines :
  recordsOf (ParsePWR lines) = concat (map (lineRecords pwrLine) lines).
Proof. destruct (ParsePWR_records lines) as (lg & -> & _). reflexivity. Qed.

(** X1. The records of a batch are the records of its parts, in order: a
    line yields the same record wherever it stands in the input, and
    whatever was parsed or logged before it. *)
Theorem batch_records_append :
  forall l1 l2 : list string,
    recordsOf (ParseBAT (l1 ++ l2)) = recordsOf (ParseBAT l1) ++ recordsOf (ParseBAT l2)
    /\ recordsOf (ParsePWR (l1 ++ l2))
       = recordsOf (ParsePWR l1) ++ recordsOf (ParsePWR l2).
Proof.
  intros l1 l2. rewrite !recordsOf_ParseBAT, !recordsOf_ParsePWR.
  rewrite !map_app, !concat_app. split; reflexivity.
Qed.

(** X2. Lines that are not data lines contribute nothing: removing them
    from the input leaves the records unchanged, and there are at most as
    many records as data lines. *)
Theorem batch_records_ignore_noise :
  forall lines : list string,
    recordsOf (ParseBAT (List.filter dataLineBAT lines)) = recordsOf (ParseBAT lines)
    /\ (length (recordsOf (ParseBAT lines)) <= length (List.filter dataLineBAT lines))%nat
    /\ recordsOf (ParsePWR (List.filter dataLinePWR lines)) = recordsOf (ParsePWR lines)
    /\ (length (recordsOf (ParsePWR lines)) <= length (List.filter dataLinePWR lines))%nat.
Proof.
  intros lines. rewrite !recordsOf_ParseBAT, !recordsOf_ParsePWR.
  split; [apply (concat_lineRecords_filter batLine dataLineBAT 2 batLine_uniform)|].
  split; [apply (concat_lineRecords_length batLine dataLineBAT 2 batLine_uniform)|].
  split; [apply (concat_lineRecords_filter pwrLine dataLinePWR 1 pwrLine_uniform)|].
  apply (concat_lineRecords_length pwrLine dataLinePWR 1 pwrLine_uniform).
Qed.

(** X3. An input without data lines (headers, blank lines, "Absent" slots
    in power parsing) is skipped in silence: no record, no error and nothing
    logged, not even the batch-level warning. *)
Theorem noise_only_batch_is_silent :
  (forall lines,
      Forall (fun line => dataLineBAT line = false) lines ->
      ParseBAT lines = Done ([], None, []))
  /\ (forall lines,
      Forall (fun line => dataLinePWR line = false) lines ->
      ParsePWR lines = Done ([], None, [])).
Proof.
  split; intros lines Hall.
  - destruct (ParseBAT_records lines) as (lg & E & _ & Hnoise).
    rewrite E, (Hnoise Hall).
    assert (concat (map (lineRecords batLine) lines) = []) as ->; [|reflexivity].
    clear E Hnoise. induction Hall as [|line later Hline _ IH]; [reflexivity|].
    cbn [map concat]. rewrite IH.
    destruct (batLine_uniform 0%nat line (mkState [] [])) as (_ & Hn & _).
    now rewrite (Hn Hline).
  - destruct (ParsePWR_records lines) as (lg & E & _ & Hnoise).
    rewrite E, (Hnoise Hall).
    assert (concat (map (lineRecords pwrLine) lines) = []) as ->; [|reflexivity].
    clear E Hnoise. induction Hall as [|line later Hline _ IH]; [reflexivity|].
    cbn [map concat]. rewrite IH.
    destruct (pwrLine_uniform 0%nat line (mkState [] [])) as (_ & Hn & _).
    now rewrite (Hn Hline).
Qed.

Lemma noise_only_batch_is_silent_witness :
  ParseBAT ["Battery  Volt  Curr  Tempr"; ""; "Command completed successfully"; "7 x"]
  = Done ([], None, [])
  /\ ParsePWR ["Power Volt Curr"; "  "; "2 - - - Absent - -"; "$$"] = Done ([], None, []).
Proof.
  destruct noise_only_batch_is_silent as [Hb Hp].
  split; [apply Hb | apply Hp]; repeat constructor.
Defined.

(** X4. A battery line logs at most two entries and a power line at most
    one, so a batch logs at most [2 * n + 1], respectively [n + 1], entries
    for [n] input lines. *)
Theorem batch_log_bounded :
  forall lines : list string,
    (length (loggedBy (ParseBAT lines)) <= 2 * length lines + 1)%nat
    /\ (length (loggedBy (ParsePWR lines)) <= length lines + 1)%nat.
Proof.
  intros lines. split.
  - destruct (ParseBAT_records lines) as (lg & -> & Hlen & _). exact Hlen.
  - destruct (ParsePWR_records lines) as (lg & -> & Hlen & _). exact Hlen.
Qed.

(** ** The leading fields of a data line *)

Lemma DecodeRune_ascii a p :
  byteVal a < 128 -> utf8.DecodeRune (a :: p) = (byteVal a, 1%nat).
Proof.
  intros H. unfold utf8.DecodeRune, utf8.first.
  replace (byteVal a <? 128) with true by lia. reflexivity.
Qed.

Lemma runes_ascii a p :
  byteVal a < 128 -> utf8.runes (a :: p) = (byteVal a, [a]) :: utf8.runes p.
Proof.
  intros H. destruct (runes_nonempty (a :: p)) as (r & w & E & _ & ->); [discriminate|].
  rewrite (DecodeRune_ascii a p H) in E. injection E as <- <-. reflexivity.
Qed.

Lemma classSpace_IsSpace c :
  regexp.classHas regexp.ClassSpace c = true ->
  byteVal c < 128 /\ unicode.IsSpace (byteVal c) = true.
Proof.
  unfold regexp.classHas, unicode.IsSpace, unicode.MaxLatin1, inRange.
  intros H. split; [lia|].
  replace (byteVal c <=? 255) with true by lia. lia.
Qed.

Lemma classDigit_not_space c :
  regexp.classHas regexp.ClassDigit c = true ->
  byteVal c < 128 /\ unicode.IsSpace (byteVal c) = false
  /\ 48 <= byteVal c <= 57.
Proof.
  unfold regexp.classHas, unicode.IsSpace, unicode.MaxLatin1, inRange.
  intros H. split; [lia|]. split; [|lia].
  replace (byteVal c <=? 255) with true by lia. lia.
Qed.

Lemma fieldsGo_skip_spaces ws rest :
  Forall (fun c => regexp.classHas regexp.ClassSpace c = true) ws ->
  strings.fieldsGo None (utf8.runes (ws ++ rest))
  = strings.fieldsGo None (utf8.runes rest).
Proof.
  induction 1 as [|c ws Hc _ IH]; [reflexivity|].
  apply classSpace_IsSpace in Hc as [Hlt Hsp].
  cbn [app]. rewrite (runes_ascii _ _ Hlt). cbn [strings.fieldsGo].
  unfold strings.isSpaceRune. cbn [fst]. rewrite Hsp. exact IH.
Qed.

Lemma fieldsGo_digits d rest :
  Forall (fun c => regexp.classHas regexp.ClassDigit c = true) d ->
  forall w,
    strings.fieldsGo (Some w) (utf8.runes (d ++ rest))
    = strings.fieldsGo (Some (w ++ d)) (utf8.runes rest).
Proof.
  induction 1 as [|c d Hc _ IH]; intros w; [now rewrite app_nil_r|].
  apply classDigit_not_space in Hc as (Hlt & Hsp & _).
  cbn [app]. rewrite (runes_ascii _ _ Hlt). cbn [strings.fieldsGo].
  unfold strings.isSpaceRune. cbn [fst snd default]. rewrite Hsp.
  rewrite IH, <- app_assoc. reflexivity.
Qed.

Lemma fieldsGo_first_digits d rest :
  Forall (fun c => regexp.classHas regexp.ClassDigit c = true) d -> d <> [] ->
  strings.fieldsGo None (utf8.runes (d ++ rest))
  = strings.fieldsGo (Some d) (utf8.runes rest).
Proof.
  intros Hd Hne. destruct Hd as [|c d Hc Hd]; [congruence|].
  apply classDigit_not_space in Hc as (Hlt & Hsp & _).
  cbn [app]. rewrite (runes_ascii _ _ Hlt). cbn [strings.fieldsGo].
  unfold strings.isSpaceRune. cbn [fst snd default app]. rewrite Hsp.
  now rewrite fieldsGo_digits.
Qed.

Lemma fieldsGo_close w sp rest :
  Forall (fun c => regexp.classHas regexp.ClassSpace c = true) sp -> sp <> [] ->
  strings.fieldsGo (Some w) (utf8.runes (sp ++ rest))
  = w :: strings.fieldsGo None (utf8.runes rest).
Proof.
  intros Hsp Hne. destruct Hsp as [|c sp Hc Hsp]; [congruence|].
  apply classSpace_IsSpace in Hc as [Hlt Hc].
  cbn [app]. rewrite (runes_ascii _ _ Hlt). cbn [strings.fieldsGo].
  unfold strings.isSpaceRune. cbn [fst]. rewrite Hc.
  now rewrite fieldsGo_skip_spaces.
Qed.

Lemma fieldsGo_open rs :
  forall w, exists x more, strings.fieldsGo (Some w) rs = (w ++ x) :: more.
Proof.
  induction rs as [|c rs IH]; intros w; cbn [strings.fieldsGo].
  - exists [], []. now rewrite app_nil_r.
  - destruct (strings.isSpaceRune c).
    + exists [], (strings.fieldsGo None rs). now rewrite app_nil_r.
    + change (default [] (Some w)) with w.
      destruct (IH (w ++ c.2)) as (x & more & ->).
      exists (c.2 ++ x), more. now rewrite app_assoc.
Qed.

(** On a battery data line the first field is a number and the second
    begins with one; on a power data line the first field is a number. *)
Lemma dataLineBAT_fields line :
  dataLineBAT line = true ->
  exists d1 d2 x more,
    strings.Fields (strings.TrimSpace line)
    = ofBytes d1 :: ofBytes (d2 ++ x) :: more
    /\ d1 <> [] /\ Forall (fun c => regexp.classHas regexp.ClassDigit c = true) d1
    /\ d2 <> [] /\ Forall (fun c => regexp.classHas regexp.ClassDigit c = true) d2.
Proof.
  rewrite dataLineBAT_match, dataRegexBAT_spec.
  intros (ws & d1 & sp & d2 & tl & E & Hws & Hn1 & Hd1 & Hns & Hsp & Hn2 & Hd2).
  unfold strings.Fields. rewrite E.
  rewrite fieldsGo_skip_spaces, fieldsGo_first_digits, fieldsGo_close,
    fieldsGo_first_digits by assumption.
  destruct (fieldsGo_open (utf8.runes tl) d2) as (x & more & ->).
  exists d1, d2, x, (map ofBytes more). auto.
Qed.

Lemma dataLinePWR_fields line :
  dataLinePWR line = true ->
  exists d1 more,
    strings.Fields (strings.TrimSpace line) = ofBytes d1 :: more
    /\ d1 <> [] /\ Forall (fun c => regexp.classHas regexp.ClassDigit c = true) d1.
Proof.
  rewrite dataLinePWR_match. intros [Hm _]%andb_true_iff. revert Hm.
  rewrite dataRegexPWR_spec.
  intros (ws & d1 & sp & tl & E & Hws & Hn1 & Hd1 & Hns & Hsp).
  unfold strings.Fields. rewrite E.
  rewrite fieldsGo_skip_spaces, fieldsGo_first_digits, fieldsGo_close by assumption.
  exists d1, (map ofBytes (strings.fieldsGo None (utf8.runes tl))). auto.
Qed.

Lemma dropSpaces_snoc rs ch :
  strings.isSpaceRune ch = false ->
  exists kept, strings.dropSpaces (rs ++ [ch]) = kept ++ [ch].
Proof.
  intros Hch. induction rs as [|c rs (kept & IH)]; cbn [app strings.dropSpaces].
  - rewrite Hch. now exists [].
  - destruct (strings.isSpaceRune c); [eauto|]. now exists (c :: rs).
Qed.

(** [TrimSpace] keeps a first byte that is ASCII and not white space. *)
Lemma trimSpaceBytes_head c p :
  byteVal c < 128 -> unicode.IsSpace (byteVal c) = false ->
  exists q, strings.trimSpaceBytes (c :: p) = c :: q.
Proof.
  intros Hlt Hsp. unfold strings.trimSpaceBytes. rewrite (runes_ascii _ _ Hlt).
  assert (Hch : strings.isSpaceRune (byteVal c, [c]) = false) by exact Hsp.
  cbn [strings.dropSpaces]. rewrite Hch. cbn [rev].
  destruct (dropSpaces_snoc (rev (utf8.runes p)) _ Hch) as (kept & ->).
  rewrite rev_app_distr. cbn. eauto.
Qed.

Lemma parseInt_ok_iff s name n :
  parseInt s name = (n, None)
  <-> decimalValue (strings.TrimSpace s) = Some n /\ - 2 ^ 63 <= n < 2 ^ 63.
Proof.
  unfold parseInt. rewrite <- Atoi_ok_iff.
  destruct (strconv.Atoi (strings.TrimSpace s)) as [m [e|]]; split; congruence.
Qed.

Lemma parseCoulomb_ok_iff s unit n :
  parseCoulomb s unit = (n, None)
  <-> decimalValue (strings.TrimSpace s) = Some n /\ - 2 ^ 63 <= n < 2 ^ 63.
Proof.
  unfold parseCoulomb. rewrite <- Atoi_ok_iff.
  destruct (strconv.Atoi (strings.TrimSpace s)) as [m [e|]]; split; congruence.
Qed.

(** A field that begins with a digit decodes to a number that is not
    negative, when it decodes. *)
Lemma parseInt_digit_head c x name n :
  regexp.classHas regexp.ClassDigit c = true ->
  parseInt (ofBytes (c :: x)) name = (n, None) -> 0 <= n < 2 ^ 63.
Proof.
  intros Hc [Hd Hr]%parseInt_ok_iff. split; [|lia].
  apply classDigit_not_space in Hc as (Hlt & Hsp & Hrange).
  revert Hd. unfold decimalValue, strings.TrimSpace. rewrite !bytes_ofBytes.
  destruct (trimSpaceBytes_head c x Hlt Hsp) as (q & ->).
  rewrite !bool_decide_eq_false_2.
  - intros Hd. apply digitsValue_ge in Hd; lia.
  - intros ->. vm_compute in Hrange. destruct Hrange as [H _]. now apply H.
  - intros ->. vm_compute in Hrange. destruct Hrange as [H _]. now apply H.
Qed.

Lemma orSentinel_parseSOC_range s : -128 <= orSentinel (parseSOC s) <= 127.
Proof.
  unfold orSentinel, failed, parseSOC.
  destruct (strconv.Atoi _) as [n [e|]]; cbn; [lia | apply int8_range].
Qed.

Lemma orSentinel_parseCoulomb_range s unit :
  - 2 ^ 63 <= orSentinel (parseCoulomb s unit) < 2 ^ 63.
Proof.
  unfold orSentinel, failed.
  destruct (parseCoulomb s unit) as [n [e|]] eqn:E; cbn; [lia|].
  now apply parseCoulomb_ok_iff in E as [_ ?].
Qed.

Lemma parseBaseState_range s : -1 <= parseBaseState s <= 3.
Proof.
  unfold parseBaseState, baseStateMap.
  rewrite !lookup_insert, lookup_empty. repeat case_decide; lia.
Qed.

(** The fields of a string are not empty. *)
Lemma runesFuel_chunks_nonempty fuel :
  forall p, Forall (fun c : Z * list ascii => c.2 <> []) (utf8.runesFuel fuel p).
Proof.
  induction fuel as [|fuel IH]; intros p; [destruct p; constructor|].
  destruct p as [|a p]; [constructor|]. cbn [utf8.runesFuel].
  destruct (utf8.DecodeRune (a :: p)) as [r w] eqn:E.
  pose proof (DecodeRune_width _ _ _ _ E) as Hw.
  constructor; [|apply IH]. cbn [snd]. destruct w; [lia | discriminate].
Qed.

Lemma fieldsGo_nonempty rs :
  Forall (fun c : Z * list ascii => c.2 <> []) rs ->
  forall cur, (forall w, cur = Some w -> w <> []) ->
              Forall (fun f => f <> []) (strings.fieldsGo cur rs).
Proof.
  induction 1 as [|c rs Hc _ IH]; intros cur Hcur; cbn [strings.fieldsGo].
  - destruct cur; repeat constructor. now apply Hcur.
  - destruct (strings.isSpaceRune c).
    + destruct cur; [constructor; [now apply Hcur|]|]; apply IH; discriminate.
    + apply IH. intros w [= <-]. destruct (default [] cur); [exact Hc | discriminate].
Qed.

Lemma Fields_nonempty s : Forall (fun f => f <> "") (strings.Fields s).
Proof.
  unfold strings.Fields. apply Forall_map.
  eapply Forall_impl; [apply fieldsGo_nonempty|].
  - apply runesFuel_chunks_nonempty.
  - discriminate.
  - intros w Hw E. cbn in E. now apply ofBytes_empty in E.
Qed.

(** ** Where the records come from *)

Lemma elem_of_concat_map {A B} (f : A -> list B) (l : list A) (b : B) :
  b ∈ concat (map f l) <-> exists a, a ∈ l /\ b ∈ f a.
Proof.
  induction l as [|a l IH]; cbn [map concat].
  - split; [intros H; inversion H | intros (a & H & _); inversion H].
  - rewrite elem_of_app, IH. split.
    + intros [H|(a' & Hin & H)]; [exists a | exists a']; split; auto; constructor; auto.
    + intros (a' & Hin & H). inversion Hin; subst; [now left | right; eauto].
Qed.

Lemma lineRecords_BAT_iff line r :
  r ∈ lineRecords batLine line <-> assemblesBAT line r.
Proof.
  unfold assemblesBAT. rewrite <- (Fields_TrimSpace line).
  unfold lineRecords.
  destruct (dataLineBAT line) eqn:Hdata.
  2:{ rewrite (batLine_noise _ _ _ Hdata). cbn. split; [intros H; inversion H|].
      intros [[=] _]. }
  destruct (Nat.lt_ge_cases (length (strings.Fields (strings.TrimSpace line))) 12)
    as [Hlen|Hlen].
  { rewrite (batLine_short _ _ _ Hdata Hlen). cbn. split; [intros H; inversion H|].
    intros (_ & f0 & f1 & f2 & f3 & f4 & f5 & f6 & f7 & f8 & f9 & f10 & f11 & rest & E & _).
    rewrite E in Hlen. cbn in Hlen. lia. }
  destruct (strings.Fields (strings.TrimSpace line)) as [|f0 fields] eqn:Hfields;
    [cbn in Hlen; lia|].
  do 11 (destruct fields as [|? fields]; [cbn in Hlen; lia|]).
  destruct (failed (parseInt f0 "BAT ID") || failed (parseInt s "BAT Volt")
            || failed (parseInt s0 "BAT Curr") || failed (parseInt s1 "BAT Temp"))
    eqn:Hfail.
  - destruct (batLine_critical 0%nat line (mkState [] []) _ _ _ _ _ Hdata Hfields)
      as (fm0 & ops0 & ->); [rewrite Hfields; exact Hlen | exact Hfail |].
    cbn. split; [intros H; inversion H|].
    intros (_ & g0 & g1 & g2 & g3 & g4 & g5 & g6 & g7 & g8 & g9 & g10 & g11 & rest
            & [= <- <- <- <- <- <- <- <- <- <- <- <- <-] & E0 & E1 & E2 & E3 & _).
    unfold failed in Hfail. rewrite E0, E1, E2, E3 in Hfail. discriminate Hfail.
  - apply orb_false_iff in Hfail as [Hfail H3].
    apply orb_false_iff in Hfail as [Hfail H2].
    apply orb_false_iff in Hfail as [H0 H1].
    apply failed_false_iff in H0, H1, H2, H3.
    destruct (parseInt f0 "BAT ID") as [id e0] eqn:E0.
    destruct (parseInt s "BAT Volt") as [volt e1] eqn:E1.
    destruct (parseInt s0 "BAT Curr") as [curr e2] eqn:E2.
    destruct (parseInt s1 "BAT Temp") as [temp e3] eqn:E3.
    cbn in H0, H1, H2, H3. subst.
    rewrite (batLine_record _ line _ _ _ _ _ _ _ _ _ _ _ _ _ _ id volt curr temp
               Hdata Hfields E0 E1 E2 E3).
    cbn [results app]. rewrite list_elem_of_singleton. split.
    + intros ->. split; [reflexivity|]. do 13 eexists. split; [reflexivity|].
      cbn. rewrite E0, E1, E2, E3. auto 10.
    + intros (_ & g0 & g1 & g2 & g3 & g4 & g5 & g6 & g7 & g8 & g9 & g10 & g11 & rest
              & [= <- <- <- <- <- <- <- <- <- <- <- <- <-] & F0 & F1 & F2 & F3 & ->).
      rewrite E0 in F0. rewrite E1 in F1. rewrite E2 in F2. rewrite E3 in F3.
      injection F0 as <-. injection F1 as <-. injection F2 as <-. injection F3 as <-.
      reflexivity.
Qed.

Lemma lineRecords_PWR_iff line r :
  r ∈ lineRecords pwrLine line <-> assemblesPWR line r.
Proof.
  unfold assemblesPWR. rewrite <- (Fields_TrimSpace line).
  unfold lineRecords.
  destruct (dataLinePWR line) eqn:Hdata.
  2:{ rewrite (pwrLine_noise _ _ _ Hdata). cbn. split; [intros H; inversion H|].
      intros [[=] _]. }
  destruct (Nat.lt_ge_cases (length (strings.Fields (strings.TrimSpace line))) 19)
    as [Hlen|Hlen].
  { rewrite (pwrLine_short _ _ _ Hdata Hlen). cbn. split; [intros H; inversion H|].
    intros (_ & f0 & f1 & f2 & f3 & f4 & f5 & f6 & f7 & f8 & f9 & f10 & f11 & f12 & f13
            & f14 & f15 & f16 & f17 & f18 & rest & E & _).
    rewrite E in Hlen. cbn in Hlen. lia. }
  destruct (strings.Fields (strings.TrimSpace line)) as [|f0 fields] eqn:Hfields;
    [cbn in Hlen; lia|].
  do 18 (destruct fields as [|? fields]; [cbn in Hlen; lia|]).
  destruct (failed (parseInt f0 "PWR ID") || failed (parseInt s "PWR Volt")
            || failed (parseInt s0 "PWR Curr") || failed (parseInt s1 "PWR Temp (Board)"))
    eqn:Hfail.
  - destruct (pwrLine_critical 0%nat line (mkState [] []) _ _ _ _ _ Hdata Hfields)
      as (fm0 & ops0 & ->); [rewrite Hfields; exact Hlen | exact Hfail |].
    cbn. split; [intros H; inversion H|].
    intros (_ & g0 & g1 & g2 & g3 & g4 & g5 & g6 & g7 & g8 & g9 & g10 & g11 & g12 & g13
            & g14 & g15 & g16 & g17 & g18 & rest
            & [= <- <- <- <- <- <- <- <- <- <- <- <- <- <- <- <- <- <- <- <-]
            & E0 & E1 & E2 & E3 & _).
    unfold failed in Hfail. rewrite E0, E1, E2, E3 in Hfail. discriminate Hfail.
  - apply orb_false_iff in Hfail as [Hfail H3].
    apply orb_false_iff in Hfail as [Hfail H2].
    apply orb_false_iff in Hfail as [H0 H1].
    apply failed_false_iff in H0, H1, H2, H3.
    destruct (parseInt f0 "PWR ID") as [id e0] eqn:E0.
    destruct (parseInt s "PWR Volt") as [volt e1] eqn:E1.
    destruct (parseInt s0 "PWR Curr") as [curr e2] eqn:E2.
    destruct (parseInt s1 "PWR Temp (Board)") as [temp e3] eqn:E3.
    cbn in H0, H1, H2, H3. subst.
    rewrite (pwrLine_record _ line _ _ _ _ _ _ _ _ _ _ _ _ _ _ _ _ _ _ _ _ _
               id volt curr temp Hdata Hfields E0 E1 E2 E3).
    cbn [results app]. rewrite list_elem_of_singleton. split.
    + intros ->. split; [reflexivity|]. do 20 eexists. split; [reflexivity|].
      cbn. rewrite E0, E1, E2, E3. auto 10.
    + intros (_ & g0 & g1 & g2 & g3 & g4 & g5 & g6 & g7 & g8 & g9 & g10 & g11 & g12 & g13
              & g14 & g15 & g16 & g17 & g18 & rest
              & [= <- <- <- <- <- <- <- <- <- <- <- <- <- <- <- <- <- <- <- <-]
              & F0 & F1 & F2 & F3 & ->).
      rewrite E0 in F0. rewrite E1 in F1. rewrite E2 in F2. rewrite E3 in F3.
      injection F0 as <-. injection F1 as <-. injection F2 as <-. injection F3 as <-.
      reflexivity.
Qed.

Lemma records_BAT_iff lines r :
  r ∈ recordsOf (ParseBAT lines) <-> exists line, line ∈ lines /\ assemblesBAT line r.
Proof.
  rewrite recordsOf_ParseBAT, elem_of_concat_map.
  split; intros (line & Hin & H); exists line; split; auto;
    now apply lineRecords_BAT_iff.
Qed.

Lemma records_PWR_iff lines r :
  r ∈ recordsOf (ParsePWR lines) <-> exists line, line ∈ lines /\ assemblesPWR line r.
Proof.
  rewrite recordsOf_ParsePWR, elem_of_concat_map.
  split; intros (line & Hin & H); exists line; split; auto;
    now apply lineRecords_PWR_iff.
Qed.

(** X5. The records of a batch are exactly the records that its lines
    assemble into: every record comes from a data line of the input with
    enough fields whose critical fields decode, and every such line has its
    record in the result. *)
Theorem batch_records_sound_complete :
  (forall lines r,
      r ∈ recordsOf (ParseBAT lines)
      <-> exists line, line ∈ lines /\ assemblesBAT line r)
  /\ (forall lines r,
      r ∈ recordsOf (ParsePWR lines)
      <-> exists line, line ∈ lines /\ assemblesPWR line r).
Proof. split; [exact records_BAT_iff | exact records_PWR_iff]. Qed.

Lemma batch_records_sound_complete_witness :
  exists line,
    line ∈ ["Battery Volt"; "3 3301 -12 250 Idle Normal Normal Normal 7% 88 mAH N"]
    /\ assemblesBAT line
         (BatteryStatus.mk 3 3301 (-12) 250 2 "Normal" "Normal" "Normal" 7 88 "N").
Proof.
  destruct batch_records_sound_complete as [Hb _].
  apply (Hb ["Battery Volt"; "3 3301 -12 250 Idle Normal Normal Normal 7% 88 mAH N"]).
  vm_compute. constructor.
Defined.

(** ** What every record satisfies *)

Lemma Fields_lookup_nonempty s i f : strings.Fields s !! i = Some f -> f <> "".
Proof.
  intros H. pose proof (Fields_nonempty s) as Hall.
  rewrite Forall_forall in Hall. apply Hall. now apply list_elem_of_lookup_2 in H.
Qed.

(** X6. Every record that [ParseBAT] returns has an identity and a voltage
    that are not negative (a data line starts with two unsigned numbers), all
    its integers fit in 64 bits, its state is between -1 and 3, its SOC is
    between -128 and 127, and none of its text fields is empty.  Every
    record that [ParsePWR] returns has an identity that is not negative, a
    state between -1 and 3, a Coulomb value between -128 and 127 and no
    empty text field. *)
Theorem record_invariants :
  (forall lines r,
      r ∈ recordsOf (ParseBAT lines) ->
      0 <= BatteryStatus.ID r < 2 ^ 63
      /\ 0 <= BatteryStatus.Volt r < 2 ^ 63
      /\ - 2 ^ 63 <= BatteryStatus.Curr r < 2 ^ 63
      /\ - 2 ^ 63 <= BatteryStatus.Temp r < 2 ^ 63
      /\ -1 <= BatteryStatus.BaseState r <= 3
      /\ -128 <= BatteryStatus.SOC r <= 127
      /\ - 2 ^ 63 <= BatteryStatus.Coulomb r < 2 ^ 63
      /\ BatteryStatus.VoltState r <> "" /\ BatteryStatus.CurrState r <> ""
      /\ BatteryStatus.TempState r <> "" /\ BatteryStatus.BAL r <> "")
  /\ (forall lines r,
      r ∈ recordsOf (ParsePWR lines) ->
      0 <= PowerStatus.ID r < 2 ^ 63
      /\ - 2 ^ 63 <= PowerStatus.Volt r < 2 ^ 63
      /\ - 2 ^ 63 <= PowerStatus.Curr r < 2 ^ 63
      /\ - 2 ^ 63 <= PowerStatus.Temp r < 2 ^ 63
      /\ -1 <= PowerStatus.BaseState r <= 3
      /\ -128 <= PowerStatus.Coulomb r <= 127
      /\ PowerStatus.VoltState r <> "" /\ PowerStatus.CurrState r <> ""
      /\ PowerStatus.TempState r <> "" /\ PowerStatus.BVState r <> ""
      /\ PowerStatus.BTState r <> "" /\ PowerStatus.MosTemp r <> ""
      /\ PowerStatus.MTState r <> "").
Proof.
  split; intros lines r Hr.
  - apply records_BAT_iff in Hr as (line & _ & Hdata & f0 & f1 & f2 & f3 & f4 & f5 & f6 & f7 & f8
                       & f9 & f10 & f11 & rest & Hfields & E0 & E1 & E2 & E3 & Hrec).
    pose proof (fun i f => Fields_lookup_nonempty line i f) as Hne.
    rewrite Hfields in Hne.
    destruct (dataLineBAT_fields line Hdata) as (d1 & d2 & x & more & Hshape & Hn1 & Hd1
                                                 & Hn2 & Hd2).
    rewrite Fields_TrimSpace, Hfields in Hshape.
    injection Hshape as -> -> _.
    destruct Hd1 as [|c1 d1 Hc1 _]; [congruence|].
    destruct Hd2 as [|c2 d2 Hc2 _]; [congruence|].
    split; [exact (parseInt_digit_head _ _ _ _ Hc1 E0)|].
    split; [exact (parseInt_digit_head _ _ _ _ Hc2 E1)|].
    split; [now apply parseInt_ok_iff in E2 as [_ ?]|].
    split; [now apply parseInt_ok_iff in E3 as [_ ?]|].
    rewrite Hrec. cbn.
    split; [apply parseBaseState_range|].
    split; [apply orSentinel_parseSOC_range|].
    split; [apply orSentinel_parseCoulomb_range|].
    split; [exact (Hne 5%nat _ eq_refl)|]. split; [exact (Hne 6%nat _ eq_refl)|].
    split; [exact (Hne 7%nat _ eq_refl) | exact (Hne 11%nat _ eq_refl)].
  - apply records_PWR_iff in Hr as (line & _ & Hdata & f0 & f1 & f2 & f3 & f4 & f5 & f6 & f7 & f8
                       & f9 & f10 & f11 & f12 & f13 & f14 & f15 & f16 & f17 & f18 & rest
                       & Hfields & E0 & E1 & E2 & E3 & Hrec).
    pose proof (fun i f => Fields_lookup_nonempty line i f) as Hne.
    rewrite Hfields in Hne.
    destruct (dataLinePWR_fields line Hdata) as (d1 & more & Hshape & Hn1 & Hd1).
    rewrite Fields_TrimSpace, Hfields in Hshape.
    injection Hshape as -> _.
    destruct Hd1 as [|c1 d1 Hc1 _]; [congruence|].
    split; [exact (parseInt_digit_head _ _ _ _ Hc1 E0)|].
    split; [now apply parseInt_ok_iff in E1 as [_ ?]|].
    split; [now apply parseInt_ok_iff in E2 as [_ ?]|].
    split; [now apply parseInt_ok_iff in E3 as [_ ?]|].
    rewrite Hrec. cbn.
    split; [apply parseBaseState_range|].
    split; [apply orSentinel_parseSOC_range|].
    split; [exact (Hne 9%nat _ eq_refl)|]. split; [exact (Hne 10%nat _ eq_refl)|].
    split; [exact (Hne 11%nat _ eq_refl)|]. split; [exact (Hne 15%nat _ eq_refl)|].
    split; [exact (Hne 16%nat _ eq_refl)|]. split; [exact (Hne 17%nat _ eq_refl)|].
    exact (Hne 18%nat _ eq_refl).
Qed.

Lemma record_invariants_witness :
  0 <= 3 < 2 ^ 63 /\ 0 <= 3301 < 2 ^ 63.
Proof.
  destruct record_invariants as [Hb _].
  destruct (Hb ["3 3301 -12 250 Idle Normal Normal Normal 7% 88 mAH N"]
               (BatteryStatus.mk 3 3301 (-12) 250 2 "Normal" "Normal" "Normal" 7 88 "N"))
    as (Hid & Hvolt & _); [vm_compute; constructor|].
  exact (conj Hid Hvolt).
Defined.

(** ** [strconv.Itoa] and the integer decoders *)

Lemma digitByte_val d : 0 <= d <= 9 -> byteVal (strconv.digitByte d) = 48 + d.
Proof.
  intros H. unfold byteVal, strconv.digitByte. rewrite N_ascii_embedding; lia.
Qed.

Lemma digitByte_digit d : 0 <= d <= 9 -> inRange 48 57 (byteVal (strconv.digitByte d)) = true.
Proof. intros H. rewrite (digitByte_val d H). unfold inRange. lia. Qed.

Lemma digitsValue_app p q :
  forall acc,
    digitsValue (p ++ q) acc
    = match digitsValue p acc with
      | Some v => digitsValue q v
      | None => None
      end.
Proof.
  induction p as [|c p IH]; intros acc; cbn [app digitsValue]; [reflexivity|].
  destruct (inRange 48 57 (byteVal c)); [apply IH | reflexivity].
Qed.

Lemma digitsValue_two k acc :
  0 <= k < 100 ->
  digitsValue [strconv.smallsHi k; strconv.smallsLo k] acc = Some (acc * 100 + k).
Proof.
  intros Hk. unfold strconv.smallsHi, strconv.smallsLo. cbn [digitsValue].
  assert (0 <= k / 10 <= 9)
    by (pose proof (Z.div_mod k 10); pose proof (Z.mod_pos_bound k 10); lia).
  assert (0 <= k mod 10 <= 9) by (pose proof (Z.mod_pos_bound k 10); lia).
  rewrite !digitByte_digit, !digitByte_val by assumption.
  f_equal. pose proof (Z.div_mod k 10). lia.
Qed.

Lemma digitsValue_one k acc :
  0 <= k < 10 -> digitsValue [strconv.smallsLo k] acc = Some (acc * 10 + k).
Proof.
  intros Hk. unfold strconv.smallsLo. cbn [digitsValue]. rewrite Z.mod_small by lia.
  rewrite digitByte_digit, digitByte_val by lia. f_equal. lia.
Qed.

Lemma smalls_digit k :
  0 <= k < 100 ->
  inRange 48 57 (byteVal (strconv.smallsHi k)) = true
  /\ inRange 48 57 (byteVal (strconv.smallsLo k)) = true.
Proof.
  intros Hk. unfold strconv.smallsHi, strconv.smallsLo.
  assert (0 <= k / 10 <= 9)
    by (pose proof (Z.div_mod k 10); pose proof (Z.mod_pos_bound k 10); lia).
  assert (0 <= k mod 10 <= 9) by (pose proof (Z.mod_pos_bound k 10); lia).
  split; now apply digitByte_digit.
Qed.

(** The loop of [strconv.formatBits] writes the decimal digits of the number in
    front of the buffer. *)
Lemma formatBitsLoop_spec fuel :
  forall us a,
    0 <= us < 100 ^ (Z.of_nat fuel + 1) ->
    exists ds k,
      strconv.formatBitsLoop fuel us a = ds ++ a
      /\ ds <> []
      /\ Forall (fun c => inRange 48 57 (byteVal c) = true) ds
      /\ forall acc, digitsValue ds acc = Some (acc * 10 ^ Z.of_nat k + us).
Proof.
  induction fuel as [|fuel IH]; intros us a Hus.
  - cbn [strconv.formatBitsLoop]. change (100 ^ (Z.of_nat 0 + 1)) with 100 in Hus.
    replace (100 <=? us) with false by lia.
    destruct (10 <=? us) eqn:H10.
    + exists [strconv.smallsHi us; strconv.smallsLo us], 2%nat. split; [reflexivity|].
      split; [discriminate|]. destruct (smalls_digit us) as [? ?]; [lia|].
      split; [repeat constructor; assumption|].
      intros acc. rewrite digitsValue_two by lia. reflexivity.
    + exists [strconv.smallsLo us], 1%nat. split; [reflexivity|].
      split; [discriminate|]. destruct (smalls_digit us) as [? ?]; [lia|].
      split; [repeat constructor; assumption|].
      intros acc. rewrite digitsValue_one by lia. f_equal.
  - cbn [strconv.formatBitsLoop]. destruct (100 <=? us) eqn:H100.
    + apply Z.leb_le in H100.
      assert (Hdiv : 0 <= us / 100 < 100 ^ (Z.of_nat fuel + 1)).
      { split; [apply Z.div_pos; lia|]. apply Z.div_lt_upper_bound; [lia|].
        rewrite Nat2Z.inj_succ in Hus.
        replace (Z.succ (Z.of_nat fuel) + 1) with (Z.succ (Z.of_nat fuel + 1)) in Hus by lia.
        rewrite Z.pow_succ_r in Hus by lia. lia. }
      destruct (IH (us / 100) (strconv.smallsHi (us mod 100) :: strconv.smallsLo (us mod 100) :: a) Hdiv)
        as (ds & k & E & Hne & Hds & Hval).
      pose proof (Z.mod_pos_bound us 100 ltac:(lia)) as Hmod.
      exists (ds ++ [strconv.smallsHi (us mod 100); strconv.smallsLo (us mod 100)]), (k + 2)%nat.
      split; [rewrite E, <- app_assoc; reflexivity|].
      split; [destruct ds; discriminate|].
      split.
      { apply Forall_app. split; [exact Hds|].
        destruct (smalls_digit (us mod 100)) as [? ?]; [lia|].
        repeat constructor; assumption. }
      intros acc. rewrite digitsValue_app, Hval, digitsValue_two by lia.
      f_equal. rewrite Nat2Z.inj_add, Z.pow_add_r by lia.
      change (10 ^ Z.of_nat 2) with 100. pose proof (Z.div_mod us 100). lia.
    + apply Z.leb_gt in H100. destruct (10 <=? us) eqn:H10.
      * exists [strconv.smallsHi us; strconv.smallsLo us], 2%nat. split; [reflexivity|].
        split; [discriminate|]. destruct (smalls_digit us) as [? ?]; [lia|].
        split; [repeat constructor; assumption|].
        intros acc. rewrite digitsValue_two by lia. reflexivity.
      * exists [strconv.smallsLo us], 1%nat. split; [reflexivity|].
        split; [discriminate|]. destruct (smalls_digit us) as [? ?]; [lia|].
        split; [repeat constructor; assumption|].
        intros acc. rewrite digitsValue_one by lia. f_equal.
Qed.

Lemma decimalValue_digits ds :
  ds <> [] -> Forall (fun c => inRange 48 57 (byteVal c) = true) ds ->
  decimalValue (ofBytes ds) = digitsValue ds 0.
Proof.
  intros Hne Hds. unfold decimalValue. rewrite bytes_ofBytes.
  destruct Hds as [|c ds Hc _]; [congruence|].
  rewrite !bool_decide_eq_false_2; [reflexivity| |]; intros ->; discriminate Hc.
Qed.

Lemma FormatInt10_decimal i :
  - 2 ^ 63 <= i < 2 ^ 63 ->
  decimalValue (strconv.FormatInt10 i) = Some i
  /\ Forall (fun c => c = "-"%char \/ inRange 48 57 (byteVal c) = true)
            (bytes (strconv.FormatInt10 i)).
Proof.
  change (2 ^ 63) with 9223372036854775808. intros Hi. unfold strconv.FormatInt10.
  destruct ((0 <=? i) && (i <? 100)) eqn:Hsmall.
  - destruct (i <? 10) eqn:H10.
    + replace (strconv.digitByte i) with (strconv.smallsLo i) by (unfold strconv.smallsLo; rewrite Z.mod_small; [reflexivity | lia]).
      destruct (smalls_digit i) as [_ Hlo]; [lia|].
      rewrite decimalValue_digits by (try discriminate; repeat constructor; assumption).
      rewrite digitsValue_one by lia. split; [f_equal|].
      rewrite bytes_ofBytes. repeat (constructor; [now right|]). constructor.
    + destruct (smalls_digit i) as [Hhi Hlo]; [lia|].
      rewrite decimalValue_digits by (try discriminate; repeat constructor; assumption).
      rewrite digitsValue_two by lia. split; [f_equal|].
      rewrite bytes_ofBytes. repeat (constructor; [now right|]). constructor.
  - unfold strconv.formatBits, uint64, wrapUnsigned.
    change (2 ^ 64) with 18446744073709551616.
    destruct (i <? 0) eqn:Hneg.
    + assert (Hu : (- (i mod 18446744073709551616)) mod 18446744073709551616 = - i).
      { replace (i mod 18446744073709551616) with (i + 18446744073709551616)
          by (apply Z.mod_unique with (q := -1); lia).
        apply eq_sym, Z.mod_unique with (q := -1); lia. }
      rewrite Hu.
      destruct (formatBitsLoop_spec 10 (- i) []) as (ds & k & E & Hne & Hds & Hval).
      { change (100 ^ (Z.of_nat 10 + 1)) with 10000000000000000000000. lia. }
      rewrite E, app_nil_r. split.
      * unfold decimalValue. rewrite bytes_ofBytes.
        change (bool_decide ("-"%char = "+"%char)) with false.
        change (bool_decide ("-"%char = "-"%char)) with true. cbn [negb].
        destruct ds; [congruence|]. rewrite Hval. cbn. f_equal. lia.
      * rewrite bytes_ofBytes. constructor; [now left|].
        eapply Forall_impl; [exact Hds | intros c Hc; now right].
    + rewrite Z.mod_small by lia.
      destruct (formatBitsLoop_spec 10 i []) as (ds & k & E & Hne & Hds & Hval).
      { change (100 ^ (Z.of_nat 10 + 1)) with 10000000000000000000000. lia. }
      rewrite E, app_nil_r, decimalValue_digits, Hval by assumption.
      split; [f_equal; lia|].
      rewrite bytes_ofBytes. eapply Forall_impl; [exact Hds | intros c Hc; now right].
Qed.

Lemma int64_small n : - 2 ^ 63 <= n < 2 ^ 63 -> int64 n = n.
Proof.
  change (2 ^ 63) with 9223372036854775808. intros H.
  unfold int64, wrapSigned. change (2 ^ (64 - 1)) with 9223372036854775808.
  change (2 ^ 64) with 18446744073709551616. rewrite Z.mod_small; lia.
Qed.

Lemma Itoa_decimal n :
  - 2 ^ 63 <= n < 2 ^ 63 -> decimalValue (strconv.Itoa n) = Some n.
Proof.
  intros H. unfold strconv.Itoa. rewrite (int64_small n H). now apply FormatInt10_decimal.
Qed.

Lemma Itoa_inj n m :
  - 2 ^ 63 <= n < 2 ^ 63 -> - 2 ^ 63 <= m < 2 ^ 63 -> strconv.Itoa n = strconv.Itoa m -> n = m.
Proof.
  intros Hn Hm E. pose proof (Itoa_decimal n Hn) as Dn.
  rewrite E, (Itoa_decimal m Hm) in Dn. congruence.
Qed.

(** A string of ASCII bytes none of which is white space is left as it is
    by [TrimSpace]. *)
Lemma runes_solid p :
  Forall (fun c => byteVal c < 128 /\ unicode.IsSpace (byteVal c) = false) p ->
  utf8.runes p = map (fun c => (byteVal c, [c])) p
  /\ Forall (fun c => strings.isSpaceRune c = false) (utf8.runes p).
Proof.
  induction 1 as [|c p [Hlt Hsp] _ [IH1 IH2]]; [split; [reflexivity | constructor]|].
  rewrite (runes_ascii _ _ Hlt). cbn [map]. split; [now rewrite IH1|].
  constructor; [exact Hsp | exact IH2].
Qed.

Lemma dropSpaces_nospace rs :
  Forall (fun c => strings.isSpaceRune c = false) rs -> strings.dropSpaces rs = rs.
Proof. intros [|c rs' Hc _]; [reflexivity|]. cbn. now rewrite Hc. Qed.

Lemma trimSpaceBytes_solid p :
  Forall (fun c => byteVal c < 128 /\ unicode.IsSpace (byteVal c) = false) p ->
  strings.trimSpaceBytes p = p.
Proof.
  intros Hp. destruct (runes_solid p Hp) as [E Hns].
  unfold strings.trimSpaceBytes.
  rewrite (dropSpaces_nospace _ Hns).
  rewrite dropSpaces_nospace by (rewrite rev_alt; apply Forall_rev in Hns; now rewrite <- rev_alt).
  rewrite rev_involutive. unfold utf8.runes. apply runesFuel_join. lia.
Qed.

Lemma TrimSpace_Itoa n : - 2 ^ 63 <= n < 2 ^ 63 -> strings.TrimSpace (strconv.Itoa n) = strconv.Itoa n.
Proof.
  intros H. unfold strings.TrimSpace, strconv.Itoa. rewrite (int64_small n H).
  destruct (FormatInt10_decimal n H) as [_ Hall].
  rewrite trimSpaceBytes_solid; [apply ofBytes_bytes|].
  eapply Forall_impl; [exact Hall|]. intros c [->|Hc]; [vm_compute; auto|].
  unfold inRange in Hc. unfold unicode.IsSpace, unicode.MaxLatin1, inRange.
  split; [lia|]. replace (byteVal c <=? 255) with true by lia. lia.
Qed.

(** X7. What [strconv.Itoa] prints, the decoders read back: for every 64-bit
    integer [n], [Atoi], [parseInt] and [parseCoulomb] return [n] and no
    error on [strconv.Itoa n]; so [strconv.Itoa] maps different integers to different
    strings. *)
Theorem Itoa_round_trip :
  forall n,
    - 2 ^ 63 <= n < 2 ^ 63 ->
    strconv.Atoi (strconv.Itoa n) = (n, None)
    /\ (forall fieldName, parseInt (strconv.Itoa n) fieldName = (n, None))
    /\ (forall unit, parseCoulomb (strconv.Itoa n) unit = (n, None))
    /\ (forall m, - 2 ^ 63 <= m < 2 ^ 63 -> strconv.Itoa n = strconv.Itoa m -> n = m).
Proof.
  intros n Hn. pose proof (Itoa_decimal n Hn) as Hd.
  split; [apply Atoi_ok_iff; auto|].
  split; [intros fieldName; apply parseInt_ok_iff; rewrite TrimSpace_Itoa; auto|].
  split; [intros unit; apply parseCoulomb_ok_iff; rewrite TrimSpace_Itoa; auto|].
  intros m Hm. now apply Itoa_inj.
Qed.

Lemma Itoa_round_trip_witness :
  strconv.Atoi (strconv.Itoa (-9223372036854775808)) = (-9223372036854775808, None)
  /\ parseInt (strconv.Itoa 3750) "BAT Volt" = (3750, None).
Proof.
  destruct (Itoa_round_trip (-9223372036854775808)) as (Ha & _); [lia|].
  destruct (Itoa_round_trip 3750) as (_ & Hp & _); [lia|].
  split; [exact Ha | apply Hp].
Defined.







(** ** The lines that the fetcher hands to the parsers *)

Lemma dropSpaces_head rs :
  strings.dropSpaces rs = []
  \/ exists c rest, strings.dropSpaces rs = c :: rest /\ strings.isSpaceRune c = false.
Proof.
  induction rs as [|c rs IH]; [now left|]. cbn [strings.dropSpaces].
  destruct (strings.isSpaceRune c) eqn:Hc; [exact IH | right; eauto].
Qed.

Lemma dropSpaces_idem rs :
  strings.dropSpaces (strings.dropSpaces rs) = strings.dropSpaces rs.
Proof.
  destruct (dropSpaces_head rs) as [->|(c & rest & -> & Hc)]; [reflexivity|].
  cbn. now rewrite Hc.
Qed.

(** Trimming twice is trimming once. *)
Lemma trimSpaceBytes_idem p :
  strings.trimSpaceBytes (strings.trimSpaceBytes p) = strings.trimSpaceBytes p.
Proof.
  unfold strings.trimSpaceBytes at 2 3.
  destruct (dropSpaces_split (utf8.runes p)) as (sp1 & E1 & _).
  set (mid := strings.dropSpaces (utf8.runes p)) in *.
  destruct (dropSpaces_split (rev mid)) as (sp2 & E2 & _).
  set (coreR := strings.dropSpaces (rev mid)) in *.
  assert (Hmid : mid = rev coreR ++ rev sp2).
  { now rewrite <- (rev_involutive mid), E2, rev_app_distr. }
  assert (Hruns : utf8.runes (strings.joinRunes (rev coreR)) = rev coreR).
  { assert (Hall : utf8.runes (strings.joinRunes (sp1 ++ rev coreR ++ rev sp2))
                   = sp1 ++ rev coreR ++ rev sp2).
    { rewrite <- Hmid, <- E1. unfold utf8.runes at 2. now rewrite runesFuel_join. }
    now apply runes_drop_prefix, runes_drop_suffix in Hall. }
  assert (Hkeep : strings.dropSpaces (rev coreR) = rev coreR).
  { destruct (rev coreR) as [|z tl] eqn:Ez; [reflexivity|].
    destruct (dropSpaces_head (utf8.runes p)) as [Hnil|(c & rest & Hc & Hns)];
      fold mid in Hnil || fold mid in Hc.
    - rewrite Hnil in Hmid. discriminate Hmid.
    - rewrite Hc in Hmid. injection Hmid as -> _. cbn. now rewrite Hns. }
  unfold strings.trimSpaceBytes.
  rewrite Hruns, Hkeep, rev_involutive.
  unfold coreR. now rewrite dropSpaces_idem.
Qed.

Lemma TrimSpace_idem s :
  strings.TrimSpace (strings.TrimSpace s) = strings.TrimSpace s.
Proof.
  unfold strings.TrimSpace. now rewrite bytes_ofBytes, trimSpaceBytes_idem.
Qed.

Lemma keptLines_app a b : keptLines (a ++ b) = keptLines a ++ keptLines b.
Proof. unfold keptLines. now rewrite map_app, List.filter_app. Qed.

Lemma appendLine_kept lines line :
  appendLine lines line = lines ++ keptLines [ofBytes line].
Proof.
  unfold appendLine, keptLines. cbn.
  destruct (bool_decide (strings.TrimSpace (ofBytes line) <> "")); [reflexivity|].
  now rewrite app_nil_r.
Qed.

(** The read loop keeps, in order, the trimmed non-empty strings that
    [ReadString] returns, whatever ends the body. *)
Lemma readLoop_spec readErr p :
  forall cur lines,
    readLoop readErr p cur lines
    = (lines ++ keptLines (readStrings p cur), readError readErr).
Proof.
  induction p as [|c p IH]; intros cur lines; cbn [readLoop readStrings].
  - rewrite appendLine_kept. now destruct readErr.
  - destruct (bool_decide (c = "010"%char)).
    + rewrite IH, appendLine_kept, <- app_assoc.
      now rewrite <- keptLines_app.
    + apply IH.
Qed.

Lemma keptLines_trimmed raw l :
  l ∈ keptLines raw -> l <> "" /\ strings.TrimSpace l = l.
Proof.
  unfold keptLines. rewrite list_elem_of_In, List.filter_In, <- list_elem_of_In.
  intros [Hin Hne]. apply bool_decide_eq_true in Hne. split; [exact Hne|].
  apply list_elem_of_fmap in Hin as (s & -> & _). apply TrimSpace_idem.
Qed.

Lemma FetchConsoleOutput_cases Getenv httpGet command :
  (exists body readErr,
     FetchConsoleOutput Getenv httpGet command
     = (keptLines (readStrings (bytes body) []), readError readErr))
  \/ (exists err, FetchConsoleOutput Getenv httpGet command = ([], Some err)).
Proof.
  unfold FetchConsoleOutput.
  destruct (bool_decide (Getenv "DEVICE_IP" = "")); [right; eauto|].
  match goal with |- context [httpGet ?u] => destruct (httpGet u) as [err|code body readErr] end;
    [right; eauto|].
  destruct (negb (code =? 200)); [right; eauto|].
  left. exists body, readErr. now rewrite readLoop_spec.
Qed.

(** X10. Every line that [FetchConsoleOutput] returns is not empty and has
    no white space at either end: trimming it again changes nothing,
    whatever the environment, the command and the answer of the device. *)
Theorem fetched_lines_trimmed Getenv httpGet command l :
  l ∈ (FetchConsoleOutput Getenv httpGet command).1 ->
  l <> "" /\ strings.TrimSpace l = l.
Proof.
  destruct (FetchConsoleOutput_cases Getenv httpGet command)
    as [(body & readErr & ->)|(err & ->)]; cbn [fst].
  - apply keptLines_trimmed.
  - intros H. now apply elem_of_nil in H.
Qed.

Lemma fetched_lines_trimmed_witness :
  let Getenv := envOf "10.0.0.2" "" in
  let httpGet := fun _ : string =>
    Response 200 ("  1 2 3  " ++ String "010" (String "010" " done"))%string None in
  "1 2 3" ∈ (FetchConsoleOutput Getenv httpGet "bat").1
  /\ "1 2 3" <> "" /\ strings.TrimSpace "1 2 3" = "1 2 3".
Proof.
  intros Getenv httpGet.
  assert (H : "1 2 3" ∈ (FetchConsoleOutput Getenv httpGet "bat").1).
  { vm_compute. apply list_elem_of_here. }
  split; [exact H|]. exact (fetched_lines_trimmed Getenv httpGet "bat" _ H).
Defined.

(** ** Fetching, then parsing *)

Lemma batLine_TrimSpace lineIdx line st :
  batLine lineIdx (strings.TrimSpace line) st = batLine lineIdx line st.
Proof. unfold batLine. now rewrite TrimSpace_idem. Qed.

Lemma pwrLine_TrimSpace lineIdx line st :
  pwrLine lineIdx (strings.TrimSpace line) st = pwrLine lineIdx line st.
Proof. unfold pwrLine. now rewrite TrimSpace_idem. Qed.

Lemma lineRecords_keptLines {A} (body : nat -> string -> loopState A -> exec (loopState A)) :
  (forall line, lineRecords body (strings.TrimSpace line) = lineRecords body line) ->
  lineRecords body "" = [] ->
  forall raw,
    concat (map (lineRecords body) (keptLines raw)) = concat (map (lineRecords body) raw).
Proof.
  intros Htrim Hempty raw. unfold keptLines.
  induction raw as [|l raw IH]; [reflexivity|].
  cbn [map List.filter concat].
  destruct (bool_decide (strings.TrimSpace l <> "")) eqn:E.
  - cbn [map concat]. now rewrite Htrim, IH.
  - apply bool_decide_eq_false in E. apply dec_stable in E.
    rewrite IH, <- (Htrim l), E, Hempty. reflexivity.
Qed.

Lemma lineRecords_BAT_trim line :
  lineRecords batLine (strings.TrimSpace line) = lineRecords batLine line.
Proof. unfold lineRecords. now rewrite batLine_TrimSpace. Qed.

Lemma lineRecords_PWR_trim line :
  lineRecords pwrLine (strings.TrimSpace line) = lineRecords pwrLine line.
Proof. unfold lineRecords. now rewrite pwrLine_TrimSpace. Qed.

Lemma FetchConsoleOutput_ok Getenv httpGet command body readErr :
  Getenv "DEVICE_IP" <> "" ->
  httpGet (requestURL Getenv command) = Response 200 body readErr ->
  FetchConsoleOutput Getenv httpGet command
  = (keptLines (readStrings (bytes body) []), readError readErr).
Proof.
  intros Hip Hget. unfold FetchConsoleOutput.
  rewrite bool_decide_eq_false_2 by exact Hip.
  cbv zeta. rewrite Hget. cbn [Z.eqb Pos.eqb negb]. now rewrite readLoop_spec.
Qed.

(** X11. The trimming and the dropping of blank lines in the fetcher lose
    nothing for the parsers: on a response of status 200, parsing the lines
    that [FetchConsoleOutput] returns gives the records that parsing the
    strings read from the body gives, for battery and power parsing alike. *)
Theorem fetch_then_parse_keeps_records Getenv httpGet command body readErr :
  Getenv "DEVICE_IP" <> "" ->
  httpGet (requestURL Getenv command) = Response 200 body readErr ->
  let lines := (FetchConsoleOutput Getenv httpGet command).1 in
  let raw := readStrings (bytes body) [] in
  recordsOf (ParseBAT lines) = recordsOf (ParseBAT raw)
  /\ recordsOf (ParsePWR lines) = recordsOf (ParsePWR raw).
Proof.
  intros Hip Hget. rewrite (FetchConsoleOutput_ok _ _ _ _ _ Hip Hget). cbn [fst].
  cbv zeta. rewrite !recordsOf_ParseBAT, !recordsOf_ParsePWR. split.
  - apply lineRecords_keptLines; [apply lineRecords_BAT_trim | reflexivity].
  - apply lineRecords_keptLines; [apply lineRecords_PWR_trim | reflexivity].
Qed.

Lemma fetch_then_parse_keeps_records_witness :
  let Getenv := envOf "10.0.0.2" "" in
  let body :=
    ("  1 3300 -1200 25000 Dischg Normal Normal Normal 85% 3450 mAH N" ++ String "010" (String "010" "Command completed"))%string in
  let httpGet := fun _ : string => Response 200 body None in
  let lines := (FetchConsoleOutput Getenv httpGet "bat").1 in
  let raw := readStrings (bytes body) [] in
  recordsOf (ParseBAT lines) = recordsOf (ParseBAT raw)
  /\ recordsOf (ParsePWR lines) = recordsOf (ParsePWR raw).
Proof.
  intros Getenv body httpGet.
  apply (fetch_then_parse_keeps_records Getenv httpGet "bat" body None).
  - vm_compute. discriminate.
  - reflexivity.
Defined.

(** X12. [FetchConsoleOutput] returns a nil error exactly when [DEVICE_IP]
    is set and the device answers with status 200 and a body that is read
    to its end.  It returns lines only from a response of status 200; when
    reading the body fails, the lines read so far are returned together
    with the error. *)
Theorem fetch_error_cases Getenv httpGet command :
  ((FetchConsoleOutput Getenv httpGet command).2 = None
   <-> Getenv "DEVICE_IP" <> ""
       /\ exists body, httpGet (requestURL Getenv command) = Response 200 body None)
  /\ ((FetchConsoleOutput Getenv httpGet command).1 <> [] ->
      Getenv "DEVICE_IP" <> ""
      /\ exists body readErr,
           httpGet (requestURL Getenv command) = Response 200 body readErr
           /\ (FetchConsoleOutput Getenv httpGet command).1
              = keptLines (readStrings (bytes body) []))
  /\ (forall body readErr,
      Getenv "DEVICE_IP" <> "" ->
      httpGet (requestURL Getenv command) = Response 200 body readErr ->
      FetchConsoleOutput Getenv httpGet command
      = (keptLines (readStrings (bytes body) []), readError readErr)).
Proof.
  split; [|split].
  - unfold FetchConsoleOutput. case_bool_decide as Hip.
    + cbn [snd]. split; [discriminate | now intros [? _]].
    + cbv zeta. destruct (httpGet (requestURL Getenv command)) as [e|code body readErr].
      * cbn [snd]. split; [discriminate | now intros [_ [? ?]]].
      * destruct (code =? 200) eqn:Ec; cbn [negb].
        -- apply Z.eqb_eq in Ec. subst code. rewrite readLoop_spec. cbn [snd].
           destruct readErr as [e|]; cbn [readError].
           ++ split; [discriminate|]. intros [_ [b Hb]]. congruence.
           ++ split; [|reflexivity]. intros _. split; [exact Hip | now exists body].
        -- apply Z.eqb_neq in Ec. cbn [snd]. split; [discriminate|].
           intros [_ [b Hb]]. congruence.
  - unfold FetchConsoleOutput. case_bool_decide as Hip; [now cbn|].
    cbv zeta. destruct (httpGet (requestURL Getenv command)) as [e|code body readErr];
      [now cbn|].
    destruct (code =? 200) eqn:Ec; cbn [negb]; [|now cbn].
    apply Z.eqb_eq in Ec. subst code. rewrite readLoop_spec. cbn [fst app].
    intros _. split; [exact Hip|]. now exists body, readErr.
  - intros body readErr. apply FetchConsoleOutput_ok.
Qed.

Lemma fetch_error_cases_witness :
  let Getenv := envOf "10.0.0.2" "" in
  let httpGet := fun _ : string =>
    Response 200 ("1 2 3" +:+ newline +:+ "4 5") (Some (Errorf "unexpected EOF" [])) in
  FetchConsoleOutput Getenv httpGet "pwr"
  = (["1 2 3"; "4 5"],
     Some (Errorf "error reading response body: %w" [ArgErr (Errorf "unexpected EOF" [])])).
Proof.
  intros Getenv httpGet.
  rewrite (proj2 (proj2 (fetch_error_cases Getenv httpGet "pwr"))
             ("1 2 3" +:+ newline +:+ "4 5") (Some (Errorf "unexpected EOF" []))
             ltac:(vm_compute; discriminate) eq_refl).
  vm_compute. reflexivity.
Defined.

(** ** The balance channels and the series of the gauges *)

Lemma countGo_byte c p :
  strings.countGo 0 [c] p = Z.of_nat (length (List.filter (fun a => bool_decide (a = c)) p)).
Proof.
  induction p as [|a p IH]; [reflexivity|].
  cbn [strings.countGo strings.hasPrefixBytes List.filter length Nat.sub].
  destruct (bool_decide (a = c)); cbn [andb length].
  - destruct p; cbn [strings.hasPrefixBytes]; rewrite IH; lia.
  - exact IH.
Qed.

Lemma onesOf_le p : (onesOf p <= length p)%nat.
Proof. unfold onesOf. apply List.filter_length_le. Qed.

Lemma length_bytes s : length (bytes s) = String.length s.
Proof.
  unfold bytes. induction s as [|a s IH]; [reflexivity|]. cbn. now f_equal.
Qed.

Lemma Count_one s : strings.Count s "1" = Z.of_nat (onesOf (bytes s)).
Proof. unfold strings.Count. rewrite bool_decide_eq_false_2 by discriminate. apply countGo_byte. Qed.

(** X13. The balance gauge of a record is the number of [1] bytes of its
    [BAL] text, except for the text [Y], which counts as one channel; the
    tests for the empty text and for [N] do not change the value. It lies
    between 0 and the length of the text. *)
Theorem balance_channels_count BAL :
  (BAL <> "Y" -> activeBalanceChannels BAL = Z.of_nat (onesOf (bytes BAL)))
  /\ activeBalanceChannels "Y" = 1
  /\ 0 <= activeBalanceChannels BAL <= Z.of_nat (String.length BAL).
Proof.
  assert (Hgen : BAL <> "Y" -> activeBalanceChannels BAL = Z.of_nat (onesOf (bytes BAL))).
  { intros HY. unfold activeBalanceChannels.
    rewrite bool_decide_eq_false_2 by exact HY.
    destruct (bool_decide (BAL <> "")) eqn:E1; cbn [andb].
    - destruct (bool_decide (BAL <> "N")) eqn:E2; [apply Count_one|].
      apply bool_decide_eq_false in E2. apply dec_stable in E2. now subst BAL.
    - apply bool_decide_eq_false in E1. apply dec_stable in E1. now subst BAL. }
  split; [exact Hgen|]. split; [reflexivity|].
  destruct (decide (BAL = "Y")) as [->|HY]; [vm_compute; split; discriminate|].
  rewrite (Hgen HY), <- length_bytes. pose proof (onesOf_le (bytes BAL)). lia.
Qed.

Lemma balance_channels_count_witness :
  "0110000000000001" <> "Y"
  /\ activeBalanceChannels "0110000000000001" = 3.
Proof.
  split; [discriminate|].
  exact (proj1 (balance_channels_count "0110000000000001") ltac:(discriminate)).
Defined.

Lemma setGauge_lookup v lb x w vec l :
  gauges (setGauge v lb x w) !! (vec, l)
  = if bool_decide (l = lb) && bool_decide (vec = v) then Some x
    else gauges w !! (vec, l).
Proof.
  unfold setGauge. cbn [gauges]. rewrite lookup_insert.
  case_decide as E; repeat case_bool_decide; simplify_eq; reflexivity.
Qed.

Lemma setBatteryGauges_lookup labels status w vec l :
  gauges (setBatteryGauges labels status w) !! (vec, l)
  = if decide (l = labels)
    then match batteryValue vec status with
         | Some v => Some v
         | None => gauges w !! (vec, l)
         end
    else gauges w !! (vec, l).
Proof.
  unfold setBatteryGauges. rewrite !setGauge_lookup. unfold batteryValue.
  destruct (decide (l = labels)) as [->|Hne].
  - rewrite bool_decide_eq_true_2 by reflexivity. cbn [andb].
    generalize (float64 (BatteryStatus.Volt status)) (float64 (BatteryStatus.Curr status))
      (fdiv (float64 (BatteryStatus.Temp status)) (float64 1000))
      (float64 (BatteryStatus.BaseState status)) (float64 (BatteryStatus.SOC status))
      (float64 (BatteryStatus.Coulomb status))
      (float64 (activeBalanceChannels (BatteryStatus.BAL status))).
    intros v1 v2 v3 v4 v5 v6 v7.
    repeat (match goal with |- context [bool_decide (vec = ?s)] =>
              destruct (bool_decide_reflect (vec = s)) as [->|?] end; [vm_compute; reflexivity|]).
    reflexivity.
  - rewrite bool_decide_eq_false_2 by exact Hne. reflexivity.
Qed.

Lemma setBatteryGauges_rest labels status w :
  scrapeErrors (setBatteryGauges labels status w) = scrapeErrors w
  /\ output (setBatteryGauges labels status w) = output w
  /\ fetched (setBatteryGauges labels status w) = fetched w.
Proof. unfold setBatteryGauges, setGauge. cbn [scrapeErrors output fetched]. auto. Qed.

Lemma world_eq w1 w2 :
  (forall key, gauges w1 !! key = gauges w2 !! key) ->
  scrapeErrors w1 = scrapeErrors w2 -> output w1 = output w2 -> fetched w1 = fetched w2 ->
  w1 = w2.
Proof.
  destruct w1, w2. cbn. intros Hg -> -> ->. f_equal. now apply map_eq.
Qed.

Lemma batteryValue_None vec r1 r2 :
  batteryValue vec r1 = None -> batteryValue vec r2 = None.
Proof.
  unfold batteryValue. repeat (case_bool_decide; [discriminate|]). reflexivity.
Qed.

Lemma setBatteryGauges_last_wins labels r1 r2 w :
  setBatteryGauges labels r2 (setBatteryGauges labels r1 w) = setBatteryGauges labels r2 w.
Proof.
  apply world_eq.
  - intros [vec l]. rewrite !setBatteryGauges_lookup.
    case_decide; [|reflexivity].
    destruct (batteryValue vec r2) eqn:E2; [reflexivity|].
    now rewrite (batteryValue_None vec r2 r1 E2).
  - now rewrite !(proj1 (setBatteryGauges_rest _ _ _)).
  - now rewrite !(proj1 (proj2 (setBatteryGauges_rest _ _ _))).
  - now rewrite !(proj2 (proj2 (setBatteryGauges_rest _ _ _))).
Qed.

Lemma setBatteryGauges_commute l1 l2 r1 r2 w :
  l1 <> l2 ->
  setBatteryGauges l1 r1 (setBatteryGauges l2 r2 w)
  = setBatteryGauges l2 r2 (setBatteryGauges l1 r1 w).
Proof.
  intros Hne. apply world_eq.
  - intros [vec l]. rewrite !setBatteryGauges_lookup.
    repeat case_decide; simplify_eq; reflexivity.
  - now rewrite !(proj1 (setBatteryGauges_rest _ _ _)).
  - now rewrite !(proj1 (proj2 (setBatteryGauges_rest _ _ _))).
  - now rewrite !(proj2 (proj2 (setBatteryGauges_rest _ _ _))).
Qed.

Lemma records_BAT_ID_range lines r :
  r ∈ recordsOf (ParseBAT lines) -> - 2 ^ 63 <= BatteryStatus.ID r < 2 ^ 63.
Proof.
  intros Hr. apply records_BAT_iff in Hr as (line & _ & _ & f0 & f1 & f2 & f3 & f4 & f5 & f6
                       & f7 & f8 & f9 & f10 & f11 & rest & _ & E0 & _).
  now apply parseInt_ok_iff in E0 as [_ ?].
Qed.

Lemma records_PWR_ID_range lines r :
  r ∈ recordsOf (ParsePWR lines) -> - 2 ^ 63 <= PowerStatus.ID r < 2 ^ 63.
Proof.
  intros Hr. apply records_PWR_iff in Hr as (line & _ & _ & f0 & f1 & f2 & f3 & f4 & f5 & f6
                       & f7 & f8 & f9 & f10 & f11 & f12 & f13 & f14 & f15 & f16 & f17 & f18
                       & rest & _ & E0 & _).
  now apply parseInt_ok_iff in E0 as [_ ?].
Qed.

(** X14. Two updates of the battery gauges for the same identity leave
    what the second one writes; for different identities they write
    different series, and their order does not matter. The same holds with
    the label of the unit: there the series differ as soon as the units or
    the identities do. *)
Theorem battery_updates_by_identity r1 r2 w :
  - 2 ^ 63 <= BatteryStatus.ID r1 < 2 ^ 63 ->
  - 2 ^ 63 <= BatteryStatus.ID r2 < 2 ^ 63 ->
  (BatteryStatus.ID r1 = BatteryStatus.ID r2 ->
   metrics.UpdateBatteryMetrics r2 (metrics.UpdateBatteryMetrics r1 w)
   = metrics.UpdateBatteryMetrics r2 w)
  /\ (BatteryStatus.ID r1 <> BatteryStatus.ID r2 ->
      metrics.UpdateBatteryMetrics r2 (metrics.UpdateBatteryMetrics r1 w)
      = metrics.UpdateBatteryMetrics r1 (metrics.UpdateBatteryMetrics r2 w))
  /\ (forall u1 u2,
      u1 = u2 /\ BatteryStatus.ID r1 = BatteryStatus.ID r2 ->
      metrics.UpdateUnitBatteryMetrics u2 r2 (metrics.UpdateUnitBatteryMetrics u1 r1 w)
      = metrics.UpdateUnitBatteryMetrics u2 r2 w)
  /\ (forall u1 u2,
      u1 <> u2 \/ BatteryStatus.ID r1 <> BatteryStatus.ID r2 ->
      metrics.UpdateUnitBatteryMetrics u2 r2 (metrics.UpdateUnitBatteryMetrics u1 r1 w)
      = metrics.UpdateUnitBatteryMetrics u1 r1 (metrics.UpdateUnitBatteryMetrics u2 r2 w)).
Proof.
  intros H1 H2. unfold metrics.UpdateBatteryMetrics, metrics.UpdateUnitBatteryMetrics.
  split; [|split; [|split]].
  - intros ->. apply setBatteryGauges_last_wins.
  - intros Hne. apply setBatteryGauges_commute.
    intros E. injection E as E. apply Hne. symmetry. now apply Itoa_inj.
  - intros u1 u2 [-> ->]. apply setBatteryGauges_last_wins.
  - intros u1 u2 Hne. apply setBatteryGauges_commute.
    intros E. injection E as Eu E. destruct Hne as [Hne|Hne]; [now apply Hne|].
    apply Hne. symmetry. now apply Itoa_inj.
Qed.

Lemma battery_updates_by_identity_witness :
  let r1 := BatteryStatus.mk 1 3300 (-1200) 25000 1 "Normal" "Normal" "Normal" 85 3450 "N" in
  let r2 := BatteryStatus.mk 2 3290 0 24000 2 "Normal" "Normal" "Normal" 84 3400 "0101" in
  metrics.UpdateBatteryMetrics r2 (metrics.UpdateBatteryMetrics r1 emptyWorld)
  = metrics.UpdateBatteryMetrics r1 (metrics.UpdateBatteryMetrics r2 emptyWorld).
Proof.
  intros r1 r2.
  refine (proj1 (proj2 (battery_updates_by_identity r1 r2 emptyWorld _ _)) _);
    cbn; first [lia | discriminate].
Defined.

Lemma foldl_battery_snoc (f : BatteryStatus.t -> world -> world) w recs r :
  foldl (fun w s => f s w) w (recs ++ [r]) = f r (foldl (fun w s => f s w) w recs).
Proof. now rewrite foldl_app. Qed.

(** After the gauges have been updated for every record of a list, a
    series of identity [i] shows the last record of that identity, and is
    untouched if there is none. *)
Lemma battery_batch_lookup labelsOf recs :
  forall w vec l,
    gauges (foldl (fun w s => setBatteryGauges (labelsOf s) s w) w recs) !! (vec, l)
    = match last (List.filter (fun s => bool_decide (labelsOf s = l)) recs) with
      | Some r => match batteryValue vec r with
                  | Some v => Some v
                  | None => gauges w !! (vec, l)
                  end
      | None => gauges w !! (vec, l)
      end.
Proof.
  induction recs as [|r recs IH] using rev_ind; intros w vec l; [reflexivity|].
  rewrite foldl_app. cbn [foldl]. rewrite setBatteryGauges_lookup, List.filter_app.
  cbn [List.filter]. case_decide as E.
  - subst l. rewrite bool_decide_eq_true_2 by reflexivity. rewrite last_snoc.
    destruct (batteryValue vec r) eqn:Ev; [reflexivity|].
    rewrite IH. destruct (last _) as [r'|]; [|reflexivity].
    now rewrite (batteryValue_None vec r r' Ev).
  - rewrite bool_decide_eq_false_2 by congruence. rewrite app_nil_r. apply IH.
Qed.

(** ** The exporter for one unit *)

Lemma ParseBAT_done lines :
  exists lg, ParseBAT lines = Done (recordsOf (ParseBAT lines), None, lg).
Proof. destruct (ParseBAT_records lines) as (lg & E & _). rewrite E. now exists lg. Qed.

Lemma ParsePWR_done lines :
  exists lg, ParsePWR lines = Done (recordsOf (ParsePWR lines), None, lg).
Proof. destruct (ParsePWR_records lines) as (lg & E & _). rewrite E. now exists lg. Qed.

Lemma filter_identity lines i :
  - 2 ^ 63 <= i < 2 ^ 63 ->
  List.filter (fun s => bool_decide ([strconv.Itoa (BatteryStatus.ID s)] = [strconv.Itoa i]))
              (recordsOf (ParseBAT lines))
  = List.filter (fun s => bool_decide (BatteryStatus.ID s = i)) (recordsOf (ParseBAT lines)).
Proof.
  intros Hi. apply List.filter_ext_in. intros r Hr.
  apply list_elem_of_In, records_BAT_ID_range in Hr.
  apply bool_decide_ext. split; [|now intros ->].
  intros E. injection E as E. now apply Itoa_inj.
Qed.

(** X15. [processBATData] of the exporter for one unit never panics.  When
    the fetch returns an error, with or without lines read before it, no
    gauge changes.  Otherwise, for every identity [i], a battery gauge of
    [i] shows the last record of the batch with that identity, and keeps
    what it showed when the batch has none. *)
Theorem single_unit_gauges_show_last_record Getenv httpGet pwrUnitCount w lines err :
  FetchConsoleOutput Getenv (httpGet (length (fetched w))) "bat" = (lines, err) ->
  exists w',
    exporter.processBATData Getenv httpGet pwrUnitCount w = Done w'
    /\ (err <> None -> gauges w' = gauges w)
    /\ (err = None ->
        forall vec i,
          - 2 ^ 63 <= i < 2 ^ 63 ->
          gauges w' !! (vec, [strconv.Itoa i])
          = match last (List.filter (fun r => bool_decide (BatteryStatus.ID r = i))
                                    (recordsOf (ParseBAT lines))) with
            | Some r => match batteryValue vec r with
                        | Some v => Some v
                        | None => gauges w !! (vec, [strconv.Itoa i])
                        end
            | None => gauges w !! (vec, [strconv.Itoa i])
            end).
Proof.
  intros Hfetch. unfold exporter.processBATData, fetch. rewrite Hfetch.
  destruct err as [e|].
  - eexists. split; [reflexivity|]. split; [reflexivity | congruence].
  - destruct (ParseBAT_done lines) as (lg & ->). cbn [mbind exec_bind].
    eexists. split; [reflexivity|]. split; [congruence|].
    intros _ vec i Hi. cbn [logTo gauges].
    unfold metrics.UpdateBatteryMetrics.
    rewrite (battery_batch_lookup (fun s => [strconv.Itoa (BatteryStatus.ID s)])).
    rewrite (filter_identity lines i Hi).
    now destruct (length (recordsOf (ParseBAT lines)) =? 0)%nat.
Qed.
Lemma single_unit_gauges_show_last_record_witness :
  let Getenv := envOf "10.0.0.2" "" in
  let body :=
    "1 3300 -1200 25000 Dischg Normal Normal Normal 85% 3450 mAH N" +:+ newline
    +:+ "2 3310 0 24000 Idle Normal Normal Normal 90% 3600 mAH N" +:+ newline
    +:+ "1 3290 0 25100 Idle Normal Normal Normal 84% 3400 mAH 0101" in
  let httpGet := fun (n : nat) (url : string) => Response 200 body None in
  exists w',
    exporter.processBATData Getenv httpGet 0 emptyWorld = Done w'
    /\ gauges w' !! ("batteryVolt", ["1"]) = Some (float64 3290)
    /\ gauges w' !! ("batteryBalanceActiveCount", ["1"]) = Some (float64 2)
    /\ gauges w' !! ("batteryVolt", ["2"]) = Some (float64 3310)
    /\ gauges w' !! ("batteryVolt", ["3"]) = None.
Proof.
  intros Getenv body httpGet.
  destruct (single_unit_gauges_show_last_record Getenv httpGet 0 emptyWorld
              (FetchConsoleOutput Getenv (httpGet 0%nat) "bat").1 None)
    as (w' & E & _ & H); [vm_compute; reflexivity|].
  exists w'. split; [exact E|].
  pose proof (fun vec i Hi => H eq_refl vec i Hi) as H'.
  split; [|split; [|split]].
  - exact (H' "batteryVolt" 1 ltac:(lia)).
  - exact (H' "batteryBalanceActiveCount" 1 ltac:(lia)).
  - exact (H' "batteryVolt" 2 ltac:(lia)).
  - exact (H' "batteryVolt" 3 ltac:(lia)).
Defined.

(** ** What the exporter never undoes *)

Lemma extends_refl w : extends w w.
Proof.
  repeat split; auto; try lia; exists []; now rewrite app_nil_r.
Qed.

Lemma extends_trans w1 w2 w3 : extends w1 w2 -> extends w2 w3 -> extends w1 w3.
Proof.
  intros (G1 & C1 & (l1 & O1) & (c1 & F1)) (G2 & C2 & (l2 & O2) & (c2 & F2)).
  split; [auto|]. split; [intros t; specialize (C1 t); specialize (C2 t); lia|].
  split; [exists (l1 ++ l2); now rewrite O2, O1, app_assoc|].
  exists (c1 ++ c2). now rewrite F2, F1, app_assoc.
Qed.

Lemma extends_setGauge vec labels v w : extends w (setGauge vec labels v w).
Proof.
  unfold setGauge. split; [|split; [|split]]; cbn.
  - intros key Hk. rewrite lookup_insert. now case_decide.
  - intros; lia.
  - exists []. now rewrite app_nil_r.
  - exists []. now rewrite app_nil_r.
Qed.

Lemma extends_logTo w entries : extends w (logTo w entries).
Proof.
  unfold logTo. split; [|split; [|split]]; cbn; auto.
  - intros; lia.
  - now exists entries.
  - exists []. now rewrite app_nil_r.
Qed.

Lemma extends_RecordError errorType w : extends w (metrics.RecordError errorType w).
Proof.
  unfold metrics.RecordError. split; [|split; [|split]]; cbn; auto.
  - intros t. rewrite lookup_insert. case_decide; [subst t; cbn|]; lia.
  - exists []. now rewrite app_nil_r.
  - exists []. now rewrite app_nil_r.
Qed.

Lemma extends_fetch Getenv httpGet command w :
  extends w (fetch Getenv httpGet command w).2.
Proof.
  unfold fetch. split; [|split; [|split]]; cbn; auto.
  - intros; lia.
  - exists []. now rewrite app_nil_r.
  - now exists [command].
Qed.

Lemma extends_foldl {A} (f : A -> world -> world) l :
  (forall a w, extends w (f a w)) ->
  forall w, extends w (foldl (fun w a => f a w) w l).
Proof.
  intros Hf. induction l as [|a l IH]; intros w; [apply extends_refl|].
  cbn [foldl]. eapply extends_trans; [apply Hf | apply IH].
Qed.

Lemma extends_setBatteryGauges labels status w :
  extends w (setBatteryGauges labels status w).
Proof.
  unfold setBatteryGauges.
  repeat (eapply extends_trans; [|apply extends_setGauge]). apply extends_refl.
Qed.

Lemma extends_UpdatePowerMetrics ParseFloat status w :
  extends w (metrics.UpdatePowerMetrics ParseFloat status w).
Proof.
  unfold metrics.UpdatePowerMetrics.
  destruct (ParseFloat (PowerStatus.MosTemp status)) as [x [e|]].
  - eapply extends_trans; [|apply extends_logTo].
    repeat (eapply extends_trans; [|apply extends_setGauge]). apply extends_refl.
  - repeat (eapply extends_trans; [|apply extends_setGauge]). apply extends_refl.
Qed.

(** ** The exporter for several units *)

Lemma Itoa_one : strconv.Itoa 1 = "1".
Proof. reflexivity. Qed.

(** The test for the first unit changes nothing. *)
Lemma unitCommand_spec unitNum :
  unitsExporter.unitCommand unitNum = ("bat+" +:+ strconv.Itoa unitNum, "bat" +:+ strconv.Itoa unitNum).
Proof.
  unfold unitsExporter.unitCommand. destruct (unitNum =? 1) eqn:E; [|reflexivity].
  apply Z.eqb_eq in E. now subst unitNum.
Qed.

Lemma fetch_fetched Getenv httpGet command w :
  fetched (fetch Getenv httpGet command w).2 = fetched w ++ [command].
Proof. reflexivity. Qed.

Lemma fetched_logTo w entries : fetched (logTo w entries) = fetched w.
Proof. reflexivity. Qed.

Lemma fetched_RecordError t w : fetched (metrics.RecordError t w) = fetched w.
Proof. reflexivity. Qed.

Lemma fetched_foldl {A} (f : A -> world -> world) l :
  (forall a w, fetched (f a w) = fetched w) ->
  forall w, fetched (foldl (fun w a => f a w) w l) = fetched w.
Proof.
  intros Hf. induction l as [|a l IH]; intros w; [reflexivity|].
  cbn [foldl]. now rewrite IH, Hf.
Qed.

Lemma fetched_setBatteryGauges labels status w :
  fetched (setBatteryGauges labels status w) = fetched w.
Proof. apply setBatteryGauges_rest. Qed.

Lemma fetched_UpdatePowerMetrics ParseFloat status w :
  fetched (metrics.UpdatePowerMetrics ParseFloat status w) = fetched w.
Proof.
  unfold metrics.UpdatePowerMetrics.
  now destruct (ParseFloat (PowerStatus.MosTemp status)) as [x [e|]].
Qed.

(** One unit: the body never panics, fetches the command of the unit and
    nothing else, and undoes nothing. *)
Lemma batUnit_spec Getenv httpGet unitNum tally w :
  exists tally' w',
    unitsExporter.batUnit Getenv httpGet unitNum tally w = Done (tally', w')
    /\ fetched w' = fetched w ++ ["bat+" +:+ strconv.Itoa unitNum]
    /\ extends w w'.
Proof.
  unfold unitsExporter.batUnit. rewrite unitCommand_spec.
  set (label := "bat" +:+ strconv.Itoa unitNum). set (cmd := "bat+" +:+ strconv.Itoa unitNum).
  set (w1 := logTo w _).
  assert (H1 : extends w w1) by apply extends_logTo.
  pose proof (extends_fetch Getenv httpGet cmd w1) as H2.
  pose proof (fetch_fetched Getenv httpGet cmd w1) as F2.
  destruct (fetch Getenv httpGet cmd w1) as [[batLines err] w2]. cbn [snd] in H2, F2.
  destruct err as [e|].
  - eexists _, _. split; [reflexivity|]. split.
    + now rewrite fetched_RecordError, fetched_logTo, F2.
    + eapply extends_trans; [exact H1|]. eapply extends_trans; [exact H2|].
      eapply extends_trans; [apply extends_logTo | apply extends_RecordError].
  - destruct (ParseBAT_done batLines) as (lg & ->). cbn [mbind exec_bind].
    set (recs := recordsOf (ParseBAT batLines)).
    eexists _, _. split; [reflexivity|]. split.
    + destruct (0 <? Z.of_nat (length recs)); rewrite ?fetched_logTo;
        (rewrite (fetched_foldl (fun s w => metrics.UpdateUnitBatteryMetrics label s w));
          [|intros; apply fetched_setBatteryGauges]);
        destruct (Z.of_nat (length recs) =? 0); now rewrite ?fetched_logTo, F2.
    + eapply extends_trans; [exact H1|]. eapply extends_trans; [exact H2|].
      eapply extends_trans; [apply extends_logTo|].
      eapply extends_trans; [apply extends_logTo|].
      eapply extends_trans;
        [|destruct (0 <? Z.of_nat (length recs)); [apply extends_logTo | apply extends_refl]].
      eapply extends_trans;
        [|apply (extends_foldl (fun s w => metrics.UpdateUnitBatteryMetrics label s w));
          intros; apply extends_setBatteryGauges].
      destruct (Z.of_nat (length recs) =? 0); [apply extends_logTo | apply extends_refl].
Qed.

Lemma batUnits_run Getenv httpGet pwrUnitCount fuel :
  pwrUnitCount <= 126 ->
  forall unitNum tally w,
    -128 <= unitNum <= pwrUnitCount + 1 ->
    (Z.to_nat (pwrUnitCount + 1 - unitNum) <= fuel)%nat ->
    exists tally' w',
      unitsExporter.batUnits Getenv httpGet fuel pwrUnitCount unitNum tally w
      = Some (Done (tally', w'))
      /\ fetched w'
         = fetched w
           ++ map (fun k => "bat+" +:+ strconv.Itoa k) (seqZ unitNum (pwrUnitCount + 1 - unitNum))
      /\ extends w w'.
Proof.
  intros Hcount. induction fuel as [|fuel IH]; intros unitNum tally w Hu Hfuel.
  - assert (unitNum = pwrUnitCount + 1) as -> by lia.
    cbn [unitsExporter.batUnits]. rewrite (proj2 (Z.leb_gt _ _)) by lia.
    exists tally, w. replace (pwrUnitCount + 1 - (pwrUnitCount + 1)) with 0 by lia.
    cbn. rewrite app_nil_r. split; [reflexivity|]. split; [reflexivity | apply extends_refl].
  - cbn [unitsExporter.batUnits]. destruct (unitNum <=? pwrUnitCount) eqn:E.
    + apply Z.leb_le in E.
      destruct (batUnit_spec Getenv httpGet unitNum tally w) as (tally1 & w1 & -> & F1 & X1).
      rewrite int8_small by lia.
      destruct (IH (unitNum + 1) tally1 w1) as (tally2 & w2 & -> & F2 & X2); [lia | lia |].
      exists tally2, w2. split; [reflexivity|]. split; [|eapply extends_trans; eassumption].
      rewrite F2, F1, <- app_assoc. f_equal.
      replace (pwrUnitCount + 1 - (unitNum + 1))
        with (Z.pred (pwrUnitCount + 1 - unitNum)) by lia.
      replace (unitNum + 1) with (Z.succ unitNum) by lia.
      now rewrite (seqZ_cons unitNum) by lia.
    + apply Z.leb_gt in E. assert (unitNum = pwrUnitCount + 1) as -> by lia.
      exists tally, w. replace (pwrUnitCount + 1 - (pwrUnitCount + 1)) with 0 by lia.
      cbn. rewrite app_nil_r. split; [reflexivity|]. split; [reflexivity | apply extends_refl].
Qed.

Lemma batUnits_forever Getenv httpGet fuel :
  forall unitNum tally w,
    unitNum <= 127 ->
    unitsExporter.batUnits Getenv httpGet fuel 127 unitNum tally w = None.
Proof.
  induction fuel as [|fuel IH]; intros unitNum tally w Hu; cbn [unitsExporter.batUnits];
    rewrite (proj2 (Z.leb_le _ _)) by exact Hu; [reflexivity|].
  destruct (batUnit_spec Getenv httpGet unitNum tally w) as (tally1 & w1 & -> & _).
  apply IH. pose proof (int8_range (unitNum + 1)). lia.
Qed.

Lemma processBATData_run Getenv httpGet fuel pwrUnitCount w :
  pwrUnitCount < 127 ->
  (Z.to_nat pwrUnitCount <= fuel)%nat ->
  exists w',
    unitsExporter.processBATData Getenv httpGet fuel pwrUnitCount w = Some (Done w')
    /\ fetched w'
       = fetched w ++ map (fun k => "bat+" +:+ strconv.Itoa k) (seqZ 1 pwrUnitCount)
    /\ extends w w'.
Proof.
  intros Hcount Hfuel. unfold unitsExporter.processBATData.
  destruct (pwrUnitCount <=? 0) eqn:E.
  - apply Z.leb_le in E. eexists. split; [reflexivity|].
    split; [|apply extends_logTo].
    rewrite fetched_logTo. unfold seqZ. replace (Z.to_nat pwrUnitCount) with 0%nat by lia.
    cbn. now rewrite app_nil_r.
  - apply Z.leb_gt in E.
    destruct (batUnits_run Getenv httpGet pwrUnitCount fuel ltac:(lia) (int8 1) (0, 0) w)
      as ([total units] & w1 & -> & F1 & X1).
    + rewrite int8_small; lia.
    + rewrite int8_small by lia. lia.
    + rewrite int8_small in F1 by lia.
      replace (pwrUnitCount + 1 - 1) with pwrUnitCount in F1 by lia.
      destruct (0 <? units); [|destruct (0 <? pwrUnitCount)];
        eexists; (split; [reflexivity|]); rewrite ?fetched_logTo;
        (split; [exact F1|]); try exact X1;
        (eapply extends_trans; [exact X1 | apply extends_logTo]).
Qed.



Lemma processBATData_forever Getenv httpGet fuel w :
  unitsExporter.processBATData Getenv httpGet fuel 127 w = None.
Proof.
  unfold unitsExporter.processBATData. cbn [Z.leb Z.compare].
  now rewrite batUnits_forever.
Qed.

(** X17. For a count of 127 the loop of [processBATData] never ends: its
    counter is an [int8], so it wraps from 127 to -128 and stays within the
    count for ever.  No number of iterations is enough. *)
Theorem battery_loop_never_ends_at_127 Getenv httpGet fuel w :
  unitsExporter.processBATData Getenv httpGet fuel 127 w = None.
Proof. apply processBATData_forever. Qed.

Lemma processPWRData_spec Getenv httpGet ParseFloat w :
  exists w',
    processPWRData Getenv httpGet ParseFloat w
    = Done (unitsReported (FetchConsoleOutput Getenv (httpGet (length (fetched w))) "pwr"), w')
    /\ fetched w' = fetched w ++ ["pwr"]
    /\ extends w w'.
Proof.
  unfold processPWRData.
  pose proof (extends_fetch Getenv httpGet "pwr" w) as H2.
  pose proof (fetch_fetched Getenv httpGet "pwr" w) as F2.
  unfold fetch in *. cbn [snd] in H2, F2.
  destruct (FetchConsoleOutput Getenv (httpGet (length (fetched w))) "pwr") as [pwrLines err].
  set (w2 := mkWorld _ _ _ _) in *.
  destruct err as [e|]; cbn [unitsReported].
  - eexists. split; [reflexivity|]. split; [exact F2|].
    eapply extends_trans; [exact H2|].
    eapply extends_trans; [apply extends_logTo | apply extends_RecordError].
  - destruct (ParsePWR_done pwrLines) as (lg & E0).
    set (recs := recordsOf (ParsePWR pwrLines)) in *.
    rewrite E0. cbn [mbind exec_bind].
    destruct (length recs =? 0)%nat eqn:E.
    + apply Nat.eqb_eq in E. rewrite E. eexists. split; [reflexivity|].
      split; [exact F2|].
      eapply extends_trans; [exact H2|].
      eapply extends_trans; apply extends_logTo.
    + eexists. split; [reflexivity|]. split.
      * rewrite fetched_logTo.
        rewrite (fetched_foldl (fun s w => metrics.UpdatePowerMetrics ParseFloat s w));
          [exact F2 | intros; apply fetched_UpdatePowerMetrics].
      * eapply extends_trans; [exact H2|].
        eapply extends_trans; [apply extends_logTo|].
        eapply extends_trans; [|apply extends_logTo].
        apply (extends_foldl (fun s w => metrics.UpdatePowerMetrics ParseFloat s w)).
        intros; apply extends_UpdatePowerMetrics.
Qed.

(** X18. One turn of the exporter for several units polls as many units as
    [processPWRData] reports: the number of power records as an [int8], and
    none when the fetch of [pwr] has failed.  That number is at most 127;
    when it is 127 the turn never ends; below 127 the turn ends without a
    panic, after fetching [pwr] and then [bat+1], [bat+2], ... in order
    (nothing more when the number is zero or negative, as for 128 to 255
    power records), and it has removed no series, lowered no counter and
    only added to the log. *)
Theorem tick_polls_reported_units Getenv httpGet ParseFloat fuel w :
  let units :=
    unitsReported (FetchConsoleOutput Getenv (httpGet (length (fetched w))) "pwr") in
  -128 <= units <= 127
  /\ (units = 127 -> unitsExporter.tick Getenv httpGet ParseFloat fuel w = None)
  /\ (units < 127 -> (Z.to_nat units <= fuel)%nat ->
      exists w',
        unitsExporter.tick Getenv httpGet ParseFloat fuel w = Some (Done w')
        /\ fetched w'
           = fetched w ++ "pwr" :: map (fun k => "bat+" +:+ strconv.Itoa k) (seqZ 1 units)
        /\ extends w w').
Proof.
  intros units. split; [|split].
  - subst units. destruct (FetchConsoleOutput _ _ _) as [lines [e|]]; cbn [unitsReported];
      [lia | apply int8_range].
  - intros H127. unfold unitsExporter.tick.
    destruct (processPWRData_spec Getenv httpGet ParseFloat
                (logTo w [Println "Fetching and processing device data..."]))
      as (w1 & -> & _).
    rewrite fetched_logTo. fold units. rewrite H127.
    now rewrite processBATData_forever.
  - intros Hlt Hfuel. unfold unitsExporter.tick.
    destruct (processPWRData_spec Getenv httpGet ParseFloat
                (logTo w [Println "Fetching and processing device data..."]))
      as (w1 & -> & F1 & X1).
    rewrite fetched_logTo in *. fold units.
    destruct (processBATData_run Getenv httpGet fuel units w1 Hlt Hfuel)
      as (w2 & -> & F2 & X2).
    eexists. split; [reflexivity|]. split.
    + now rewrite fetched_logTo, F2, F1, <- app_assoc.
    + eapply extends_trans; [apply extends_logTo|].
      eapply extends_trans; [exact X1|].
      eapply extends_trans; [exact X2 | apply extends_logTo].
Qed.

Lemma tick_polls_reported_units_witness :
  let Getenv := envOf "10.0.0.2" "" in
  let powerLine :=
    "1 2 3 4 5 6 7 8 Idle Normal Normal Normal 85% t1 t2 Normal Normal 250 Normal" in
  let httpGet := fun (n : nat) (url : string) =>
    if strings.HasSuffix url "pwr"
    then Response 200 (powerLine +:+ newline +:+ powerLine) None
    else Response 404 "" None in
  let ParseFloat := fun s : string => (float64 250, @None error) in
  exists w',
    unitsExporter.tick Getenv httpGet ParseFloat 2 emptyWorld = Some (Done w')
    /\ fetched w' = ["pwr"; "bat+1"; "bat+2"]
    /\ extends emptyWorld w'.
Proof.
  intros Getenv powerLine httpGet ParseFloat.
  pose proof (tick_polls_reported_units Getenv httpGet ParseFloat 2 emptyWorld) as H.
  assert (Hu : unitsReported
                 (FetchConsoleOutput Getenv (httpGet (length (fetched emptyWorld))) "pwr") = 2)
    by (vm_compute; reflexivity).
  cbv zeta in H. rewrite Hu in H. destruct H as (_ & _ & H).
  destruct (H ltac:(reflexivity) ltac:(vm_compute; lia)) as (w' & E & F & X).
  exists w'. split; [exact E|]. split; [exact F | exact X].
Defined.

(** ** One turn of the exporter for one unit *)

Lemma fetched_batch_battery recs :
  forall w,
    fetched (foldl (fun w status => metrics.UpdateBatteryMetrics status w) w recs)
    = fetched w.
Proof.
  induction recs as [|r recs IH]; intros w; [reflexivity|].
  cbn [foldl]. rewrite IH. unfold metrics.UpdateBatteryMetrics.
  apply fetched_setBatteryGauges.
Qed.

Lemma extends_batch_battery recs :
  forall w, extends w (foldl (fun w status => metrics.UpdateBatteryMetrics status w) w recs).
Proof.
  induction recs as [|r recs IH]; intros w; [apply extends_refl|].
  cbn [foldl]. eapply extends_trans; [|apply IH].
  unfold metrics.UpdateBatteryMetrics. apply extends_setBatteryGauges.
Qed.

(** X19. One turn of the exporter for one unit always ends, without a
    panic: it fetches [pwr] and then [bat], also when the fetch of [pwr]
    has failed, removes no series, lowers no error counter and only adds
    to the log. *)
Theorem single_unit_tick_completes Getenv httpGet ParseFloat w :
  exists w',
    exporter.tick Getenv httpGet ParseFloat w = Done w'
    /\ fetched w' = fetched w ++ ["pwr"; "bat"]
    /\ extends w w'.
Proof.
  unfold exporter.tick.
  destruct (processPWRData_spec Getenv httpGet ParseFloat
              (logTo w [Println "Fetching and processing device data..."]))
    as (w1 & -> & F1 & X1).
  cbn [mbind exec_bind]. rewrite fetched_logTo in F1.
  unfold exporter.processBATData.
  pose proof (extends_fetch Getenv httpGet "bat" w1) as H2.
  pose proof (fetch_fetched Getenv httpGet "bat" w1) as F2.
  destruct (fetch Getenv httpGet "bat" w1) as [[batLines err] w2]. cbn [snd] in H2, F2.
  assert (X0 : extends w w2).
  { eapply extends_trans; [apply extends_logTo|]. eapply extends_trans; eassumption. }
  assert (F0 : fetched w2 = fetched w ++ ["pwr"; "bat"]).
  { now rewrite F2, F1, <- app_assoc. }
  destruct err as [e|].
  - eexists. split; [reflexivity|]. split; [exact F0|].
    eapply extends_trans; [exact X0|].
    eapply extends_trans; [|apply extends_logTo].
    eapply extends_trans; [apply extends_logTo | apply extends_RecordError].
  - destruct (ParseBAT_done batLines) as (lg & ->). cbn [mbind exec_bind].
    set (recs := recordsOf (ParseBAT batLines)).
    eexists. split; [reflexivity|]. split.
    + rewrite !fetched_logTo.
      rewrite fetched_batch_battery.
      destruct (length recs =? 0)%nat; [rewrite fetched_logTo|]; exact F0.
    + eapply extends_trans; [exact X0|].
      eapply extends_trans; [apply extends_logTo|].
      eapply extends_trans; [|apply extends_logTo].
      eapply extends_trans; [|apply extends_logTo].
      eapply extends_trans; [|apply extends_batch_battery].
      destruct (length recs =? 0)%nat; [apply extends_logTo | apply extends_refl].
Qed.


